(** * HyperTrack: copy-trading pipeline

    A shallow embedding of the wallet state tracker
    ([core/hyperliquid_tracker.py]), the trade execution client
    ([core/lighter_trader.py]), the persistent store
    ([database/db_manager.py]) and the follow decision engine
    ([core/strategy_engine.py]), followed by the properties checked
    against them.

    Modelling conventions.
    - [Decimal] values are finite decimals; they are embedded as rationals
      [Q].  Comparison of finite decimals is exact in Python, and so is
      [Decimal(str)]; [abs], [+], [-], [*] and [/] round their result to the
      28 significant digits of the default decimal context, half to even.
      The rounding is [context_round]; it is applied where the tracker takes
      [abs] of a size and where the engine computes a follow size
      ([decimal_abs], [decimal_mul], [decimal_div]).  Elsewhere (the totals
      of a snapshot, the arithmetic of the execution client, the loss ratio
      of the stop-loss check) the arithmetic is kept exact: it agrees with
      Python as long as the results have at most 28 significant digits.
    - [float] values that only carry configuration or are stored (time
      stamps, delays, slippage, stored sizes) are embedded as [Q] as well.
    - [str] values are byte strings; [upper] and [lower] act on ASCII
      letters.
    - A coroutine is a function from the state it can touch to an outcome
      (a value or a raised [Exception]) and the state after it.
    - [logger] calls have no effect on results and are left out. *)

From Stdlib Require Import String Ascii List ZArith QArith Qabs Qminmax Lia Bool.
From Stdlib Require Import Qpower Qfield.
From Stdlib Require Import DecimalString.
Import ListNotations.
Open Scope string_scope.
Open Scope Q_scope.

(** ** Decimal comparisons *)

Definition Qgtb (a b : Q) : bool :=
  match a ?= b with Gt => true | _ => false end.

Definition Qltb (a b : Q) : bool :=
  match a ?= b with Lt => true | _ => false end.

Definition Qleb (a b : Q) : bool :=
  match a ?= b with Gt => false | _ => true end.

(** [int(d)] for a decimal: truncation towards zero. *)
Definition int_of_decimal (d : Q) : Z := Z.quot (Qnum d) (Zpos (Qden d)).

(** [str(n)] for an [int]. *)
Definition str_of_int (n : Z) : string := NilZero.string_of_int (Z.to_int n).

(** ** Strings *)

Definition upper_ascii (c : ascii) : ascii :=
  let n := nat_of_ascii c in
  if (97 <=? n)%nat && (n <=? 122)%nat then ascii_of_nat (n - 32) else c.

Definition lower_ascii (c : ascii) : ascii :=
  let n := nat_of_ascii c in
  if (65 <=? n)%nat && (n <=? 90)%nat then ascii_of_nat (n + 32) else c.

Fixpoint upper (s : string) : string :=
  match s with
  | EmptyString => EmptyString
  | String c rest => String (upper_ascii c) (upper rest)
  end.

Fixpoint lower (s : string) : string :=
  match s with
  | EmptyString => EmptyString
  | String c rest => String (lower_ascii c) (lower rest)
  end.

(** [s.replace(old, new)] for a non-empty [old]: occurrences are replaced
    from left to right without overlap.  [skip] counts the characters of a
    replaced occurrence still to be dropped. *)
Fixpoint replace_from (old new : string) (skip : nat) (s : string) : string :=
  match s with
  | EmptyString => EmptyString
  | String c rest =>
      match skip with
      | S k => replace_from old new k rest
      | O =>
          if prefix old s
          then new ++ replace_from old new (String.length old - 1) rest
          else String c (replace_from old new 0 rest)
      end
  end.

Definition replace (old new s : string) : string := replace_from old new 0 s.

(** [s[:n]] *)
Definition take (n : nat) (s : string) : string := substring 0 n s.

(** ** Outcomes and coroutines *)

(** A raised [Exception]: its class name and [str(e)]. *)
Record PyException := {
  exc_class : string;
  exc_str : string
}.

Inductive outcome (A : Type) :=
| Returns (a : A)
| Raises (e : PyException).
Arguments Returns {A} a.
Arguments Raises {A} e.

(** A computation over a state [S]: the state after it is kept on both
    outcomes, as assignments made before a [raise] stay made. *)
Definition M (S A : Type) : Type := S -> outcome A * S.

Definition ret {S A} (a : A) : M S A := fun s => (Returns a, s).

Definition raise {S A} (e : PyException) : M S A := fun s => (Raises e, s).

Definition bind {S A B} (m : M S A) (k : A -> M S B) : M S B :=
  fun s =>
    match m s with
    | (Returns a, s') => k a s'
    | (Raises e, s') => (Raises e, s')
    end.

(** [try: m  except Exception as e: handler e] *)
Definition try_except {S A} (m : M S A) (handler : PyException -> M S A)
    : M S A :=
  fun s =>
    match m s with
    | (Returns a, s') => (Returns a, s')
    | (Raises e, s') => handler e s'
    end.

(** A pure step that can raise. *)
Definition of_outcome {S A} (o : outcome A) : M S A := fun s => (o, s).

Notation "x <- m ;; k" := (bind m (fun x => k))
  (at level 61, m at next level, right associativity).
Notation "' pat <- m ;; k" := (bind m (fun x => match x with pat => k end))
  (at level 61, pat pattern, m at next level, right associativity).
Notation "m ;;; k" := (bind m (fun _ => k))
  (at level 61, right associativity).

(** [range(lo, hi)] *)
Fixpoint range_from (lo : Z) (n : nat) : list Z :=
  match n with
  | O => []
  | S k => lo :: range_from (lo + 1) k
  end.

Definition py_range (lo hi : Z) : list Z := range_from lo (Z.to_nat (hi - lo)).

(** Values passed at a call site whose arity or types the callee decides. *)
Inductive PyAtom :=
| PyStr (s : string)
| PyFloat (q : Q).

Inductive PyValue :=
| Atom (a : PyAtom)
| Dict (items : list (string * PyAtom)).

(** ** Dictionaries with string keys

    A [dict] keeps its keys in insertion order; assigning to a key it holds
    replaces the value in place. *)

Definition dict_get {V} (k : string) (d : list (string * V)) : option V :=
  option_map snd (find (fun kv => String.eqb (fst kv) k) d).

Fixpoint dict_set {V} (k : string) (v : V) (d : list (string * V))
    : list (string * V) :=
  match d with
  | [] => [(k, v)]
  | (k', v') :: rest =>
      if String.eqb k' k then (k', v) :: rest
      else (k', v') :: dict_set k v rest
  end.

Definition dict_keys {V} (d : list (string * V)) : list string := map fst d.

(** ** The decimal context

    Arithmetic on [Decimal] ([abs], [+], [-], [*], [/]) rounds its exact
    result to the 28 significant digits of the default context, half to
    even; comparisons and [Decimal(str)] are exact.  The exponent range of
    the context (1e-999999 to 1e999999) is not modelled. *)

Definition prec : Z := 28.

(** The number of decimal digits of [n >= 1]; [fuel] bounds the digits. *)
Fixpoint digits_upto (fuel : nat) (n : Z) : Z :=
  match fuel with
  | O => 1
  | S fuel' => if (n <? 10)%Z then 1 else (1 + digits_upto fuel' (n / 10))%Z
  end.

Definition decimal_digits (n : Z) : Z := digits_upto (Z.to_nat (Z.log2 n)) n.

(** [10 ^ k] for [k >= 0], and 1 below. *)
Definition pow10 (k : Z) : Z := (10 ^ Z.max 0 k)%Z.

(** The adjusted exponent of [n / d], for [n, d >= 1]: the [e] with
    [10 ^ e <= n / d < 10 ^ (e + 1)]. *)
Definition adjusted_exponent (n d : Z) : Z :=
  let k := (decimal_digits n - decimal_digits d)%Z in
  if (d * pow10 k <=? n * pow10 (- k))%Z then k else (k - 1)%Z.

(** [n / d] rounded to an integer, half to even, for [n >= 0], [d >= 1]. *)
Definition round_half_even (n d : Z) : Z :=
  let q := (n / d)%Z in
  let r := (n mod d)%Z in
  match (2 * r ?= d)%Z with
  | Lt => q
  | Gt => (q + 1)%Z
  | Eq => if Z.even q then q else (q + 1)%Z
  end.

(** [n / d], for [n, d >= 1], rounded to [prec] significant digits. *)
Definition round_positive (n d : Z) : Q :=
  let shift := (prec - 1 - adjusted_exponent n d)%Z in
  let coefficient := round_half_even (n * pow10 shift) (d * pow10 (- shift)) in
  Qred (Qmake (coefficient * pow10 (- shift)) (Z.to_pos (pow10 shift))).

(** What the context makes of the exact result [q] of an operation. *)
Definition context_round (q : Q) : Q :=
  match Qnum q with
  | Z0 => 0
  | Zpos n => round_positive (Zpos n) (Zpos (Qden q))
  | Zneg n => - round_positive (Zpos n) (Zpos (Qden q))
  end.

(** [abs(a)], [a * b] and [a / b] on [Decimal]s. *)
Definition decimal_abs (a : Q) : Q := context_round (Qabs a).

Definition decimal_mul (a b : Q) : Q := context_round (a * b).

Definition decimal_div (a b : Q) : Q := context_round (a / b).

(** ** [Decimal(s)] for a string

    [[sign] digits [. digits] [e [sign] digits]], with at least one digit
    before the exponent; the value is exact.  [None] stands for
    [InvalidOperation].  The texts of the special values (NaN, Infinity),
    surrounding white space and underscores are not modelled: a price or a
    size is a number. *)

Definition digit_value (c : ascii) : option Z :=
  let n := nat_of_ascii c in
  if (48 <=? n)%nat && (n <=? 57)%nat then Some (Z.of_nat (n - 48)) else None.

(** The leading digits of [s]: their value continuing [acc], how many they
    are after [count], and the rest of [s]. *)
Fixpoint read_digits (s : string) (acc : Z) (count : nat)
    : Z * nat * string :=
  match s with
  | EmptyString => (acc, count, s)
  | String c rest =>
      match digit_value c with
      | Some d => read_digits rest (10 * acc + d)%Z (S count)
      | None => (acc, count, s)
      end
  end.

(** An optional sign: whether it is a minus, and the rest. *)
Definition read_sign (s : string) : bool * string :=
  match s with
  | String c rest =>
      if Ascii.eqb c "-" then (true, rest)
      else if Ascii.eqb c "+" then (false, rest)
      else (false, s)
  | EmptyString => (false, s)
  end.

(** An optional exponent part that ends the string. *)
Definition read_exponent (s : string) : option Z :=
  match s with
  | EmptyString => Some 0%Z
  | String c rest =>
      if Ascii.eqb c "e" || Ascii.eqb c "E"
      then
        let (negative, digits) := read_sign rest in
        match read_digits digits 0 0 with
        | (value, S _, EmptyString) =>
            Some (if negative then (- value)%Z else value)
        | _ => None
        end
      else None
  end.

Definition Decimal_of_str (s : string) : option Q :=
  let (negative, unsigned) := read_sign s in
  let '(integer, integer_count, after_integer) := read_digits unsigned 0 0 in
  let '(coefficient, fraction_count, after_fraction) :=
    match after_integer with
    | String c rest =>
        if Ascii.eqb c "." then read_digits rest integer 0
        else (integer, O, after_integer)
    | EmptyString => (integer, O, after_integer)
    end in
  if (integer_count + fraction_count =? 0)%nat then None
  else
    match read_exponent after_fraction with
    | Some exponent =>
        let magnitude :=
          inject_Z coefficient * 10 ^ (exponent - Z.of_nat fraction_count) in
        Some (Qred (if negative then - magnitude else magnitude))
    | None => None
    end.

(** ** core/events.py *)

Module Events.

Inductive EventType := OPEN | CLOSE | INCREASE | DECREASE | FLIP | UNKNOWN.

Inductive Side := LONG | SHORT.

(** One entry of [assetPositions], under its ["position"] key.  A field is
    [None] when the key is absent. *)
Record PositionData := {
  coin : string;
  szi : option Q;
  entryPx : option Q
}.

(** [timestamp] is [datetime.now()] and plays no part in any decision; it is
    left out. *)
Record PositionEvent := {
  event_type : EventType;
  symbol : string;
  side : Side;
  size : Q;
  price : Q;
  wallet_address : string;
  raw_data : option PositionData
}.

(** An entry of [assetPositions]: its ["position"] dictionary and its
    top-level ["positionValue"], each [None] when the key is absent. *)
Record AssetPosition := {
  position : option PositionData;
  positionValue : option Q
}.

(** [updated_at] is [datetime.now()] and is left out. *)
Record WalletState := {
  address : string;
  account_value : Q;
  available_balance : Q;
  positions : list AssetPosition
}.

Definition total_position_value (self : WalletState) : Q :=
  fold_left (fun total pos =>
               match positionValue pos with
               | Some v => total + v
               | None => total
               end) (positions self) 0.

Definition position_ratio (self : WalletState) : Q :=
  if Qleb (account_value self) 0 then 0
  else total_position_value self / account_value self.

End Events.

(** ** core/hyperliquid_tracker.py *)

Module HyperliquidTracker.
Import Events.

Definition _determine_event_type (old_size new_size : Q) : EventType :=
  if Qeq_bool old_size 0 && negb (Qeq_bool new_size 0) then OPEN
  else if negb (Qeq_bool old_size 0) && Qeq_bool new_size 0 then CLOSE
  else if (Qgtb old_size 0 && Qltb new_size 0)
          || (Qltb old_size 0 && Qgtb new_size 0) then FLIP
  else if Qgtb (decimal_abs new_size) (decimal_abs old_size) then INCREASE
  else if Qltb (decimal_abs new_size) (decimal_abs old_size) then DECREASE
  else UNKNOWN.

(** [Decimal(str(pos.get(key, "0"))) if pos else Decimal("0")] *)
Definition decimal_field (pos : option PositionData)
    (key : PositionData -> option Q) : Q :=
  match pos with
  | Some p => match key p with Some v => v | None => 0 end
  | None => 0
  end.

Definition _compare_position (symbol : string)
    (old_pos new_pos : option PositionData) (wallet_address : string)
    : option PositionEvent :=
  let old_size := decimal_field old_pos szi in
  let new_size := decimal_field new_pos szi in
  if Qeq_bool old_size new_size then None
  else
    let new_entry_price := decimal_field new_pos entryPx in
    let side :=
      if Qgtb new_size 0 then LONG
      else if Qltb new_size 0 then SHORT
      else if Qgtb old_size 0 then LONG else SHORT in
    let event_type := _determine_event_type old_size new_size in
    Some {| event_type := event_type;
            symbol := symbol;
            side := side;
            size := decimal_abs new_size;
            price := new_entry_price;
            wallet_address := wallet_address;
            raw_data := new_pos |}.

(** *** Snapshots and polling *)

Definition _positions_to_dict (positions : list AssetPosition)
    : list (string * PositionData) :=
  fold_left (fun result pos =>
               match position pos with
               | Some position_data =>
                   if String.eqb (coin position_data) "" then result
                   else dict_set (coin position_data) position_data result
               | None => result
               end) positions [].

(** [set(a) | set(b)] for two lists of distinct keys.  The order in which a
    Python set yields its elements is not specified; this one yields the
    keys of [a], then the keys of [b] that [a] lacks. *)
Definition union_keys (a b : list string) : list string :=
  a ++ filter (fun k => negb (existsb (String.eqb k) a)) b.

Definition _detect_changes (old_state new_state : WalletState)
    : list PositionEvent :=
  let old_positions := _positions_to_dict (positions old_state) in
  let new_positions := _positions_to_dict (positions new_state) in
  let all_symbols :=
    union_keys (dict_keys old_positions) (dict_keys new_positions) in
  flat_map (fun symbol =>
              match _compare_position symbol
                      (dict_get symbol old_positions)
                      (dict_get symbol new_positions)
                      (address new_state) with
              | Some event => [event]
              | None => []
              end) all_symbols.

(** The reply of [info.user_state]; a field is [None] when its key is
    absent. *)
Record MarginSummary := {
  accountValue : option Q;
  totalMarginUsed : option Q
}.

Record UserState := {
  marginSummary : option MarginSummary;
  assetPositions : option (list AssetPosition)
}.

(** The tracker object together with the venue it queries and the callback
    it was given.  The venue answers the [n]-th query of the run, for an
    address, through [info_user_state]; [queries] counts the queries made.
    [on_event] is the callback ([None] when none was given): it returns or
    raises; [delivered] records the events it was called with. *)
Record Tracker := {
  wallet_addresses : list string;
  _running : bool;
  _last_states : list (string * WalletState);
  info_user_state : string -> nat -> outcome UserState;
  queries : nat;
  on_event : option (PositionEvent -> outcome unit);
  delivered : list PositionEvent
}.

(** [__init__] *)
Definition init (wallet_addresses : list string)
    (info_user_state : string -> nat -> outcome UserState)
    (on_event : option (PositionEvent -> outcome unit)) : Tracker :=
  {| wallet_addresses := map lower wallet_addresses;
     _running := false;
     _last_states := [];
     info_user_state := info_user_state;
     queries := 0;
     on_event := on_event;
     delivered := [] |}.

Definition get_wallet_state (address : string) : M Tracker WalletState :=
  fun self =>
    let self' := {| wallet_addresses := wallet_addresses self;
                    _running := _running self;
                    _last_states := _last_states self;
                    info_user_state := info_user_state self;
                    queries := S (queries self);
                    on_event := on_event self;
                    delivered := delivered self |} in
    match info_user_state self address (queries self) with
    | Raises e => (Raises e, self')
    | Returns user_state =>
        let account_value :=
          match marginSummary user_state with
          | Some summary =>
              match accountValue summary with Some v => v | None => 0 end
          | None => 0
          end in
        let total_margin_used :=
          match marginSummary user_state with
          | Some summary =>
              match totalMarginUsed summary with Some v => v | None => 0 end
          | None => 0
          end in
        (Returns {| address := lower address;
                    account_value := account_value;
                    available_balance := account_value - total_margin_used;
                    positions :=
                      match assetPositions user_state with
                      | Some ps => ps
                      | None => []
                      end |}, self')
    end.

(** [self._last_states[address] = state] *)
Definition set_last_state (address : string) (state : WalletState)
    : M Tracker unit :=
  fun self =>
    (Returns tt,
     {| wallet_addresses := wallet_addresses self;
        _running := _running self;
        _last_states := dict_set address state (_last_states self);
        info_user_state := info_user_state self;
        queries := queries self;
        on_event := on_event self;
        delivered := delivered self |}).

(** [if self.on_event: self.on_event(event)] *)
Definition deliver (event : PositionEvent) : M Tracker unit :=
  fun self =>
    match on_event self with
    | None => (Returns tt, self)
    | Some callback =>
        (callback event,
         {| wallet_addresses := wallet_addresses self;
            _running := _running self;
            _last_states := _last_states self;
            info_user_state := info_user_state self;
            queries := queries self;
            on_event := on_event self;
            delivered := delivered self ++ [event] |})
    end.

Fixpoint deliver_all (events : list PositionEvent) : M Tracker unit :=
  match events with
  | [] => ret tt
  | event :: rest => deliver event ;;; deliver_all rest
  end.

(** The body of the loop of [_poll_all_wallets] for one address. *)
Definition poll_wallet (address : string) : M Tracker unit :=
  try_except
    (new_state <- get_wallet_state address ;;
     (fun self =>
        match dict_get address (_last_states self) with
        | Some old_state => deliver_all (_detect_changes old_state new_state) self
        | None => (Returns tt, self)
        end) ;;;
     set_last_state address new_state)
    (fun e => ret tt).

Fixpoint for_each {S} (body : string -> M S unit) (items : list string)
    : M S unit :=
  match items with
  | [] => ret tt
  | item :: rest => body item ;;; for_each body rest
  end.

Definition _poll_all_wallets : M Tracker unit :=
  fun self => for_each poll_wallet (wallet_addresses self) self.

(** The first loop of [start]: the initial state of every wallet. *)
Definition initial_state (address : string) : M Tracker unit :=
  try_except
    (state <- get_wallet_state address ;; set_last_state address state)
    (fun e => ret tt).

Definition start_initial_states : M Tracker unit :=
  fun self =>
    for_each initial_state (wallet_addresses self)
      {| wallet_addresses := wallet_addresses self;
         _running := true;
         _last_states := _last_states self;
         info_user_state := info_user_state self;
         queries := queries self;
         on_event := on_event self;
         delivered := delivered self |}.

End HyperliquidTracker.

(** The classification table of the specification, as a function of the two
    signs and of the comparison of [|new|] with [|old|].  [None] stands for
    "no event". *)
Definition sign_of (q : Q) : Z := Z.sgn (Qnum q).

Definition classification_table (sign_old sign_new : Z) (c : comparison)
    : option Events.EventType :=
  if (sign_old =? 0)%Z && negb (sign_new =? 0)%Z then Some Events.OPEN
  else if negb (sign_old =? 0)%Z && (sign_new =? 0)%Z then Some Events.CLOSE
  else if negb (sign_old =? 0)%Z && negb (sign_new =? 0)%Z
          && negb (sign_old =? sign_new)%Z then Some Events.FLIP
  else match c with
       | Eq => None
       | Gt => if negb (sign_old =? 0)%Z then Some Events.INCREASE
               else Some Events.UNKNOWN
       | Lt => if negb (sign_old =? 0)%Z then Some Events.DECREASE
               else Some Events.UNKNOWN
       end.

Definition side_table (sign_old sign_new : Z) : Events.Side :=
  if negb (sign_new =? 0)%Z
  then (if (0 <? sign_new)%Z then Events.LONG else Events.SHORT)
  else (if (0 <? sign_old)%Z then Events.LONG else Events.SHORT).

(** ** core/lighter_trader.py *)

Module Lighter.

Inductive OrderSide := BUY | SELL.

Definition OrderSide_eqb (a b : OrderSide) : bool :=
  match a, b with
  | BUY, BUY | SELL, SELL => true
  | _, _ => false
  end.

(** [OrderSide.value] *)
Definition OrderSide_value (s : OrderSide) : string :=
  match s with BUY => "BUY" | SELL => "SELL" end.

Record AccountInfo := {
  account_index : Z;
  collateral : Q;
  available_balance : Q;
  total_position_value : Q;
  total_unrealized_pnl : Q
}.

Record Position := {
  market_index : Z;
  symbol : string;
  side : string;
  size : Q;
  entry_price : Q;
  position_value : Q;
  unrealized_pnl : Q
}.

Record OrderResult := {
  success : bool;
  order_id : option string;
  tx_hash : option string;
  error : option string
}.

(** *** The venue's replies

    Numeric fields arrive as text; a field is [Some q] when it holds the
    numeral [q] and [None] when it is absent or empty. *)

Record ApiPosition := {
  api_position : option Q;
  api_sign : option Z;
  api_market_index : option Z;
  api_avg_entry_price : option Q;
  api_position_value : option Q;
  api_unrealized_pn_l : option Q
}.

Record ApiAccount := {
  api_collateral : option Q;
  api_positions : list ApiPosition
}.

(** [result.accounts], [None] when [result] or [result.accounts] is. *)
Definition AccountsReply := option (list ApiAccount).

(** The order book of a market: the [price] of each order of a side, best
    first, as the venue writes it (a string such as ["3024.66"]). *)
Record OrderBook := {
  bids : list string;
  asks : list string
}.

Record MarketOrderRequest := {
  req_market_index : Z;
  req_client_order_index : Z;
  req_base_amount : Z;
  req_avg_execution_price : Z;
  req_is_ask : bool;
  req_reduce_only : bool
}.

(** [response] of [create_market_order]: its [code], its [tx_hash] when it
    has the attribute, and its text under [str]. *)
Record TxResponse := {
  code : Z;
  resp_tx_hash : option string;
  resp_str : string
}.

(** [(created_order, response, error)] *)
Definition SignerReply : Type := (option unit * option TxResponse * option string).

Inductive RemoteCall :=
| AccountCall
| OrderBookCall (market_index : Z)
| CreateMarketOrderCall (req : MarketOrderRequest).

(** What the client does to the outside: a remote call or a sleep. *)
Inductive Effect :=
| Remote (c : RemoteCall)
| Sleep (seconds : Q).

(** The trader object together with the venue it talks to.  The venue
    answers the [n]-th remote call of the run through [account_api],
    [order_api] and [signer_api]; [calls] counts the calls made and
    [effects] records them in order. *)
Record LighterTrader := {
  max_retries : Z;
  retry_delay : Q;
  self_account_index : Z;
  _signer_client : bool;
  _order_counter : Z;
  account_api : nat -> outcome AccountsReply;
  order_api : Z -> nat -> outcome (option OrderBook);
  signer_api : MarketOrderRequest -> nat -> outcome SignerReply;
  calls : nat;
  effects : list Effect
}.

Definition PRICE_SCALE : Q := 100000000.

Definition MARKET_INDEX : list (string * Z) := [("BTC", 0%Z); ("ETH", 1%Z)].

(** [__init__] with its defaults [max_retries = 5], [retry_delay = 3.0];
    [_order_counter] starts at [int(time.time() * 1000)]. *)
Definition init (account_index : Z) (start_ms : Z)
    (account_api : nat -> outcome AccountsReply)
    (order_api : Z -> nat -> outcome (option OrderBook))
    (signer_api : MarketOrderRequest -> nat -> outcome SignerReply)
    : LighterTrader :=
  {| max_retries := 5;
     retry_delay := 3;
     self_account_index := account_index;
     _signer_client := false;
     _order_counter := start_ms;
     account_api := account_api;
     order_api := order_api;
     signer_api := signer_api;
     calls := 0;
     effects := [] |}.

Definition record_effect (e : Effect) (self : LighterTrader) : LighterTrader :=
  {| max_retries := max_retries self;
     retry_delay := retry_delay self;
     self_account_index := self_account_index self;
     _signer_client := _signer_client self;
     _order_counter := _order_counter self;
     account_api := account_api self;
     order_api := order_api self;
     signer_api := signer_api self;
     calls := match e with Remote _ => S (calls self) | Sleep _ => calls self end;
     effects := effects self ++ [e] |}.

Definition set_order_counter (n : Z) (self : LighterTrader) : LighterTrader :=
  {| max_retries := max_retries self;
     retry_delay := retry_delay self;
     self_account_index := self_account_index self;
     _signer_client := _signer_client self;
     _order_counter := n;
     account_api := account_api self;
     order_api := order_api self;
     signer_api := signer_api self;
     calls := calls self;
     effects := effects self |}.

Definition set_signer_client (b : bool) (self : LighterTrader) : LighterTrader :=
  {| max_retries := max_retries self;
     retry_delay := retry_delay self;
     self_account_index := self_account_index self;
     _signer_client := b;
     _order_counter := _order_counter self;
     account_api := account_api self;
     order_api := order_api self;
     signer_api := signer_api self;
     calls := calls self;
     effects := effects self |}.

(** *** Remote calls *)

(** A remote call [c] answered by [api]: the venue's answer to the call,
    which is recorded. *)
Definition remote {A} (c : RemoteCall) (api : LighterTrader -> nat -> outcome A)
    : M LighterTrader A :=
  fun self => (api self (calls self), record_effect (Remote c) self).

Definition account_api_account : M LighterTrader AccountsReply :=
  remote AccountCall account_api.

Definition order_api_order_book_orders (market_index : Z)
    : M LighterTrader (option OrderBook) :=
  remote (OrderBookCall market_index) (fun self => order_api self market_index).

Definition signer_create_market_order (req : MarketOrderRequest)
    : M LighterTrader SignerReply :=
  remote (CreateMarketOrderCall req) (fun self => signer_api self req).

Definition asyncio_sleep (seconds : Q) : M LighterTrader unit :=
  fun self => (Returns tt, record_effect (Sleep seconds) self).

(** [_get_signer_client]: the signer is created on first use; its
    construction is taken to succeed. *)
Definition _get_signer_client : M LighterTrader unit :=
  fun self =>
    if _signer_client self then (Returns tt, self)
    else (Returns tt, set_signer_client true self).

Definition _generate_client_order_index : M LighterTrader Z :=
  fun self =>
    let n := (_order_counter self + 1)%Z in
    (Returns n, set_order_counter n self).

(** *** _retry_operation *)

(** [raise last_error] with [last_error = None]. *)
Definition raise_None : PyException :=
  {| exc_class := "TypeError";
     exc_str := "exceptions must derive from BaseException" |}.

(** The [for attempt in range(1, self.max_retries + 1)] loop, over the
    attempts still to make. *)
Fixpoint retry_loop {A} (operation : M LighterTrader A) (attempts : list Z)
    (last_error : option PyException) : M LighterTrader A :=
  match attempts with
  | [] =>
      match last_error with
      | Some e => raise e
      | None => raise raise_None
      end
  | attempt :: rest =>
      fun self =>
        match operation self with
        | (Returns a, self') => (Returns a, self')
        | (Raises e, self') =>
            ((if (attempt <? max_retries self')%Z
              then asyncio_sleep (retry_delay self')
              else ret tt) ;;;
             retry_loop operation rest (Some e)) self'
        end
  end.

Definition _retry_operation {A} (operation : M LighterTrader A)
    (operation_name : string) : M LighterTrader A :=
  fun self =>
    retry_loop operation (py_range 1 (max_retries self + 1)) None self.

(** *** Queries *)

Definition or_zero (v : option Q) : Q :=
  match v with Some q => q | None => 0 end.

Definition or_zeroZ (v : option Z) : Z :=
  match v with Some z => z | None => 0%Z end.

Definition sum_fields (f : ApiPosition -> option Q) (ps : list ApiPosition) : Q :=
  fold_left (fun acc pos => match f pos with
                            | Some v => acc + v
                            | None => acc
                            end) ps 0.

Definition get_account_info : M LighterTrader (option AccountInfo) :=
  try_except
    (result <- _retry_operation account_api_account "獲取帳戶資訊" ;;
     fun self =>
       match result with
       | Some (account :: _) =>
           let collateral := or_zero (api_collateral account) in
           let total_position_value :=
             sum_fields api_position_value (api_positions account) in
           let unrealized_pnl :=
             sum_fields api_unrealized_pn_l (api_positions account) in
           let available_balance := collateral + unrealized_pnl in
           (Returns (Some {| account_index := self_account_index self;
                             collateral := collateral;
                             available_balance := available_balance;
                             total_position_value := total_position_value;
                             total_unrealized_pnl := unrealized_pnl |}), self)
       | _ => (Returns None, self)
       end)
    (fun e => ret None).

Definition get_balance : M LighterTrader Q :=
  account_info <- get_account_info ;;
  match account_info with
  | Some info => ret (available_balance info)
  | None => ret 0
  end.

Definition _get_symbol_by_market_index (market_index : Z) : string :=
  match find (fun item => (snd item =? market_index)%Z) MARKET_INDEX with
  | Some (symbol, _) => symbol
  | None => "UNKNOWN_" ++ str_of_int market_index
  end.

Definition position_of_api (pos : ApiPosition) : option Position :=
  let position_size := or_zero (api_position pos) in
  if Qeq_bool position_size 0 then None
  else
    let sign := or_zeroZ (api_sign pos) in
    let side := if (sign >? 0)%Z then "LONG" else "SHORT" in
    Some {| market_index := or_zeroZ (api_market_index pos);
            symbol := _get_symbol_by_market_index (or_zeroZ (api_market_index pos));
            side := side;
            size := Qabs position_size;
            entry_price := or_zero (api_avg_entry_price pos);
            position_value := or_zero (api_position_value pos);
            unrealized_pnl := or_zero (api_unrealized_pn_l pos) |}.

Fixpoint collect_positions (ps : list ApiPosition) : list Position :=
  match ps with
  | [] => []
  | pos :: rest =>
      match position_of_api pos with
      | Some p => p :: collect_positions rest
      | None => collect_positions rest
      end
  end.

Definition get_positions : M LighterTrader (list Position) :=
  try_except
    (result <- _retry_operation account_api_account "獲取持倉" ;;
     match result with
     | Some (account :: _) => ret (collect_positions (api_positions account))
     | _ => ret []
     end)
    (fun e => ret []).

(** [clean_symbol] of [_get_market_index]. *)
Definition clean_symbol (symbol : string) : string :=
  replace "-USD" "" (replace "/USDC" "" (replace "-PERP" "" (upper symbol))).

Definition lookup_market (name : string) : option Z :=
  match find (fun item => String.eqb (fst item) name) MARKET_INDEX with
  | Some (_, index) => Some index
  | None => None
  end.

Definition _get_market_index (symbol : string) : outcome Z :=
  match lookup_market (clean_symbol symbol) with
  | Some index => Returns index
  | None => Raises {| exc_class := "ValueError";
                      exc_str := "未知的交易對: " ++ symbol |}
  end.

Definition InvalidOperation : PyException :=
  {| exc_class := "decimal.InvalidOperation";
     exc_str := "[<class 'decimal.ConversionSyntax'>]" |}.

(** [Decimal(str(orders[0].price).replace(".", "")) if orders else None] *)
Definition best_of (orders : list string) : outcome (option Q) :=
  match orders with
  | [] => Returns None
  | price :: _ =>
      match Decimal_of_str (replace "." "" price) with
      | Some d => Returns (Some d)
      | None => Raises InvalidOperation
      end
  end.

(** Truth value of an optional decimal: neither [None] nor zero. *)
Definition truthy (d : option Q) : bool :=
  match d with
  | Some q => negb (Qeq_bool q 0)
  | None => false
  end.

Definition get_market_price (symbol : string) : M LighterTrader (option Q) :=
  try_except
    (market_index <- of_outcome (_get_market_index symbol) ;;
     orderbook <- _retry_operation (order_api_order_book_orders market_index)
                                   ("獲取 " ++ symbol ++ " 價格") ;;
     match orderbook with
     | Some book =>
         best_bid <- of_outcome (best_of (bids book)) ;;
         best_ask <- of_outcome (best_of (asks book)) ;;
         if truthy best_bid && truthy best_ask
         then ret (Some ((or_zero best_bid + or_zero best_ask) / 2))
         else if truthy best_bid then ret best_bid
         else if truthy best_ask then ret best_ask
         else ret None
     | None => ret None
     end)
    (fun e => ret None).

(** *** Orders *)

Definition failed (error : string) : OrderResult :=
  {| success := false; order_id := None; tx_hash := None; error := Some error |}.

(** Truth value of [error] in the signer's reply. *)
Definition error_set (error : option string) : bool :=
  match error with
  | Some msg => negb (String.eqb msg "")
  | None => false
  end.

Definition place_market_order (symbol : string) (side : OrderSide) (size : Q)
    (reduce_only : bool) (max_slippage : Q) : M LighterTrader OrderResult :=
  try_except
    (market_index <- of_outcome (_get_market_index symbol) ;;
     client_order_index <- _generate_client_order_index ;;
     let base_amount := int_of_decimal (size * PRICE_SCALE) in
     current_price <- get_market_price symbol ;;
     match current_price with
     | None => ret (failed "無法獲取當前價格")
     | Some current_price =>
         let is_ask := OrderSide_eqb side SELL in
         let execution_price :=
           if is_ask
           then int_of_decimal (current_price * (1 - max_slippage))
           else int_of_decimal (current_price * (1 + max_slippage)) in
         _get_signer_client ;;;
         '(created_order, response, error) <-
           _retry_operation
             (signer_create_market_order
                {| req_market_index := market_index;
                   req_client_order_index := client_order_index;
                   req_base_amount := base_amount;
                   req_avg_execution_price := execution_price;
                   req_is_ask := is_ask;
                   req_reduce_only := reduce_only |})
             "下單" ;;
         if error_set error
         then ret (failed (match error with Some msg => msg | None => "" end))
         else
           match response with
           | Some resp =>
               if (code resp =? 200)%Z
               then ret {| success := true;
                           order_id := Some (str_of_int client_order_index);
                           tx_hash := resp_tx_hash resp;
                           error := None |}
               else ret (failed ("下單響應異常: " ++ resp_str resp))
           | None => ret (failed ("下單響應異常: " ++ "None"))
           end
     end)
    (fun e => ret (failed (exc_str e))).

(** The default [max_slippage = 0.01]. *)
Definition default_max_slippage : Q := 0.01.

Definition close_position (symbol : string) : M LighterTrader OrderResult :=
  try_except
    (positions <- get_positions ;;
     match find (fun pos => String.eqb (upper (Lighter.symbol pos)) (upper symbol))
                positions with
     | None => ret {| success := true; order_id := None;
                      tx_hash := None; error := None |}
     | Some target_position =>
         let close_side :=
           if String.eqb (side target_position) "LONG" then SELL else BUY in
         place_market_order symbol close_side (size target_position)
                            true default_max_slippage
     end)
    (fun e => ret (failed (exc_str e))).

(** The loop of [close_all_positions]. *)
Fixpoint close_each (positions : list Position)
    (results : list (string * OrderResult))
    : M LighterTrader (list (string * OrderResult)) :=
  match positions with
  | [] => ret results
  | position :: rest =>
      result <- close_position (symbol position) ;;
      close_each rest (dict_set (symbol position) result results)
  end.

Definition close_all_positions : M LighterTrader (list (string * OrderResult)) :=
  positions <- get_positions ;;
  close_each positions [].

End Lighter.

(** ** database/db_manager.py *)

Module Db.

(** A row of [wallets]; [max_position_usd] is [None] for SQL [NULL]. *)
Record WalletRow := {
  address : string;
  enabled : bool;
  max_position_usd : option Q
}.

(** A row of [positions]. *)
Record PositionRow := {
  symbol : string;
  side : string;
  size : Q;
  entry_price : Q;
  source_wallet : string
}.

(** The manager together with the database behind its pool.  [faults] says
    which statements fail: the [n]-th statement of the run raises
    [faults n] when that is [Some e].  [statements] counts the statements
    run. *)
Record DatabaseManager := {
  wallets : list WalletRow;
  positions : list PositionRow;
  faults : nat -> option PyException;
  statements : nat
}.

Definition set_positions (ps : list PositionRow) (self : DatabaseManager)
    : DatabaseManager :=
  {| wallets := wallets self;
     positions := ps;
     faults := faults self;
     statements := statements self |}.

(** [async with self.pool.connection() as conn: await conn.execute(...)]:
    the statement either fails as the database says or runs. *)
Definition execute : M DatabaseManager unit :=
  fun self =>
    let self' := {| wallets := wallets self;
                    positions := positions self;
                    faults := faults self;
                    statements := S (statements self) |} in
    match faults self (statements self) with
    | Some e => (Raises e, self')
    | None => (Returns tt, self')
    end.

(** Every method logs and re-raises what its body raises. *)
Definition log_and_reraise {A} (body : M DatabaseManager A) : M DatabaseManager A :=
  try_except body (fun e => raise e).

Definition get_wallet (address : string) : M DatabaseManager (option WalletRow) :=
  log_and_reraise
    (execute ;;;
     fun self =>
       (Returns (find (fun w => String.eqb (Db.address w) (lower address))
                      (wallets self)), self)).

Definition same_key (symbol source_wallet : string) (row : PositionRow) : bool :=
  String.eqb (Db.symbol row) symbol && String.eqb (Db.source_wallet row) source_wallet.

(** [INSERT ... ON CONFLICT (symbol, source_wallet) DO UPDATE ...] *)
Fixpoint upsert (new : PositionRow) (rows : list PositionRow) : list PositionRow :=
  match rows with
  | [] => [new]
  | row :: rest =>
      if same_key (Db.symbol new) (Db.source_wallet new) row
      then new :: rest
      else row :: upsert new rest
  end.

Definition add_position (symbol side : string) (size entry_price : Q)
    (source_wallet : string) : M DatabaseManager PositionRow :=
  log_and_reraise
    (execute ;;;
     fun self =>
       let row := {| symbol := upper symbol;
                     side := upper side;
                     size := size;
                     entry_price := entry_price;
                     source_wallet := lower source_wallet |} in
       (Returns row, set_positions (upsert row (positions self)) self)).

Definition missing_arguments : PyException :=
  {| exc_class := "TypeError";
     exc_str := "DatabaseManager.add_position() missing 4 required positional arguments: 'side', 'size', 'entry_price', and 'source_wallet'" |}.

Definition wrong_arity : PyException :=
  {| exc_class := "TypeError";
     exc_str := "DatabaseManager.add_position() called with a wrong number of positional arguments" |}.

Definition not_a_string : PyException :=
  {| exc_class := "AttributeError";
     exc_str := "object has no attribute 'upper'" |}.

(** A call of [self.db_manager.add_position]: Python binds the
    positional arguments to [symbol, side, size, entry_price,
    source_wallet] before the body runs, and raises [TypeError] when their
    number is not five; a bound value of the wrong kind fails in the body
    at [symbol.upper()], [side.upper()] or [source_wallet.lower()]. *)
Definition call_add_position (args : list PyValue) : M DatabaseManager PositionRow :=
  match args with
  | [_] => raise missing_arguments
  | [Atom (PyStr symbol); Atom (PyStr side); Atom (PyFloat size);
     Atom (PyFloat entry_price); Atom (PyStr source_wallet)] =>
      add_position symbol side size entry_price source_wallet
  | [_; _; _; _; _] => log_and_reraise (raise not_a_string)
  | _ => raise wrong_arity
  end.

Definition remove_position (symbol source_wallet : string) : M DatabaseManager bool :=
  log_and_reraise
    (execute ;;;
     fun self =>
       let keep row := negb (same_key (upper symbol) (lower source_wallet) row) in
       let deleted := existsb (same_key (upper symbol) (lower source_wallet))
                              (positions self) in
       (Returns deleted, set_positions (filter keep (positions self)) self)).

Definition get_position (symbol : string) : M DatabaseManager (option PositionRow) :=
  log_and_reraise
    (execute ;;;
     fun self =>
       (Returns (find (fun row => String.eqb (Db.symbol row) (upper symbol))
                      (positions self)), self)).

(** *** Wallets *)

Definition already_exists : PyException :=
  {| exc_class := "ValueError"; exc_str := "錢包地址已存在" |}.

Definition unique_violation : PyException :=
  {| exc_class := "UniqueViolation";
     exc_str := "duplicate key value violates unique constraint" |}.

(** [add_wallet]: an insert of an address the table holds raises
    [UniqueViolation], which the method turns into [ValueError]; any other
    exception is raised again as it is.  The default of the [enabled]
    column is set by the schema, which is not among the sources: it is the
    parameter [enabled_default].  The columns [stop_loss_ratio] and
    [nickname] are not part of [WalletRow]. *)
Definition add_wallet (enabled_default : bool) (address : string)
    (max_position_usd : Q) : M DatabaseManager WalletRow :=
  try_except
    (execute ;;;
     fun self =>
       if existsb (fun w => String.eqb (Db.address w) (lower address))
                  (wallets self)
       then (Raises unique_violation, self)
       else
         let row := {| address := lower address;
                       enabled := enabled_default;
                       max_position_usd := Some max_position_usd |} in
         (Returns row,
          {| wallets := wallets self ++ [row];
             positions := positions self;
             faults := faults self;
             statements := statements self |}))
    (fun e =>
       if String.eqb (exc_class e) "UniqueViolation"
       then raise already_exists
       else raise e).

Definition remove_wallet (address : string) : M DatabaseManager bool :=
  log_and_reraise
    (execute ;;;
     fun self =>
       let matches w := String.eqb (Db.address w) (lower address) in
       (Returns (existsb matches (wallets self)),
        {| wallets := filter (fun w => negb (matches w)) (wallets self);
           positions := positions self;
           faults := faults self;
           statements := statements self |})).

Definition update_wallet_status (address : string) (enabled : bool)
    : M DatabaseManager bool :=
  log_and_reraise
    (execute ;;;
     fun self =>
       let matches w := String.eqb (Db.address w) (lower address) in
       let update w :=
         if matches w
         then {| address := Db.address w;
                 enabled := enabled;
                 max_position_usd := Db.max_position_usd w |}
         else w in
       (Returns (existsb matches (wallets self)),
        {| wallets := map update (wallets self);
           positions := positions self;
           faults := faults self;
           statements := statements self |})).

(** [DatabaseManager.check_position_lock]: [True] when the symbol can be
    followed by [source_wallet]. *)
Definition check_position_lock (symbol source_wallet : string)
    : M DatabaseManager bool :=
  log_and_reraise
    (position <- get_position symbol ;;
     match position with
     | None => ret true
     | Some position =>
         ret (String.eqb (Db.source_wallet position) (lower source_wallet))
     end).

End Db.

(** ** core/strategy_engine.py *)

Module Strategy.
Import Events.

Inductive FollowDecision := FOLLOW | SKIP | REJECT | ERROR.

Record FollowResult := {
  decision : FollowDecision;
  reason : string;
  follow_size : option Q;
  follow_side : option Lighter.OrderSide;
  order_result : option Lighter.OrderResult
}.

(** The engine receives its trader as a constructor argument and uses these
    five methods of it; [T] is the state of the trader object.
    [place_market_order] takes [symbol], [side], [size], [reduce_only] and
    [max_slippage]. *)
Record Trader (T : Type) := {
  get_balance : M T Q;
  get_positions : M T (list Lighter.Position);
  get_market_price : string -> M T (option Q);
  place_market_order :
    string -> Lighter.OrderSide -> Q -> bool -> Q -> M T Lighter.OrderResult;
  close_position : string -> M T Lighter.OrderResult
}.
Arguments get_balance {T} _.
Arguments get_positions {T} _.
Arguments get_market_price {T} _ _.
Arguments place_market_order {T} _ _ _ _ _ _.
Arguments close_position {T} _ _.

(** The trader [main.py] passes. *)
Definition LighterTrader : Trader Lighter.LighterTrader :=
  {| get_balance := Lighter.get_balance;
     get_positions := Lighter.get_positions;
     get_market_price := Lighter.get_market_price;
     place_market_order := Lighter.place_market_order;
     close_position := Lighter.close_position |}.

(** The engine object.  [clock] gives what the [n]-th call of [time.time()]
    returns and [time_reads] counts the calls made. *)
Record StrategyEngine (T : Type) := {
  db_manager : Db.DatabaseManager;
  lighter_trader : T;
  default_max_position_usd : Q;
  default_stop_loss_ratio : Q;
  _my_balance : Q;
  _balance_updated_at : Q;
  _balance_cache_seconds : Q;
  clock : nat -> Q;
  time_reads : nat
}.
Arguments db_manager {T} _.
Arguments lighter_trader {T} _.
Arguments default_max_position_usd {T} _.
Arguments default_stop_loss_ratio {T} _.
Arguments _my_balance {T} _.
Arguments _balance_updated_at {T} _.
Arguments _balance_cache_seconds {T} _.
Arguments clock {T} _ _.
Arguments time_reads {T} _.

(** [__init__] with its defaults. *)
Definition init {T} (db_manager : Db.DatabaseManager) (lighter_trader : T)
    (clock : nat -> Q) : StrategyEngine T :=
  {| db_manager := db_manager;
     lighter_trader := lighter_trader;
     default_max_position_usd := 1000;
     default_stop_loss_ratio := 0.5;
     _my_balance := 0;
     _balance_updated_at := 0;
     _balance_cache_seconds := 60;
     clock := clock;
     time_reads := 0 |}.

Section Engine.

Context {T : Type} (trader : Trader T).

Definition set_db_manager (d : Db.DatabaseManager) (self : StrategyEngine T) : StrategyEngine T :=
  {| db_manager := d;
     lighter_trader := lighter_trader self;
     default_max_position_usd := default_max_position_usd self;
     default_stop_loss_ratio := default_stop_loss_ratio self;
     _my_balance := _my_balance self;
     _balance_updated_at := _balance_updated_at self;
     _balance_cache_seconds := _balance_cache_seconds self;
     clock := clock self;
     time_reads := time_reads self |}.

Definition set_lighter_trader (t : T) (self : StrategyEngine T) : StrategyEngine T :=
  {| db_manager := db_manager self;
     lighter_trader := t;
     default_max_position_usd := default_max_position_usd self;
     default_stop_loss_ratio := default_stop_loss_ratio self;
     _my_balance := _my_balance self;
     _balance_updated_at := _balance_updated_at self;
     _balance_cache_seconds := _balance_cache_seconds self;
     clock := clock self;
     time_reads := time_reads self |}.

Definition set_balance (balance updated_at : Q) (self : StrategyEngine T) : StrategyEngine T :=
  {| db_manager := db_manager self;
     lighter_trader := lighter_trader self;
     default_max_position_usd := default_max_position_usd self;
     default_stop_loss_ratio := default_stop_loss_ratio self;
     _my_balance := balance;
     _balance_updated_at := updated_at;
     _balance_cache_seconds := _balance_cache_seconds self;
     clock := clock self;
     time_reads := time_reads self |}.

(** A call on [self.db_manager]. *)
Definition on_db {A} (m : M Db.DatabaseManager A) : M (StrategyEngine T) A :=
  fun self =>
    let (r, d) := m (db_manager self) in (r, set_db_manager d self).

(** A call on [self.lighter_trader]. *)
Definition on_trader {A} (m : M T A) : M (StrategyEngine T) A :=
  fun self =>
    let (r, t) := m (lighter_trader self) in (r, set_lighter_trader t self).

Definition time_time : M (StrategyEngine T) Q :=
  fun self =>
    (Returns (clock self (time_reads self)),
     {| db_manager := db_manager self;
        lighter_trader := lighter_trader self;
        default_max_position_usd := default_max_position_usd self;
        default_stop_loss_ratio := default_stop_loss_ratio self;
        _my_balance := _my_balance self;
        _balance_updated_at := _balance_updated_at self;
        _balance_cache_seconds := _balance_cache_seconds self;
        clock := clock self;
        time_reads := S (time_reads self) |}).

Definition read {A} (f : StrategyEngine T -> A) : M (StrategyEngine T) A :=
  fun self => (Returns (f self), self).

Definition _get_my_balance : M (StrategyEngine T) Q :=
  current_time <- time_time ;;
  updated_at <- read _balance_updated_at ;;
  cache_seconds <- read _balance_cache_seconds ;;
  (if Qgtb (current_time - updated_at) cache_seconds
   then try_except
          (balance <- on_trader (get_balance trader) ;;
           fun self => (Returns tt, set_balance balance current_time self))
          (fun e => ret tt)
   else ret tt) ;;;
  read _my_balance.

Definition check_position_lock (symbol wallet_address : string)
    : M (StrategyEngine T) (bool * string) :=
  existing_position <- on_db (Db.get_position symbol) ;;
  match existing_position with
  | None => ret (false, "")
  | Some position =>
      let source_wallet := lower (Db.source_wallet position) in
      if String.eqb source_wallet (lower wallet_address)
      then ret (false, "")
      else ret (true, symbol ++ " 已被其他錢包鎖定: "
                        ++ take 10 source_wallet ++ "...")
  end.

Definition should_follow (event : PositionEvent) : M (StrategyEngine T) (bool * string) :=
  wallet <- on_db (Db.get_wallet (wallet_address event)) ;;
  match wallet with
  | None =>
      ret (false, "錢包未在追蹤列表中: " ++ take 10 (wallet_address event) ++ "...")
  | Some wallet =>
      if negb (Db.enabled wallet)
      then ret (false, "錢包已禁用: " ++ take 10 (wallet_address event) ++ "...")
      else
        '(is_locked, lock_reason) <-
          check_position_lock (symbol event) (wallet_address event) ;;
        if is_locked then ret (false, lock_reason)
        else
          my_balance <- _get_my_balance ;;
          if Qleb my_balance 0 then ret (false, "餘額不足")
          else
            match event_type event with
            | UNKNOWN => ret (false, "未知事件類型")
            | _ => ret (true, "OK")
            end
  end.

Definition NoneType_has_no_get : PyException :=
  {| exc_class := "AttributeError";
     exc_str := "'NoneType' object has no attribute 'get'" |}.

(** [wallet.get("max_position_usd") or self.default_max_position_usd] *)
Definition max_position_or_default (wallet : Db.WalletRow) (default : Q) : Q :=
  match Db.max_position_usd wallet with
  | Some m => if Qeq_bool m 0 then default else m
  | None => default
  end.

Definition position_ratio : Q := 0.1.

Definition calculate_follow_size (event : PositionEvent) : M (StrategyEngine T) Q :=
  my_balance <- _get_my_balance ;;
  if Qleb my_balance 0 then ret 0
  else
    wallet <- on_db (Db.get_wallet (wallet_address event)) ;;
    match wallet with
    | None => raise NoneType_has_no_get
    | Some wallet =>
        default <- read default_max_position_usd ;;
        let max_position_usd := max_position_or_default wallet default in
        let follow_usd := decimal_mul my_balance position_ratio in
        if Qgtb follow_usd max_position_usd then ret max_position_usd
        else ret follow_usd
    end.

Definition same_symbol (symbol : string) (pos : Lighter.Position) : bool :=
  String.eqb (upper (Lighter.symbol pos)) (upper symbol).

Definition _calculate_close_params (event : PositionEvent)
    : M (StrategyEngine T) (Q * Lighter.OrderSide) :=
  my_positions <- on_trader (get_positions trader) ;;
  match find (same_symbol (symbol event)) my_positions with
  | Some pos =>
      if String.eqb (Lighter.side pos) "LONG"
      then ret (Lighter.size pos, Lighter.SELL)
      else ret (Lighter.size pos, Lighter.BUY)
  | None => ret (0, Lighter.BUY)
  end.

Definition _calculate_open_params (event : PositionEvent)
    : M (StrategyEngine T) (Q * Lighter.OrderSide) :=
  follow_usd <- calculate_follow_size event ;;
  if Qleb follow_usd 0 then ret (0, Lighter.BUY)
  else
    price <- on_trader (get_market_price trader (symbol event)) ;;
    match price with
    | None => ret (0, Lighter.BUY)
    | Some price =>
        if Qleb price 0 then ret (0, Lighter.BUY)
        else
          let follow_size := decimal_div follow_usd price in
          let follow_side :=
            match side event with
            | LONG => Lighter.BUY
            | SHORT => Lighter.SELL
            end in
          ret (follow_size, follow_side)
    end.

Definition _calculate_increase_params (event : PositionEvent)
    : M (StrategyEngine T) (Q * Lighter.OrderSide) :=
  _calculate_open_params event.

Definition _calculate_decrease_params (event : PositionEvent)
    : M (StrategyEngine T) (Q * Lighter.OrderSide) :=
  my_positions <- on_trader (get_positions trader) ;;
  match find (same_symbol (symbol event)) my_positions with
  | Some pos =>
      let reduce_size := decimal_mul (Lighter.size pos) 0.5 in
      if String.eqb (Lighter.side pos) "LONG"
      then ret (reduce_size, Lighter.SELL)
      else ret (reduce_size, Lighter.BUY)
  | None => ret (0, Lighter.BUY)
  end.

Definition _calculate_flip_params (event : PositionEvent)
    : M (StrategyEngine T) (Q * Lighter.OrderSide) :=
  _calculate_close_params event.

Definition calculate_follow_params (event : PositionEvent)
    : M (StrategyEngine T) (Q * Lighter.OrderSide) :=
  match event_type event with
  | CLOSE => _calculate_close_params event
  | OPEN => _calculate_open_params event
  | INCREASE => _calculate_increase_params event
  | DECREASE => _calculate_decrease_params event
  | FLIP => _calculate_flip_params event
  | UNKNOWN => ret (0, Lighter.BUY)
  end.

Definition _update_position_in_db (event : PositionEvent) (size : Q)
    (side : Lighter.OrderSide) (is_close : bool) : M (StrategyEngine T) unit :=
  try_except
    (if is_close
     then on_db (Db.remove_position (symbol event) (wallet_address event)) ;;;
          ret tt
     else
       let position_data :=
         Dict [("symbol", PyStr (symbol event));
               ("side", PyStr (if Lighter.OrderSide_eqb side Lighter.BUY
                               then "LONG" else "SHORT"));
               ("size", PyFloat size);
               ("entry_price", PyFloat (price event));
               ("source_wallet", PyStr (wallet_address event))] in
       on_db (Db.call_add_position [position_data]) ;;;
       ret tt)
    (fun e => ret tt).

(** [f"{order_result.error}"] *)
Definition format_error (error : option string) : string :=
  match error with
  | Some msg => msg
  | None => "None"
  end.

Definition is_close_event (event : PositionEvent) : bool :=
  match event_type event with
  | CLOSE | FLIP => true
  | _ => false
  end.

Definition execute_follow (event : PositionEvent) (follow_size : Q)
    (follow_side : Lighter.OrderSide) : M (StrategyEngine T) FollowResult :=
  try_except
    (let is_close := is_close_event event in
     order_result <-
       (if is_close
        then on_trader (close_position trader (symbol event))
        else on_trader (place_market_order trader (symbol event) follow_side
                          follow_size false Lighter.default_max_slippage)) ;;
     if Lighter.success order_result
     then
       _update_position_in_db event follow_size follow_side is_close ;;;
       ret {| decision := FOLLOW;
              reason := "跟單成功";
              follow_size := Some follow_size;
              follow_side := Some follow_side;
              order_result := Some order_result |}
     else
       ret {| decision := ERROR;
              reason := "下單失敗: " ++ format_error (Lighter.error order_result);
              follow_size := None;
              follow_side := None;
              order_result := Some order_result |})
    (fun e =>
       ret {| decision := ERROR;
              reason := exc_str e;
              follow_size := None;
              follow_side := None;
              order_result := None |}).

Definition on_wallet_event (event : PositionEvent) : M (StrategyEngine T) FollowResult :=
  try_except
    ('(should, reason) <- should_follow event ;;
     if negb should
     then ret {| decision := SKIP;
                 reason := reason;
                 follow_size := None;
                 follow_side := None;
                 order_result := None |}
     else
       '(follow_size, follow_side) <- calculate_follow_params event ;;
       if Qleb follow_size 0
       then ret {| decision := SKIP;
                   reason := "計算後跟單數量為 0";
                   follow_size := None;
                   follow_side := None;
                   order_result := None |}
       else execute_follow event follow_size follow_side)
    (fun e =>
       ret {| decision := ERROR;
              reason := exc_str e;
              follow_size := None;
              follow_side := None;
              order_result := None |}).

Definition check_stop_loss (symbol : string) : M (StrategyEngine T) bool :=
  try_except
    (my_positions <- on_trader (get_positions trader) ;;
     stop_loss_ratio <- read default_stop_loss_ratio ;;
     ret (existsb
            (fun pos =>
               same_symbol symbol pos
               && Qgtb (Lighter.position_value pos) 0
               && Qleb (Lighter.unrealized_pnl pos / Lighter.position_value pos)
                       (- stop_loss_ratio))
            my_positions))
    (fun e => ret false).

Definition force_stop_loss (symbol : string)
    : M (StrategyEngine T) Lighter.OrderResult :=
  on_trader (close_position trader symbol).

End Engine.

End Strategy.

(** ** Observations and scenarios used by the statements *)

(** The state after a run of effects. *)
Definition after_effects (es : list Lighter.Effect) (self : Lighter.LighterTrader)
    : Lighter.LighterTrader :=
  fold_left (fun s e => Lighter.record_effect e s) es self.

(** [n] attempts of the call [c] with a sleep of [d] seconds between two
    attempts. *)
Fixpoint attempts_trace (c : Lighter.RemoteCall) (d : Q) (n : nat)
    : list Lighter.Effect :=
  match n with
  | O => []
  | S O => [Lighter.Remote c]
  | S k => Lighter.Remote c :: Lighter.Sleep d :: attempts_trace c d k
  end.

Definition is_remote (e : Lighter.Effect) : bool :=
  match e with Lighter.Remote _ => true | Lighter.Sleep _ => false end.

Definition is_sleep (e : Lighter.Effect) : bool :=
  match e with Lighter.Remote _ => false | Lighter.Sleep _ => true end.

(** [keeps f m]: running [m] does not change the observation [f] of the
    state, whatever the outcome. *)
Definition keeps {S A X} (f : S -> X) (m : M S A) : Prop :=
  forall s, f (snd (m s)) = f s.

(** The orders sent to the venue. *)
Definition is_order (e : Lighter.Effect) : bool :=
  match e with
  | Lighter.Remote (Lighter.CreateMarketOrderCall _) => true
  | _ => false
  end.

(** The orders a trader has submitted so far. *)
Definition orders (self : Lighter.LighterTrader) : list Lighter.Effect :=
  filter is_order (Lighter.effects self).

(** The orders submitted by the engine's trader. *)
Definition trader_orders (self : Strategy.StrategyEngine Lighter.LighterTrader)
    : list Lighter.Effect :=
  orders (Strategy.lighter_trader self).

(** A venue whose account query always fails. *)
Definition venue_down : PyException :=
  {| exc_class := "ApiException"; exc_str := "503 Service Unavailable" |}.

Definition unreachable_trader : Lighter.LighterTrader :=
  Lighter.init 7 1700000000000
    (fun _ => Raises venue_down)
    (fun _ _ => Raises venue_down)
    (fun _ _ => Raises venue_down).

(** *** A funded account on a venue that answers, and two tracked wallets *)

Definition wallet_a : string := "0xaaaaaaaaaaaaaaaaaaaaaaaaaaaaaaaaaaaaaaaa".

Definition wallet_b : string := "0xbbbbbbbbbbbbbbbbbbbbbbbbbbbbbbbbbbbbbbbb".

Definition funded_account : Lighter.ApiAccount :=
  {| Lighter.api_collateral := Some 10000; Lighter.api_positions := [] |}.

Definition btc_book : Lighter.OrderBook :=
  {| Lighter.bids := ["50000"]; Lighter.asks := ["50000"] |}.

Definition accepted : Lighter.SignerReply :=
  (Some tt,
   Some {| Lighter.code := 200;
           Lighter.resp_tx_hash := Some "0xfeed";
           Lighter.resp_str := "code=200" |},
   None).

Definition healthy_trader : Lighter.LighterTrader :=
  Lighter.init 7 1700000000000
    (fun _ => Returns (Some [funded_account]))
    (fun _ _ => Returns (Some btc_book))
    (fun _ _ => Returns accepted).

(** Wallet A carries a cap of 500 USD, wallet B none; no mirrored position
    is stored and no statement fails. *)
Definition two_wallets : Db.DatabaseManager :=
  {| Db.wallets := [ {| Db.address := wallet_a; Db.enabled := true;
                        Db.max_position_usd := Some 500 |};
                     {| Db.address := wallet_b; Db.enabled := true;
                        Db.max_position_usd := None |} ];
     Db.positions := [];
     Db.faults := fun _ => None;
     Db.statements := 0 |}.

Definition engine0 : Strategy.StrategyEngine Lighter.LighterTrader :=
  Strategy.init two_wallets healthy_trader (fun _ => 1700000000).

Definition open_btc (wallet : string) : Events.PositionEvent :=
  {| Events.event_type := Events.OPEN;
     Events.symbol := "BTC";
     Events.side := Events.LONG;
     Events.size := 5;
     Events.price := 50000;
     Events.wallet_address := wallet;
     Events.raw_data := None |}.

(** An engine that learnt a balance of 1000 a hundred seconds ago, on a
    venue that no longer answers. *)
Definition stale_engine : Strategy.StrategyEngine Lighter.LighterTrader :=
  Strategy.set_balance 1000 1700000000
    (Strategy.init two_wallets unreachable_trader (fun _ => 1700000100)).

(** A store whose statements fail with an exception that carries no text,
    as [asyncio.TimeoutError()] does. *)
Definition silent_timeout : PyException :=
  {| exc_class := "TimeoutError"; exc_str := "" |}.

Definition failing_store : Db.DatabaseManager :=
  {| Db.wallets := Db.wallets two_wallets;
     Db.positions := [];
     Db.faults := fun _ => Some silent_timeout;
     Db.statements := 0 |}.

(** The order operation [execute_follow] invokes for an event. *)
Definition attempted_order {T} (trader : Strategy.Trader T)
    (event : Events.PositionEvent) (follow_size : Q)
    (follow_side : Lighter.OrderSide) : M T Lighter.OrderResult :=
  if Strategy.is_close_event event
  then Strategy.close_position trader (Events.symbol event)
  else Strategy.place_market_order trader (Events.symbol event) follow_side
         follow_size false Lighter.default_max_slippage.

(** An execution that failed: a result with [success = False], or an
    exception. *)
Definition order_failed (o : outcome Lighter.OrderResult) : Prop :=
  match o with
  | Returns r => Lighter.success r = false
  | Raises _ => True
  end.

(** The error a failed execution carries into the result's reason. *)
Definition execution_error (o : outcome Lighter.OrderResult) : string :=
  match o with
  | Returns r => "下單失敗: " ++ Strategy.format_error (Lighter.error r)
  | Raises e => exc_str e
  end.

Definition returned_result (o : outcome Lighter.OrderResult)
    : option Lighter.OrderResult :=
  match o with
  | Returns r => Some r
  | Raises _ => None
  end.

Definition open_doge : Events.PositionEvent :=
  {| Events.event_type := Events.OPEN;
     Events.symbol := "DOGE";
     Events.side := Events.LONG;
     Events.size := 1000;
     Events.price := 0.1;
     Events.wallet_address := wallet_a;
     Events.raw_data := None |}.

(** A venue on which two BTC are held long. *)
Definition holding_account : Lighter.ApiAccount :=
  {| Lighter.api_collateral := Some 10000;
     Lighter.api_positions :=
       [ {| Lighter.api_position := Some 2;
            Lighter.api_sign := Some 1%Z;
            Lighter.api_market_index := Some 0%Z;
            Lighter.api_avg_entry_price := Some 50000;
            Lighter.api_position_value := Some 100000;
            Lighter.api_unrealized_pn_l := Some 0 |} ] |}.

Definition holding_trader : Lighter.LighterTrader :=
  Lighter.init 7 1700000000000
    (fun _ => Returns (Some [holding_account]))
    (fun _ _ => Returns (Some btc_book))
    (fun _ _ => Returns accepted).

Definition held_btc : Lighter.Position :=
  {| Lighter.market_index := 0;
     Lighter.symbol := "BTC";
     Lighter.side := "LONG";
     Lighter.size := 2;
     Lighter.entry_price := 50000;
     Lighter.position_value := 100000;
     Lighter.unrealized_pnl := 0 |}.

Definition holding_engine : Strategy.StrategyEngine Lighter.LighterTrader :=
  Strategy.init two_wallets holding_trader (fun _ => 1700000000).

Definition decrease_btc : Events.PositionEvent :=
  {| Events.event_type := Events.DECREASE;
     Events.symbol := "BTC";
     Events.side := Events.LONG;
     Events.size := 3;
     Events.price := 50000;
     Events.wallet_address := wallet_a;
     Events.raw_data := None |}.

(** *** Outcomes of a computation under an invariant *)

(** [triple I m Q E]: from a state in [I], [m] ends in a state in [I], with
    a value in [Q] when it returns and an exception in [E] when it raises. *)
Definition triple {S A} (I : S -> Prop) (m : M S A) (Q : A -> Prop)
    (E : PyException -> Prop) : Prop :=
  forall s, I s ->
    I (snd (m s))
    /\ match fst (m s) with
       | Returns a => Q a
       | Raises e => E e
       end.

(** An exception that carries a text. *)
Definition has_text (e : PyException) : Prop := exc_str e <> "".

(** Every failure the store can produce carries a text. *)
Definition store_raises_with_text (db : Db.DatabaseManager) : Prop :=
  forall n e, Db.faults db n = Some e -> has_text e.

Definition raises_with_text {T A} (m : M T A) : Prop :=
  forall t e t', m t = (Raises e, t') -> has_text e.

(** Every exception the trader's methods raise carries a text. *)
Definition trader_raises_with_text {T} (trader : Strategy.Trader T) : Prop :=
  raises_with_text (Strategy.get_positions trader)
  /\ (forall symbol, raises_with_text (Strategy.get_market_price trader symbol))
  /\ (forall symbol side size reduce_only max_slippage,
        raises_with_text
          (Strategy.place_market_order trader symbol side size reduce_only
             max_slippage))
  /\ (forall symbol, raises_with_text (Strategy.close_position trader symbol)).

(** An engine whose store fails without a text. *)
Definition engine_on_failing_store : Strategy.StrategyEngine Lighter.LighterTrader :=
  Strategy.init failing_store healthy_trader (fun _ => 1700000000).

(** What the entry point promises of its result; [H] stands for the
    assumptions under which the reason is known to be non-empty. *)
Definition sound_result (H : Prop) (r : Strategy.FollowResult) : Prop :=
  Strategy.decision r <> Strategy.REJECT
  /\ (Strategy.decision r = Strategy.SKIP -> Strategy.reason r <> "")
  /\ (Strategy.decision r = Strategy.FOLLOW ->
      exists o, Strategy.order_result r = Some o /\ Lighter.success o = true)
  /\ (H -> Strategy.reason r <> "").

(** The mirrored positions the engine's store holds. *)
Definition stored_positions {T} (self : Strategy.StrategyEngine T)
    : list Db.PositionRow :=
  Db.positions (Strategy.db_manager self).

(** *** Observations on the tracker *)

(** The snapshot [get_wallet_state] builds from a reply of the venue. *)
Definition snapshot_of (address : string) (user_state : HyperliquidTracker.UserState)
    : Events.WalletState :=
  let field f :=
    match HyperliquidTracker.marginSummary user_state with
    | Some summary => match f summary with Some v => v | None => 0 end
    | None => 0
    end in
  {| Events.address := lower address;
     Events.account_value := field HyperliquidTracker.accountValue;
     Events.available_balance :=
       field HyperliquidTracker.accountValue
       - field HyperliquidTracker.totalMarginUsed;
     Events.positions :=
       match HyperliquidTracker.assetPositions user_state with
       | Some ps => ps
       | None => []
       end |}.

(** The baseline the tracker holds for an address. *)
Definition baseline (address : string) (self : HyperliquidTracker.Tracker)
    : option Events.WalletState :=
  dict_get address (HyperliquidTracker._last_states self).

(** The callback, when there is one, returns on the event. *)
Definition callback_returns (self : HyperliquidTracker.Tracker)
    (event : Events.PositionEvent) : Prop :=
  forall callback,
    HyperliquidTracker.on_event self = Some callback ->
    callback event = Returns tt.

(** An entry of [assetPositions] that carries a position. *)
Definition entry (p : Events.PositionData) : Events.AssetPosition :=
  {| Events.position := Some p; Events.positionValue := None |}.

(** The coin of an entry, [""] when it has no position. *)
Definition entry_coin (pos : Events.AssetPosition) : string :=
  match Events.position pos with
  | Some p => Events.coin p
  | None => ""
  end.

(** The positions the entries of a snapshot carry, in order. *)
Definition carried (positions : list Events.AssetPosition)
    : list Events.PositionData :=
  flat_map (fun pos => match Events.position pos with
                       | Some p => [p]
                       | None => []
                       end) positions.

(** The last position carried for a coin; none for the empty coin. *)
Definition last_position (c : string) (positions : list Events.AssetPosition)
    : option Events.PositionData :=
  if String.eqb c "" then None
  else find (fun p => String.eqb (Events.coin p) c) (rev (carried positions)).

(** The callback raises on the event. *)
Definition callback_raises (self : HyperliquidTracker.Tracker)
    (event : Events.PositionEvent) : Prop :=
  exists callback e,
    HyperliquidTracker.on_event self = Some callback
    /\ callback event = Raises e.

(** What a step of the tracker leaves alone: the wallets, the venue and
    the callback. *)
Definition same_setting (s s' : HyperliquidTracker.Tracker) : Prop :=
  HyperliquidTracker.wallet_addresses s' = HyperliquidTracker.wallet_addresses s
  /\ HyperliquidTracker.info_user_state s' = HyperliquidTracker.info_user_state s
  /\ HyperliquidTracker.on_event s' = HyperliquidTracker.on_event s.

(** The events the callback was called with, given those it had been. *)
Definition delivered_after (self : HyperliquidTracker.Tracker)
    (events : list Events.PositionEvent) : list Events.PositionEvent :=
  match HyperliquidTracker.on_event self with
  | Some _ => (HyperliquidTracker.delivered self ++ events)%list
  | None => HyperliquidTracker.delivered self
  end.

(** The callback, when there is one, returns on every event. *)
Definition callbacks_return (self : HyperliquidTracker.Tracker) : Prop :=
  forall event, callback_returns self event.

(** The changes a polling round finds, wallet by wallet: those of the
    [k]-th wallet are read off its baseline and the venue's reply to the
    [k]-th query of the round; a wallet without a baseline, or whose query
    raises, has none. *)
Fixpoint round_events (self : HyperliquidTracker.Tracker) (k : nat)
    (addresses : list string) : list Events.PositionEvent :=
  match addresses with
  | [] => []
  | address :: rest =>
      (match HyperliquidTracker.info_user_state self address
               (HyperliquidTracker.queries self + k),
             baseline address self with
       | Returns user_state, Some old_state =>
           HyperliquidTracker._detect_changes old_state
             (snapshot_of address user_state)
       | _, _ => []
       end ++ round_events self (S k) rest)%list
  end.

(** A position in ETH of a given signed size. *)
Definition eth_position (q : Q) : Events.PositionData :=
  {| Events.coin := "ETH"; Events.szi := Some q; Events.entryPx := Some 2000 |}.

(** A reply of the venue: an account that holds ETH. *)
Definition eth_reply (q : Q) : HyperliquidTracker.UserState :=
  {| HyperliquidTracker.marginSummary :=
       Some {| HyperliquidTracker.accountValue := Some 10000;
               HyperliquidTracker.totalMarginUsed := Some 6000 |};
     HyperliquidTracker.assetPositions := Some [entry (eth_position q)] |}.

(** A reply of the venue: an account that holds nothing. *)
Definition flat_reply : HyperliquidTracker.UserState :=
  {| HyperliquidTracker.marginSummary :=
       Some {| HyperliquidTracker.accountValue := Some 10000;
               HyperliquidTracker.totalMarginUsed := Some 0 |};
     HyperliquidTracker.assetPositions := Some [] |}.

(** A venue that answers for [wallet_a] and times out for every other
    address. *)
Definition venue_a_only (address : string) (n : nat)
    : outcome HyperliquidTracker.UserState :=
  if String.eqb address wallet_a then Returns (eth_reply 3)
  else Raises {| exc_class := "ConnectionError"; exc_str := "timed out" |}.

Definition accepting : option (Events.PositionEvent -> outcome unit) :=
  Some (fun _ => Returns tt).

Definition rejecting : option (Events.PositionEvent -> outcome unit) :=
  Some (fun _ => Raises {| exc_class := "RuntimeError";
                           exc_str := "no running event loop" |}).

(** A tracker of two wallets that has seen [wallet_a] hold 1 ETH and
    [wallet_b] hold nothing. *)
Definition watching (on_event : option (Events.PositionEvent -> outcome unit))
    : HyperliquidTracker.Tracker :=
  {| HyperliquidTracker.wallet_addresses := [wallet_a; wallet_b];
     HyperliquidTracker._running := true;
     HyperliquidTracker._last_states :=
       [(wallet_a, snapshot_of wallet_a (eth_reply 1));
        (wallet_b, snapshot_of wallet_b flat_reply)];
     HyperliquidTracker.info_user_state := venue_a_only;
     HyperliquidTracker.queries := 0;
     HyperliquidTracker.on_event := on_event;
     HyperliquidTracker.delivered := [] |}.

(** The event of [wallet_a] going from 1 ETH to 3 ETH. *)
Definition increase_eth : Events.PositionEvent :=
  {| Events.event_type := Events.INCREASE;
     Events.symbol := "ETH";
     Events.side := Events.LONG;
     Events.size := 3;
     Events.price := 2000;
     Events.wallet_address := wallet_a;
     Events.raw_data := Some (eth_position 3) |}.

(** The key of a row of [positions]. *)
Definition position_key (row : Db.PositionRow) : string * string :=
  (Db.symbol row, Db.source_wallet row).

(** A row as [add_position] writes it: the symbol in upper case, the source
    wallet in lower case. *)
Definition normalised (row : Db.PositionRow) : Prop :=
  upper (Db.symbol row) = Db.symbol row
  /\ lower (Db.source_wallet row) = Db.source_wallet row.

(** The rows of [positions] have distinct keys and are normalised. *)
Definition well_kept (rows : list Db.PositionRow) : Prop :=
  NoDup (map position_key rows) /\ Forall normalised rows.

(** The next [n] statements of the database run. *)
Definition statements_run (n : nat) (self : Db.DatabaseManager) : Prop :=
  forall i, (i < n)%nat -> Db.faults self (Db.statements self + i) = None.

(** No wallet other than [source_wallet] holds the symbol. *)
Definition held_only_by (symbol source_wallet : string)
    (rows : list Db.PositionRow) : Prop :=
  forall row, In row rows -> Db.symbol row = upper symbol ->
              Db.source_wallet row = lower source_wallet.

(** The store once a BTC position of wallet A is mirrored. *)
Definition mirroring_a : Db.DatabaseManager :=
  {| Db.wallets := Db.wallets two_wallets;
     Db.positions := [ {| Db.symbol := "BTC"; Db.side := "LONG";
                          Db.size := 1 # 100; Db.entry_price := 50000;
                          Db.source_wallet := wallet_a |} ];
     Db.faults := fun _ => None;
     Db.statements := 0 |}.

Definition mirroring_engine : Strategy.StrategyEngine Lighter.LighterTrader :=
  Strategy.init mirroring_a healthy_trader (fun _ => 1700000000).

(** The result of an event that is not followed. *)
Definition skipped (reason : string) : Strategy.FollowResult :=
  {| Strategy.decision := Strategy.SKIP;
     Strategy.reason := reason;
     Strategy.follow_size := None;
     Strategy.follow_side := None;
     Strategy.order_result := None |}.

(** A position as [get_positions] reports it. *)
Definition reported (p : Lighter.Position) : Prop :=
  0 < Lighter.size p
  /\ (Lighter.side p = "LONG" \/ Lighter.side p = "SHORT")
  /\ Lighter.symbol p
     = Lighter._get_symbol_by_market_index (Lighter.market_index p).

(** A venue that reports one position, in a market the table does not
    list. *)
Definition unlisted_account : Lighter.ApiAccount :=
  {| Lighter.api_collateral := Some 10000;
     Lighter.api_positions :=
       [ {| Lighter.api_position := Some (-5);
            Lighter.api_sign := Some (-1)%Z;
            Lighter.api_market_index := Some 7%Z;
            Lighter.api_avg_entry_price := Some 20;
            Lighter.api_position_value := Some 100;
            Lighter.api_unrealized_pn_l := Some 0 |} ] |}.

(** The submission of an order. *)
Definition submission (req : Lighter.MarketOrderRequest) : Lighter.Effect :=
  Lighter.Remote (Lighter.CreateMarketOrderCall req).

(** An effect that is not an order, or is a reduce-only order. *)
Definition reduces_only (e : Lighter.Effect) : Prop :=
  match e with
  | Lighter.Remote (Lighter.CreateMarketOrderCall req) =>
      Lighter.req_reduce_only req = true
  | _ => True
  end.

(** An observation of the trader that the record of its effects does not
    change. *)
Definition ignores_effects {X} (f : Lighter.LighterTrader -> X) : Prop :=
  forall e s, f (Lighter.record_effect e s) = f s.

(** The result of a close when there is nothing to close:
    [OrderResult(success=True)]. *)
Definition nothing_to_close : Lighter.OrderResult :=
  {| Lighter.success := true; Lighter.order_id := None;
     Lighter.tx_hash := None; Lighter.error := None |}.

(** A position of the symbol that has lost at least [ratio] of its
    value. *)
Definition past_stop_loss (symbol : string) (ratio : Q)
    (pos : Lighter.Position) : Prop :=
  upper (Lighter.symbol pos) = upper symbol
  /\ 0 < Lighter.position_value pos
  /\ Lighter.unrealized_pnl pos <= - ratio * Lighter.position_value pos.

(** Wallet A closes its BTC position. *)
Definition close_btc : Events.PositionEvent :=
  {| Events.event_type := Events.CLOSE;
     Events.symbol := "BTC";
     Events.side := Events.LONG;
     Events.size := 0;
     Events.price := 0;
     Events.wallet_address := wallet_a;
     Events.raw_data := None |}.

(** ** Sizes and the precision of the decimal context *)

(** A decimal of at most 28 significant digits: [m * 10 ^ k] with
    [|m| < 10 ^ 28]. *)
Definition within_precision (q : Q) : Prop :=
  exists m k : Z, (Z.abs m < 10 ^ prec)%Z /\ q == inject_Z m * 10 ^ k.

(** The signed size an entry of a snapshot stands for: that of its
    ["szi"], and zero when the symbol or the key is absent. *)
Definition carried_size (pos : option Events.PositionData) : Q :=
  match pos with
  | Some p => match Events.szi p with Some q => q | None => 0 end
  | None => 0
  end.

(** A venue whose ETH book has its best bid at 3024.66 and its best ask at
    3024.70, seen by an engine that follows wallets A and B with 10000 of
    its own. *)
Definition eth_book : Lighter.OrderBook :=
  {| Lighter.bids := ["3024.66"]; Lighter.asks := ["3024.70"] |}.

Definition eth_trader : Lighter.LighterTrader :=
  Lighter.init 7 1700000000000
    (fun _ => Returns (Some [funded_account]))
    (fun _ _ => Returns (Some eth_book))
    (fun _ _ => Returns accepted).

Definition eth_engine : Strategy.StrategyEngine Lighter.LighterTrader :=
  Strategy.init two_wallets eth_trader (fun _ => 1700000000).

Definition open_eth : Events.PositionEvent :=
  {| Events.event_type := Events.OPEN;
     Events.symbol := "ETH";
     Events.side := Events.LONG;
     Events.size := 2;
     Events.price := 3024.68;
     Events.wallet_address := wallet_a;
     Events.raw_data := None |}.

(** The mid price of [eth_book] on the venue. *)
Definition eth_mid_price : Q := (3024.66 + 3024.70) / 2.

(** No position of [ps] is held for [symbol]; symbols are compared without
    regard to case. *)
Definition none_held_for (symbol : string) (ps : list Lighter.Position) : Prop :=
  forall p, In p ps -> upper (Lighter.symbol p) <> upper symbol.

(** [held] is the position of [ps] held for [symbol]: the first one of the
    list whose symbol is [symbol]. *)
Definition held_for (symbol : string) (ps : list Lighter.Position)
    (held : Lighter.Position) : Prop :=
  exists before after,
    ps = (before ++ held :: after)%list
    /\ none_held_for symbol before
    /\ upper (Lighter.symbol held) = upper symbol.

(** The side that reduces a holding: SELL for a LONG one, BUY otherwise. *)
Definition reducing_side (held : Lighter.Position) : Lighter.OrderSide :=
  if string_dec (Lighter.side held) "LONG" then Lighter.SELL else Lighter.BUY.

(** A venue on which 3333333333333333333333333333 BTC are held long. *)
Definition odd_account : Lighter.ApiAccount :=
  {| Lighter.api_collateral := Some 10000;
     Lighter.api_positions :=
       [ {| Lighter.api_position := Some 3333333333333333333333333333;
            Lighter.api_sign := Some 1%Z;
            Lighter.api_market_index := Some 0%Z;
            Lighter.api_avg_entry_price := Some 50000;
            Lighter.api_position_value := Some 100000;
            Lighter.api_unrealized_pn_l := Some 0 |} ] |}.

Definition odd_trader : Lighter.LighterTrader :=
  Lighter.init 7 1700000000000
    (fun _ => Returns (Some [odd_account]))
    (fun _ _ => Returns (Some btc_book))
    (fun _ _ => Returns accepted).

Definition odd_engine : Strategy.StrategyEngine Lighter.LighterTrader :=
  Strategy.init two_wallets odd_trader (fun _ => 1700000000).

Definition held_odd : Lighter.Position :=
  {| Lighter.market_index := 0;
     Lighter.symbol := "BTC";
     Lighter.side := "LONG";
     Lighter.size := 3333333333333333333333333333;
     Lighter.entry_price := 50000;
     Lighter.position_value := 100000;
     Lighter.unrealized_pnl := 0 |}.

(** *** Failures inside a run of the engine *)

(** The queries of the account and of the order book sent to the venue. *)
Definition is_account_call (e : Lighter.Effect) : bool :=
  match e with
  | Lighter.Remote Lighter.AccountCall => true
  | _ => false
  end.

Definition is_price_call (e : Lighter.Effect) : bool :=
  match e with
  | Lighter.Remote (Lighter.OrderBookCall _) => true
  | _ => false
  end.

Definition raising {A} (o : outcome A) : Prop := exists e, o = Raises e.

(** The effects of a run of the client that takes the trader [t] to the
    trader [t']: those that [t'] has recorded beyond those of [t]. *)
Definition run_effects (t t' : Lighter.LighterTrader) : list Lighter.Effect :=
  skipn (length (Lighter.effects t)) (Lighter.effects t').

(** The last attempts among the effects of a run, each with the number
    under which the venue answers it: the calls the client does not try
    again.  A sleep follows a call that is tried again. *)
Fixpoint last_attempts (n : nat) (es : list Lighter.Effect)
    : list (nat * Lighter.RemoteCall) :=
  match es with
  | [] => []
  | Lighter.Remote c :: rest =>
      match rest with
      | Lighter.Sleep _ :: _ => last_attempts (S n) rest
      | _ => (n, c) :: last_attempts (S n) rest
      end
  | Lighter.Sleep _ :: rest => last_attempts n rest
  end.

(** The venue raises on the call [c] when it is the [n]-th call. *)
Definition call_raises (t : Lighter.LighterTrader) (n : nat)
    (c : Lighter.RemoteCall) : Prop :=
  match c with
  | Lighter.AccountCall => raising (Lighter.account_api t n)
  | Lighter.OrderBookCall market => raising (Lighter.order_api t market n)
  | Lighter.CreateMarketOrderCall req => raising (Lighter.signer_api t req n)
  end.

(** The client gives up on the call [c] in the run from [t] to [t']: the
    venue raises on a last attempt of it. *)
Definition gives_up (t t' : Lighter.LighterTrader) (c : Lighter.RemoteCall)
    : Prop :=
  exists n,
    In (n, c) (last_attempts (Lighter.calls t) (run_effects t t'))
    /\ call_raises t n c.

(** An account query, a price query, the submission of an order fails in
    the run. *)
Definition account_query_fails (t t' : Lighter.LighterTrader) : Prop :=
  gives_up t t' Lighter.AccountCall.

Definition price_query_fails (t t' : Lighter.LighterTrader) : Prop :=
  exists market, gives_up t t' (Lighter.OrderBookCall market).

Definition order_submission_fails (t t' : Lighter.LighterTrader) : Prop :=
  exists req, gives_up t t' (Lighter.CreateMarketOrderCall req).

(** A run of the client only adds effects, and counts the calls among
    them. *)
Definition grows (t t' : Lighter.LighterTrader) : Prop :=
  exists new,
    Lighter.effects t' = (Lighter.effects t ++ new)%list
    /\ Lighter.calls t' = (Lighter.calls t + length (filter is_remote new))%nat.

(** Effects that do not begin with a sleep. *)
Definition starts_with_call (es : list Lighter.Effect) : Prop :=
  match es with
  | Lighter.Sleep _ :: _ => False
  | _ => True
  end.

(** A run of whole queries: it grows the effects, and what it adds does
    not begin with a sleep. *)
Definition steps (t t' : Lighter.LighterTrader) : Prop :=
  exists new,
    Lighter.effects t' = (Lighter.effects t ++ new)%list
    /\ Lighter.calls t' = (Lighter.calls t + length (filter is_remote new))%nat
    /\ starts_with_call new.

(** In the run from [t] to [t'], the venue answered every last attempt
    of the calls that [p] selects. *)
Definition answered_for (p : Lighter.Effect -> bool)
    (t t' : Lighter.LighterTrader) : Prop :=
  forall n c,
    In (n, c) (last_attempts (Lighter.calls t) (run_effects t t')) ->
    p (Lighter.Remote c) = true ->
    ~ call_raises t n c.

(** What an operation of the client leaves of the venue: the endpoints
    answer as before, the bound on attempts is the same and calls are only
    added. *)
Definition same_venue (t t' : Lighter.LighterTrader) : Prop :=
  Lighter.account_api t' = Lighter.account_api t
  /\ Lighter.order_api t' = Lighter.order_api t
  /\ Lighter.signer_api t' = Lighter.signer_api t
  /\ Lighter.max_retries t' = Lighter.max_retries t
  /\ (Lighter.calls t <= Lighter.calls t')%nat.

(** [moves R m]: running [m] takes a state to one related to it by [R],
    whatever the outcome. *)
Definition moves {S A} (R : S -> S -> Prop) (m : M S A) : Prop :=
  forall s, R s (snd (m s)).

(** An OPEN or INCREASE event. *)
Definition opening (event : Events.PositionEvent) : Prop :=
  Events.event_type event = Events.OPEN
  \/ Events.event_type event = Events.INCREASE.

(** A read of the store fails in the run: the wallet lookup and the lock
    lookup are the first and the second statement the run sends to the
    store, and the cap lookup of an OPEN or INCREASE event the third. *)
Definition store_read_fails {T} (event : Events.PositionEvent)
    (self : Strategy.StrategyEngine T) : Prop :=
  let db := Strategy.db_manager self in
  exists k e,
    Db.faults db (Db.statements db + k) = Some e
    /\ ((k <= 1)%nat \/ (k = 2%nat /\ opening event)).

(** The balance query of the eligibility check fails: the cached balance
    is older than the cache interval at the run's first look at the clock,
    and the account endpoint raises at each attempt of the query. *)
Definition balance_query_fails
    (self : Strategy.StrategyEngine Lighter.LighterTrader) : Prop :=
  let t := Strategy.lighter_trader self in
  Strategy._balance_cache_seconds self
  < Strategy.clock self (Strategy.time_reads self)
    - Strategy._balance_updated_at self
  /\ forall k, (k < Z.to_nat (Lighter.max_retries t))%nat ->
               raising (Lighter.account_api t (Lighter.calls t + k)).

(** The event is not followed: it is skipped or ends in an error. *)
Definition skipped_or_failed (r : Strategy.FollowResult) : Prop :=
  Strategy.decision r = Strategy.SKIP \/ Strategy.decision r = Strategy.ERROR.

(** A venue that answers the first two account queries with a holding of
    two BTC and raises at every later one. *)
Definition fading_trader : Lighter.LighterTrader :=
  Lighter.init 7 1700000000000
    (fun n => if (n <? 2)%nat then Returns (Some [holding_account])
              else Raises venue_down)
    (fun _ _ => Returns (Some btc_book))
    (fun _ _ => Returns accepted).

(** An engine on that venue whose store mirrors a BTC position of wallet
    A. *)
Definition fading_engine : Strategy.StrategyEngine Lighter.LighterTrader :=
  Strategy.init mirroring_a fading_trader (fun _ => 1700000000).

(** A venue whose order books cannot be read, and one that takes no
    order. *)
Definition bookless_trader : Lighter.LighterTrader :=
  Lighter.init 7 1700000000000
    (fun _ => Returns (Some [funded_account]))
    (fun _ _ => Raises venue_down)
    (fun _ _ => Returns accepted).

Definition bookless_engine : Strategy.StrategyEngine Lighter.LighterTrader :=
  Strategy.init two_wallets bookless_trader (fun _ => 1700000000).

Definition orderless_trader : Lighter.LighterTrader :=
  Lighter.init 7 1700000000000
    (fun _ => Returns (Some [funded_account]))
    (fun _ _ => Returns (Some btc_book))
    (fun _ _ => Raises venue_down).

Definition orderless_engine : Strategy.StrategyEngine Lighter.LighterTrader :=
  Strategy.init two_wallets orderless_trader (fun _ => 1700000000).

(** A run of whole queries that leaves the venue as it is and in which
    the venue answered every last attempt of the calls that [p] selects. *)
Definition answered_run (p : Lighter.Effect -> bool)
    (t t' : Lighter.LighterTrader) : Prop :=
  steps t t' /\ same_venue t t' /\ answered_for p t t'.

(** * Properties *)

(** ** Facts on decimal comparisons *)

Lemma Qeq_bool_0_sign (q : Q) : Qeq_bool q 0 = (sign_of q =? 0)%Z.
Proof.
  destruct q as [n d]. unfold Qeq_bool, sign_of. simpl.
  rewrite Z.mul_1_r. destruct n; reflexivity.
Qed.

Lemma Qgtb_0_sign (q : Q) : Qgtb q 0 = (0 <? sign_of q)%Z.
Proof.
  destruct q as [n d]. unfold Qgtb, Qcompare, sign_of. simpl.
  rewrite Z.mul_1_r. destruct n; reflexivity.
Qed.

Lemma Qltb_0_sign (q : Q) : Qltb q 0 = (sign_of q <? 0)%Z.
Proof.
  destruct q as [n d]. unfold Qltb, Qcompare, sign_of. simpl.
  rewrite Z.mul_1_r. destruct n; reflexivity.
Qed.

Lemma Qeq_bool_sign_abs (a b : Q) :
  Qeq_bool a b
  = ((sign_of a =? sign_of b)%Z
     && match Qabs b ?= Qabs a with Eq => true | _ => false end).
Proof.
  destruct a as [an ad], b as [bn bd].
  unfold Qeq_bool, Qcompare, sign_of, Qabs. simpl.
  destruct an as [|ap|ap], bn as [|bp|bp]; simpl; try reflexivity.
  - rewrite Pos.compare_antisym, Pos.eqb_compare.
    destruct (Pos.compare (ap * bd) (bp * ad)); reflexivity.
  - rewrite Pos.compare_antisym, Pos.eqb_compare.
    destruct (Pos.compare (ap * bd) (bp * ad)); reflexivity.
Qed.

Lemma Qgtb_true_lt (a b : Q) : b < a -> Qgtb a b = true.
Proof.
  intros H. unfold Qgtb. now rewrite (proj1 (Qgt_alt a b) H).
Qed.

Lemma Qgtb_false_le (a b : Q) : a <= b -> Qgtb a b = false.
Proof.
  intros H. unfold Qgtb. destruct (a ?= b) eqn:E; try reflexivity.
  apply Qgt_alt in E. exfalso. apply (Qlt_not_le _ _ E H).
Qed.

Lemma Qltb_true_lt (a b : Q) : a < b -> Qltb a b = true.
Proof.
  intros H. unfold Qltb. now rewrite (proj1 (Qlt_alt a b) H).
Qed.

Lemma Qltb_false_le (a b : Q) : b <= a -> Qltb a b = false.
Proof.
  intros H. unfold Qltb. destruct (a ?= b) eqn:E; try reflexivity.
  apply Qlt_alt in E. exfalso. apply (Qlt_not_le _ _ E H).
Qed.

Lemma Qleb_false_pos (a : Q) : 0 < a -> Qleb a 0 = false.
Proof.
  intros H. unfold Qleb. now rewrite (proj1 (Qgt_alt a 0) H).
Qed.

Lemma Qeq_bool_false (a b : Q) : ~ a == b -> Qeq_bool a b = false.
Proof.
  intros H. destruct (Qeq_bool a b) eqn:E; [| reflexivity].
  apply Qeq_bool_iff in E. contradiction.
Qed.

(** ** Facts on the decimal context *)

Lemma pow10_pos (k : Z) : (0 < pow10 k)%Z.
Proof. unfold pow10. apply Z.pow_pos_nonneg; lia. Qed.

Lemma ten_power_pos (k : Z) : 0 < 10 ^ k.
Proof. apply Qpower_0_lt. reflexivity. Qed.

Lemma ten_power_nonzero (k : Z) : ~ 10 ^ k == 0.
Proof.
  intros H. pose proof (ten_power_pos k) as P. rewrite H in P. discriminate P.
Qed.

Lemma pow10_power (k : Z) :
  inject_Z (pow10 k) / inject_Z (pow10 (- k)) == 10 ^ k.
Proof.
  unfold pow10. destruct (Z_le_gt_dec 0 k) as [Hk | Hk].
  - rewrite (Z.max_r 0 k) by lia. rewrite (Z.max_l 0 (- k)) by lia.
    rewrite Zpower_Qpower by lia.
    change (inject_Z (10 ^ 0)) with 1. change (inject_Z 10) with 10.
    unfold Qdiv. change (/ 1) with 1. apply Qmult_1_r.
  - rewrite (Z.max_l 0 k) by lia. rewrite (Z.max_r 0 (- k)) by lia.
    change (inject_Z (10 ^ 0)) with 1.
    rewrite Zpower_Qpower by lia. change (inject_Z 10) with 10.
    assert (E : 10 ^ k == / 10 ^ (- k)).
    { rewrite <- (Z.opp_involutive k) at 1. apply Qpower_opp. }
    rewrite E. unfold Qdiv. apply Qmult_1_l.
Qed.

Lemma inject_Z_pow10_pos (k : Z) : 0 < inject_Z (pow10 k).
Proof.
  change 0 with (inject_Z 0). rewrite <- Zlt_Qlt. apply pow10_pos.
Qed.

Lemma digits_upto_spec (fuel : nat) :
  forall n, (1 <= n < 2 ^ Z.of_nat (S fuel))%Z ->
    (1 <= digits_upto fuel n)%Z
    /\ (10 ^ (digits_upto fuel n - 1) <= n < 10 ^ digits_upto fuel n)%Z.
Proof.
  induction fuel as [|fuel IH]; intros n Hn.
  - cbn in Hn. cbn. lia.
  - cbn [digits_upto]. destruct (Z.ltb_spec n 10) as [Hlt | Hge].
    + cbn. lia.
    + assert (Hq : (1 <= n / 10 < 2 ^ Z.of_nat (S fuel))%Z).
      { split.
        - apply Z.div_le_lower_bound; lia.
        - apply Z.div_lt_upper_bound; [lia|].
          rewrite Nat2Z.inj_succ, Z.pow_succ_r in Hn by lia.
          rewrite Nat2Z.inj_succ. rewrite Z.pow_succ_r by lia.
          rewrite Nat2Z.inj_succ, Z.pow_succ_r in Hn by lia. lia. }
      destruct (IH (n / 10)%Z Hq) as [H1 [Hlo Hhi]].
      set (k := digits_upto fuel (n / 10)) in *.
      split; [lia|].
      replace (1 + k - 1)%Z with (Z.succ (k - 1)) by lia.
      replace (1 + k)%Z with (Z.succ k) by lia.
      rewrite !Z.pow_succ_r by lia.
      pose proof (Z.div_mod n 10 ltac:(lia)) as Hdm.
      pose proof (Z.mod_pos_bound n 10 ltac:(lia)) as Hm.
      lia.
Qed.

Lemma decimal_digits_spec (n : Z) :
  (1 <= n)%Z ->
  (1 <= decimal_digits n)%Z
  /\ (10 ^ (decimal_digits n - 1) <= n < 10 ^ decimal_digits n)%Z.
Proof.
  intros Hn. unfold decimal_digits. apply digits_upto_spec.
  split; [exact Hn|].
  rewrite Nat2Z.inj_succ, Z2Nat.id by apply Z.log2_nonneg.
  apply Z.log2_spec. lia.
Qed.

(** Bounds on an integer, read in [Q]. *)
Lemma digits_bounds_Q (n : Z) :
  (1 <= n)%Z ->
  10 ^ (decimal_digits n - 1) <= inject_Z n
  /\ inject_Z n < 10 ^ decimal_digits n.
Proof.
  intros Hn. destruct (decimal_digits_spec n Hn) as [H1 [Hlo Hhi]].
  change 10 with (inject_Z 10).
  rewrite <- !Zpower_Qpower by lia.
  rewrite <- Zle_Qle, <- Zlt_Qlt. split; assumption.
Qed.

Lemma exponent_unique (a : Q) (e e' : Z) :
  10 ^ e <= a -> a < 10 ^ (e + 1) ->
  10 ^ e' <= a -> a < 10 ^ (e' + 1) ->
  e = e'.
Proof.
  intros H1 H2 H3 H4.
  assert (A : (e < e' + 1)%Z).
  { apply (Qpower_lt_compat_l_inv 10); [| reflexivity].
    eapply Qle_lt_trans; eassumption. }
  assert (B : (e' < e + 1)%Z).
  { apply (Qpower_lt_compat_l_inv 10); [| reflexivity].
    eapply Qle_lt_trans; eassumption. }
  lia.
Qed.

Lemma quotient_as_fraction (p q : Z) :
  (1 <= q)%Z -> inject_Z p / inject_Z q == p # Z.to_pos q.
Proof.
  intros Hq. rewrite Qmake_Qdiv, Z2Pos.id by lia. reflexivity.
Qed.

Lemma cross_le (p q n d : Z) :
  (1 <= q)%Z -> (1 <= d)%Z ->
  ((d * p <= n * q)%Z <-> inject_Z p / inject_Z q <= inject_Z n / inject_Z d).
Proof.
  intros Hq Hd. rewrite (quotient_as_fraction p q Hq), (quotient_as_fraction n d Hd).
  unfold Qle. cbn [Qnum Qden]. rewrite !Z2Pos.id by lia.
  split; intros H; lia.
Qed.

Lemma cross_lt (p q n d : Z) :
  (1 <= q)%Z -> (1 <= d)%Z ->
  ((n * q < d * p)%Z <-> inject_Z n / inject_Z d < inject_Z p / inject_Z q).
Proof.
  intros Hq Hd. rewrite (quotient_as_fraction p q Hq), (quotient_as_fraction n d Hd).
  unfold Qlt. cbn [Qnum Qden]. rewrite !Z2Pos.id by lia.
  split; intros H; lia.
Qed.

Lemma ten_power_succ (k : Z) : 10 ^ (k + 1) == 10 ^ k * 10.
Proof. rewrite Qpower_plus by discriminate. reflexivity. Qed.

Lemma ten_power_add (j k : Z) : 10 ^ (j + k) == 10 ^ j * 10 ^ k.
Proof. apply Qpower_plus. discriminate. Qed.

(** The adjusted exponent brackets the quotient. *)
Lemma adjusted_exponent_spec (n d : Z) :
  (1 <= n)%Z -> (1 <= d)%Z ->
  10 ^ adjusted_exponent n d <= inject_Z n / inject_Z d
  /\ inject_Z n / inject_Z d < 10 ^ (adjusted_exponent n d + 1).
Proof.
  intros Hn Hd.
  destruct (digits_bounds_Q n Hn) as [Hn1 Hn2].
  destruct (digits_bounds_Q d Hd) as [Hd1 Hd2].
  assert (Hdpos : 0 < inject_Z d).
  { change 0 with (inject_Z 0). rewrite <- Zlt_Qlt. lia. }
  set (k := (decimal_digits n - decimal_digits d)%Z).
  assert (Hupper : inject_Z n / inject_Z d < 10 ^ (k + 1)).
  { apply Qlt_shift_div_r; [exact Hdpos|].
    eapply Qlt_le_trans; [exact Hn2|].
    replace (decimal_digits n) with ((k + 1) + (decimal_digits d - 1))%Z
      by (unfold k; lia).
    rewrite ten_power_add.
    apply Qmult_le_l; [apply ten_power_pos | exact Hd1]. }
  assert (Hlower : 10 ^ (k - 1) <= inject_Z n / inject_Z d).
  { apply Qle_shift_div_l; [exact Hdpos|].
    eapply Qle_trans; [| exact Hn1].
    replace (decimal_digits n - 1)%Z with ((k - 1) + decimal_digits d)%Z
      by (unfold k; lia).
    rewrite ten_power_add.
    apply Qmult_le_l; [apply ten_power_pos | apply Qlt_le_weak; exact Hd2]. }
  unfold adjusted_exponent. fold k.
  pose proof (pow10_pos k) as P1. pose proof (pow10_pos (- k)) as P2.
  destruct (Z.leb_spec (d * pow10 k) (n * pow10 (- k))) as [Hle | Hgt].
  - split; [| exact Hupper].
    rewrite <- pow10_power.
    apply (proj1 (cross_le (pow10 k) (pow10 (- k)) n d ltac:(lia) Hd)).
    exact Hle.
  - split.
    + exact Hlower.
    + replace (k - 1 + 1)%Z with k by lia.
      rewrite <- pow10_power.
      apply (proj1 (cross_lt (pow10 k) (pow10 (- k)) n d ltac:(lia) Hd)).
      exact Hgt.
Qed.

Lemma round_half_even_exact (n d m : Z) :
  (1 <= d)%Z -> n = (m * d)%Z -> round_half_even n d = m.
Proof.
  intros Hd ->. unfold round_half_even.
  rewrite Z.mod_mul, Z.div_mul by lia.
  destruct (Z.compare_spec (2 * 0) d); lia.
Qed.

(** The context leaves a quotient of at most [prec] digits as it is. *)
Lemma round_positive_exact (n d m k : Z) :
  (1 <= n)%Z -> (1 <= d)%Z ->
  (1 <= m < 10 ^ prec)%Z ->
  inject_Z n / inject_Z d == inject_Z m * 10 ^ k ->
  round_positive n d == inject_Z n / inject_Z d.
Proof.
  intros Hn Hd Hm Hrep.
  destruct (adjusted_exponent_spec n d Hn Hd) as [Elo Ehi].
  destruct (digits_bounds_Q m (proj1 Hm)) as [Mlo Mhi].
  destruct (decimal_digits_spec m (proj1 Hm)) as [D1 [Dlo Dhi]].
  set (dm := decimal_digits m) in *.
  assert (Hdm : (dm <= prec)%Z).
  { destruct (Z_le_gt_dec dm prec) as [H | H]; [exact H|].
    exfalso. assert ((10 ^ prec <= 10 ^ (dm - 1))%Z)
      by (apply Z.pow_le_mono_r; unfold prec in *; lia).
    lia. }
  assert (He : adjusted_exponent n d = (dm - 1 + k)%Z).
  { apply (exponent_unique (inject_Z n / inject_Z d)); try assumption.
    - rewrite Hrep, ten_power_add.
      apply Qmult_le_r; [apply ten_power_pos | exact Mlo].
    - rewrite Hrep. replace (dm - 1 + k + 1)%Z with (dm + k)%Z by lia.
      rewrite ten_power_add.
      apply Qmult_lt_r; [apply ten_power_pos | exact Mhi]. }
  unfold round_positive. rewrite He.
  set (shift := (prec - 1 - (dm - 1 + k))%Z).
  set (c := (m * 10 ^ (prec - dm))%Z).
  pose proof (pow10_pos shift) as P1. pose proof (pow10_pos (- shift)) as P2.
  assert (Hc : inject_Z c == inject_Z n / inject_Z d * 10 ^ shift).
  { unfold c. rewrite inject_Z_mult, Zpower_Qpower by lia.
    change (inject_Z 10) with 10. rewrite Hrep, <- Qmult_assoc, <- ten_power_add.
    replace (k + shift)%Z with (prec - dm)%Z by (unfold shift; lia).
    reflexivity. }
  assert (Hdiv : (n * pow10 shift = c * (d * pow10 (- shift)))%Z).
  { apply inject_Z_injective. rewrite !inject_Z_mult, Hc, <- pow10_power.
    field. split.
    - intros E. pose proof (inject_Z_pow10_pos (- shift)) as P.
      rewrite E in P. discriminate P.
    - intros E. apply (inject_Z_injective d 0) in E. lia. }
  rewrite (round_half_even_exact _ _ c) by (try exact Hdiv; nia).
  rewrite Qred_correct, Qmake_Qdiv, Z2Pos.id by lia.
  rewrite inject_Z_mult.
  assert (Hback : inject_Z (pow10 (- shift)) / inject_Z (pow10 shift)
                  == 10 ^ (- shift)).
  { rewrite <- (pow10_power (- shift)), Z.opp_involutive. reflexivity. }
  unfold Qdiv in *. rewrite <- Qmult_assoc, Hback, Hc, <- Qmult_assoc.
  rewrite <- ten_power_add. replace (shift + - shift)%Z with 0%Z by lia.
  apply Qmult_1_r.
Qed.

Lemma context_round_exact (q : Q) :
  within_precision q -> context_round q == q.
Proof.
  intros (m & k & Hm & Hq). unfold context_round.
  destruct q as [[|n|n] d]; cbn [Qnum Qden].
  - reflexivity.
  - assert (Hpos : 0 < inject_Z m).
    { destruct (Qlt_le_dec 0 (inject_Z m)) as [H | H]; [exact H|].
      exfalso. assert (Hle : Z.pos n # d <= 0).
      { rewrite Hq. rewrite <- (Qmult_0_l (10 ^ k)).
        apply Qmult_le_compat_r; [exact H|].
        apply Qlt_le_weak, ten_power_pos. }
      unfold Qle in Hle. cbn in Hle. lia. }
    change 0 with (inject_Z 0) in Hpos. rewrite <- Zlt_Qlt in Hpos.
    rewrite (round_positive_exact (Z.pos n) (Z.pos d) m k); try lia.
    + now rewrite <- Qmake_Qdiv.
    + now rewrite <- Qmake_Qdiv.
  - assert (Hneg : inject_Z m < 0).
    { destruct (Qlt_le_dec (inject_Z m) 0) as [H | H]; [exact H|].
      exfalso. assert (Hle : 0 <= Z.neg n # d).
      { rewrite Hq. apply Qmult_le_0_compat; [exact H|].
        apply Qlt_le_weak, ten_power_pos. }
      unfold Qle in Hle. cbn in Hle. lia. }
    change 0 with (inject_Z 0) in Hneg. rewrite <- Zlt_Qlt in Hneg.
    assert (Hrep : inject_Z (Z.pos n) / inject_Z (Z.pos d)
                   == inject_Z (- m) * 10 ^ k).
    { rewrite <- Qmake_Qdiv.
      setoid_replace (Z.pos n # d) with (- (Z.neg n # d)) by reflexivity.
      rewrite Hq. rewrite inject_Z_opp. ring. }
    rewrite (round_positive_exact (Z.pos n) (Z.pos d) (- m) k); try lia.
    + rewrite <- Qmake_Qdiv. reflexivity.
    + exact Hrep.
Qed.

Lemma within_precision_abs (q : Q) :
  within_precision q -> within_precision (Qabs q).
Proof.
  intros (m & k & Hm & Hq). exists (Z.abs m), k. split.
  - lia.
  - rewrite Hq, Qabs_Qmult, (Qabs_pos (10 ^ k))
      by (apply Qlt_le_weak, ten_power_pos).
    apply Qmult_comp; [| reflexivity].
    unfold Qabs. reflexivity.
Qed.

Lemma decimal_abs_exact (q : Q) :
  within_precision q -> decimal_abs q == Qabs q.
Proof.
  intros H. unfold decimal_abs. apply context_round_exact.
  now apply within_precision_abs.
Qed.

Lemma sign_of_cases (q : Q) :
  sign_of q = (-1)%Z \/ sign_of q = 0%Z \/ sign_of q = 1%Z.
Proof.
  unfold sign_of. destruct (Qnum q); simpl; auto.
Qed.

(** On sizes the context holds exactly, [_determine_event_type] reads its
    two arguments only through their signs and the comparison of their
    absolute values. *)
Lemma determine_event_type_by_signs (old new : Q) :
  within_precision old -> within_precision new ->
  HyperliquidTracker._determine_event_type old new
  = match classification_table (sign_of old) (sign_of new)
                               (Qabs new ?= Qabs old) with
    | Some ty => ty
    | None => Events.UNKNOWN
    end.
Proof.
  intros Hold Hnew.
  unfold HyperliquidTracker._determine_event_type, classification_table.
  rewrite !Qeq_bool_0_sign, !Qgtb_0_sign, !Qltb_0_sign.
  unfold Qgtb, Qltb.
  assert (Hcmp : (decimal_abs new ?= decimal_abs old)
                 = (Qabs new ?= Qabs old)).
  { now rewrite (decimal_abs_exact old Hold), (decimal_abs_exact new Hnew). }
  rewrite Hcmp.
  destruct (sign_of_cases old) as [Ho | [Ho | Ho]],
           (sign_of_cases new) as [Hn | [Hn | Hn]];
    rewrite Ho, Hn; simpl;
    destruct (Qabs new ?= Qabs old) eqn:Hc; try reflexivity.
  all: exfalso.
  all: unfold sign_of in Ho, Hn; destruct old as [on od], new as [nn nd];
       simpl in Ho, Hn; destruct on; try discriminate Ho;
       destruct nn; try discriminate Hn; discriminate Hc.
Qed.

(** C3, as amended. For every pair of signed sizes (old, new) of one
    symbol, each of at most 28 significant digits, the tracker's answer is
    the one the classification table gives for (sign(old), sign(new),
    |new| compared with |old|): no event when old = new, otherwise an
    event of the table's kind, whose side follows the sign of new when new
    is not zero and the sign of old otherwise, and whose size is |new|. *)
Theorem compare_position_classification
    (symbol wallet : string) (old_pos new_pos : option Events.PositionData) :
  let old := carried_size old_pos in
  let new := carried_size new_pos in
  within_precision old ->
  within_precision new ->
  match classification_table (sign_of old) (sign_of new)
                             (Qabs new ?= Qabs old) with
  | None =>
      HyperliquidTracker._compare_position symbol old_pos new_pos wallet = None
  | Some ty =>
      exists event,
        HyperliquidTracker._compare_position symbol old_pos new_pos wallet
        = Some event
        /\ Events.event_type event = ty
        /\ Events.symbol event = symbol
        /\ Events.side event = side_table (sign_of old) (sign_of new)
        /\ Events.size event == Qabs new
        /\ Events.wallet_address event = wallet
        /\ Events.raw_data event = new_pos
  end.
Proof.
  intros old new Hold Hnew.
  assert (Eold : HyperliquidTracker.decimal_field old_pos Events.szi = old)
    by reflexivity.
  assert (Enew : HyperliquidTracker.decimal_field new_pos Events.szi = new)
    by reflexivity.
  unfold HyperliquidTracker._compare_position. rewrite Eold, Enew.
  rewrite (determine_event_type_by_signs old new Hold Hnew).
  rewrite (Qeq_bool_sign_abs old new).
  rewrite !Qgtb_0_sign, !Qltb_0_sign.
  pose proof (decimal_abs_exact new Hnew) as Hsize.
  unfold classification_table, side_table.
  destruct (sign_of_cases old) as [Ho | [Ho | Ho]],
           (sign_of_cases new) as [Hn | [Hn | Hn]];
    rewrite Ho, Hn; simpl;
    destruct (Qabs new ?= Qabs old) eqn:Hc; try reflexivity;
    try (eexists; repeat split; exact Hsize).
  all: exfalso.
  all: unfold sign_of in Ho, Hn; destruct old as [on od], new as [nn nd];
       simpl in Ho, Hn; destruct on; try discriminate Ho;
       destruct nn; try discriminate Hn; discriminate Hc.
Qed.

(** From no position to 5 ETH: an OPEN, LONG, of size 5. *)
Lemma compare_position_classification_witness :
  exists event,
    HyperliquidTracker._compare_position "ETH" None (Some (eth_position 5))
      wallet_a
    = Some event
    /\ Events.event_type event = Events.OPEN
    /\ Events.symbol event = "ETH"
    /\ Events.side event = Events.LONG
    /\ Events.size event == 5
    /\ Events.wallet_address event = wallet_a
    /\ Events.raw_data event = Some (eth_position 5).
Proof.
  apply (compare_position_classification "ETH" wallet_a None
           (Some (eth_position 5))).
  - exists 0%Z, 0%Z. split; reflexivity.
  - exists 5%Z, 0%Z. split; reflexivity.
Defined.

(** C3, as stated, fails beyond the precision of the context: from 1 to
    1.00000000000000000000000000001 the two sizes have the same sign and
    |new| > |old|, which the table calls an INCREASE of size |new|, while
    the tracker emits UNKNOWN with size 1. *)
Lemma unknown_beyond_28_digits :
  classification_table (sign_of 1)
    (sign_of 1.00000000000000000000000000001)
    (Qabs 1.00000000000000000000000000001 ?= Qabs 1)
  = Some Events.INCREASE
  /\ exists event,
       HyperliquidTracker._compare_position "ETH" (Some (eth_position 1))
         (Some (eth_position 1.00000000000000000000000000001)) wallet_a
       = Some event
       /\ Events.event_type event = Events.UNKNOWN
       /\ Events.size event == 1
       /\ ~ Events.size event == Qabs 1.00000000000000000000000000001.
Proof.
  split; [reflexivity|].
  eexists. split; [reflexivity|]. split; [vm_compute; reflexivity|].
  cbn [Events.size]. split.
  - apply Qeq_bool_iff. vm_compute. reflexivity.
  - intros H. apply Qeq_bool_iff in H. vm_compute in H. discriminate H.
Qed.

(** The examples of the specification: 0 to +5 is an OPEN, LONG, of size 5;
    +5 to -3 is a FLIP; +5 to +5 gives no event. *)
Example classification_examples :
  let at_size q := Some {| Events.coin := "ETH"; Events.szi := Some q;
                           Events.entryPx := Some 2000 |} in
  HyperliquidTracker._compare_position "ETH" None (at_size 5) wallet_a
  = Some {| Events.event_type := Events.OPEN;
            Events.symbol := "ETH";
            Events.side := Events.LONG;
            Events.size := 5;
            Events.price := 2000;
            Events.wallet_address := wallet_a;
            Events.raw_data := at_size 5 |}
  /\ option_map Events.event_type
       (HyperliquidTracker._compare_position "ETH" (at_size 5) (at_size (-3))
          wallet_a) = Some Events.FLIP
  /\ HyperliquidTracker._compare_position "ETH" (at_size 5) (at_size 5) wallet_a
     = None.
Proof. repeat split. Qed.


(** ** The retry layer *)

Lemma after_effects_app es1 es2 self :
  after_effects (es1 ++ es2) self = after_effects es2 (after_effects es1 self).
Proof. apply fold_left_app. Qed.

Lemma after_effects_effects es : forall self,
  Lighter.effects (after_effects es self) = (Lighter.effects self ++ es)%list.
Proof.
  induction es as [|e es IH]; intros self; simpl.
  - now rewrite app_nil_r.
  - rewrite IH. simpl. now rewrite <- app_assoc.
Qed.

Lemma after_effects_calls es : forall self,
  Lighter.calls (after_effects es self)
  = (Lighter.calls self + length (filter is_remote es))%nat.
Proof.
  induction es as [|e es IH]; intros self; simpl.
  - lia.
  - rewrite IH. destruct e; simpl; lia.
Qed.

Lemma attempts_trace_remote c d n :
  length (filter is_remote (attempts_trace c d n)) = n.
Proof.
  induction n as [|n IH]; [reflexivity|].
  destruct n as [|n]; [reflexivity|].
  change (attempts_trace c d (S (S n)))
    with (Lighter.Remote c :: Lighter.Sleep d :: attempts_trace c d (S n)).
  cbn [filter is_remote Datatypes.length]. f_equal. exact IH.
Qed.

Lemma attempts_trace_sleeps c d n :
  filter is_sleep (attempts_trace c d n) = repeat (Lighter.Sleep d) (n - 1).
Proof.
  induction n as [|n IH]; [reflexivity|].
  destruct n as [|n]; [reflexivity|].
  change (attempts_trace c d (S (S n)))
    with (Lighter.Remote c :: Lighter.Sleep d :: attempts_trace c d (S n)).
  cbn [filter is_sleep]. rewrite IH. simpl. now rewrite Nat.sub_0_r.
Qed.

(** The loop of [_retry_operation] on a call that fails at each of the [n]
    attempts left. *)
Lemma retry_loop_all_fail {A} (c : Lighter.RemoteCall)
    (api : Lighter.LighterTrader -> nat -> outcome A) (err : nat -> PyException)
    (Hstable : forall e s, api (Lighter.record_effect e s) = api s) :
  forall (n : nat) (lo : Z) (last : option PyException) (self : Lighter.LighterTrader),
    (lo + Z.of_nat n = Lighter.max_retries self + 1)%Z ->
    (forall k, (Lighter.calls self <= k < Lighter.calls self + n)%nat ->
               api self k = Raises (err k)) ->
    Lighter.retry_loop (Lighter.remote c api) (range_from lo n) last self
    = (Raises (match n with
               | O => match last with Some e => e | None => Lighter.raise_None end
               | S m => err (Lighter.calls self + m)%nat
               end),
       after_effects (attempts_trace c (Lighter.retry_delay self) n) self).
Proof.
  induction n as [|n IH]; intros lo last self Hlo Hfail.
  - simpl. destruct last; reflexivity.
  - cbn [range_from Lighter.retry_loop].
    unfold Lighter.remote at 1.
    rewrite (Hfail (Lighter.calls self)) by lia.
    cbn [Lighter.max_retries Lighter.retry_delay Lighter.record_effect].
    destruct n as [|n].
    + replace (lo <? Lighter.max_retries self)%Z with false
        by (symmetry; apply Z.ltb_ge; lia).
      cbn. now rewrite Nat.add_0_r.
    + replace (lo <? Lighter.max_retries self)%Z with true
        by (symmetry; apply Z.ltb_lt; lia).
      unfold bind at 1. unfold Lighter.asyncio_sleep at 1.
      set (s2 := Lighter.record_effect (Lighter.Sleep (Lighter.retry_delay self))
                   (Lighter.record_effect (Lighter.Remote c) self)).
      change (attempts_trace c (Lighter.retry_delay self) (S (S n)))
        with (Lighter.Remote c :: Lighter.Sleep (Lighter.retry_delay self)
                :: attempts_trace c (Lighter.retry_delay self) (S n)).
      cbn [after_effects fold_left]. fold s2.
      specialize (IH (lo + 1)%Z (Some (err (Lighter.calls self))) s2).
      change (Lighter.retry_delay s2) with (Lighter.retry_delay self) in IH.
      change (Lighter.max_retries s2) with (Lighter.max_retries self) in IH.
      change (Lighter.calls s2) with (S (Lighter.calls self)) in IH.
      unfold after_effects in IH. rewrite IH.
      * do 2 f_equal. f_equal. lia.
      * lia.
      * intros k Hk. unfold s2. rewrite !Hstable. apply Hfail. lia.
Qed.

(** [_retry_operation] on a call that fails at every attempt: what it
    raises and the state it leaves. *)
Lemma retry_operation_all_fail {A} (c : Lighter.RemoteCall)
    (api : Lighter.LighterTrader -> nat -> outcome A) (name : string)
    (err : nat -> PyException) (self : Lighter.LighterTrader) :
  (forall e s, api (Lighter.record_effect e s) = api s) ->
  (forall k, (Lighter.calls self <= k
              < Lighter.calls self + Z.to_nat (Lighter.max_retries self))%nat ->
             api self k = Raises (err k)) ->
  Lighter._retry_operation (Lighter.remote c api) name self
  = (Raises (match Z.to_nat (Lighter.max_retries self) with
             | O => Lighter.raise_None
             | S m => err (Lighter.calls self + m)%nat
             end),
     after_effects (attempts_trace c (Lighter.retry_delay self)
                      (Z.to_nat (Lighter.max_retries self))) self).
Proof.
  intros Hstable Hfail.
  unfold Lighter._retry_operation, py_range.
  replace (Z.to_nat (Lighter.max_retries self + 1 - 1))
    with (Z.to_nat (Lighter.max_retries self)) by (f_equal; lia).
  destruct (Z_le_gt_dec (Lighter.max_retries self) 0) as [Hle | Hgt].
  - replace (Z.to_nat (Lighter.max_retries self)) with O by lia. reflexivity.
  - apply (retry_loop_all_fail c api err Hstable _ 1%Z None self).
    + lia.
    + exact Hfail.
Qed.

(** C5. A remote call that fails on every attempt is attempted exactly
    [max_retries] times (no time when [max_retries] is not positive), with
    a sleep of [retry_delay] seconds between two attempts and none after
    the last; [_retry_operation] then raises, and what it raises is the
    error of the last attempt.  The defaults are 5 attempts and 3 seconds
    ([Lighter.init]). *)
Theorem retry_operation_exhausted {A} (c : Lighter.RemoteCall)
    (api : Lighter.LighterTrader -> nat -> outcome A) (name : string)
    (err : nat -> PyException) (self : Lighter.LighterTrader) :
  (forall e s, api (Lighter.record_effect e s) = api s) ->
  (forall k, (Lighter.calls self <= k
              < Lighter.calls self + Z.to_nat (Lighter.max_retries self))%nat ->
             api self k = Raises (err k)) ->
  let n := Z.to_nat (Lighter.max_retries self) in
  let result := Lighter._retry_operation (Lighter.remote c api) name self in
  let added := attempts_trace c (Lighter.retry_delay self) n in
  (exists e, fst result = Raises e
             /\ ((0 < n)%nat -> e = err (Lighter.calls self + n - 1)%nat))
  /\ Lighter.effects (snd result) = (Lighter.effects self ++ added)%list
  /\ length (filter is_remote added) = n
  /\ filter is_sleep added = repeat (Lighter.Sleep (Lighter.retry_delay self)) (n - 1).
Proof.
  intros Hstable Hfail n result added.
  assert (Hrun : result
                 = (Raises (match n with
                            | O => Lighter.raise_None
                            | S m => err (Lighter.calls self + m)%nat
                            end),
                    after_effects added self))
    by (apply retry_operation_all_fail; assumption).
  rewrite Hrun. cbn [fst snd]. repeat split.
  - eexists. split; [reflexivity|].
    intros Hpos. destruct n as [|m]; [lia|]. f_equal. lia.
  - apply after_effects_effects.
  - apply attempts_trace_remote.
  - apply attempts_trace_sleeps.
Qed.

(** With the defaults, five attempts and four sleeps of three seconds. *)
Lemma retry_operation_exhausted_witness :
  let result := Lighter._retry_operation Lighter.account_api_account
                  "account" unreachable_trader in
  (exists e, fst result = Raises e /\ ((0 < 5)%nat -> e = venue_down))
  /\ Lighter.effects (snd result)
     = [Lighter.Remote Lighter.AccountCall; Lighter.Sleep 3;
        Lighter.Remote Lighter.AccountCall; Lighter.Sleep 3;
        Lighter.Remote Lighter.AccountCall; Lighter.Sleep 3;
        Lighter.Remote Lighter.AccountCall; Lighter.Sleep 3;
        Lighter.Remote Lighter.AccountCall]
  /\ length (filter is_remote
               (attempts_trace Lighter.AccountCall 3 5)) = 5%nat
  /\ filter is_sleep (attempts_trace Lighter.AccountCall 3 5)
     = repeat (Lighter.Sleep 3) 4.
Proof.
  exact (retry_operation_exhausted Lighter.AccountCall Lighter.account_api
           "account" (fun _ => venue_down) unreachable_trader
           (fun e s => eq_refl) (fun k _ => eq_refl)).
Defined.

(** ** What a computation leaves alone *)

Lemma keeps_ret {S A X} (f : S -> X) (a : A) : keeps f (ret a).
Proof. intros s. reflexivity. Qed.

Lemma keeps_raise {S A X} (f : S -> X) (e : PyException) : keeps f (@raise S A e).
Proof. intros s. reflexivity. Qed.

Lemma keeps_of_outcome {S A X} (f : S -> X) (o : outcome A) :
  keeps f (@of_outcome S A o).
Proof. intros s. reflexivity. Qed.

Lemma keeps_bind {S A B X} (f : S -> X) (m : M S A) (k : A -> M S B) :
  keeps f m -> (forall a, keeps f (k a)) -> keeps f (bind m k).
Proof.
  intros Hm Hk s. unfold bind. specialize (Hm s).
  destruct (m s) as [[a | e] s']; simpl in *.
  - rewrite Hk. exact Hm.
  - exact Hm.
Qed.

Lemma keeps_try_except {S A X} (f : S -> X) (m : M S A)
    (h : PyException -> M S A) :
  keeps f m -> (forall e, keeps f (h e)) -> keeps f (try_except m h).
Proof.
  intros Hm Hh s. unfold try_except. specialize (Hm s).
  destruct (m s) as [[a | e] s']; simpl in *.
  - exact Hm.
  - rewrite Hh. exact Hm.
Qed.

Create HintDb keeps.

#[export] Hint Resolve keeps_ret keeps_raise keeps_of_outcome : keeps.

(** Splits a computation along its binds, handlers and case analyses and
    closes the leaves with the [keeps] hints. *)
Ltac keeps_step :=
  match goal with
  | |- keeps _ (bind _ _) => apply keeps_bind; [| intros ?]
  | |- keeps _ (try_except _ _) => apply keeps_try_except; [| intros ?]
  | |- keeps _ (match ?x with _ => _ end) => destruct x
  | |- keeps _ _ => solve [auto with keeps]
  end.

Ltac keeps_tac := repeat keeps_step.

Lemma orders_record_effect e self :
  orders (Lighter.record_effect e self) = (orders self ++ filter is_order [e])%list.
Proof. unfold orders. simpl. apply filter_app. Qed.

Lemma keeps_orders_sleep d : keeps orders (Lighter.asyncio_sleep d).
Proof.
  intros s. simpl. rewrite orders_record_effect. simpl. apply app_nil_r.
Qed.

Lemma keeps_orders_account : keeps orders Lighter.account_api_account.
Proof.
  intros s. simpl. rewrite orders_record_effect. simpl. apply app_nil_r.
Qed.

Lemma keeps_orders_order_book mi :
  keeps orders (Lighter.order_api_order_book_orders mi).
Proof.
  intros s. simpl. rewrite orders_record_effect. simpl. apply app_nil_r.
Qed.

Lemma keeps_retry_loop {A X} (f : Lighter.LighterTrader -> X)
    (op : M Lighter.LighterTrader A) :
  keeps f op -> (forall d, keeps f (Lighter.asyncio_sleep d)) ->
  forall attempts last, keeps f (Lighter.retry_loop op attempts last).
Proof.
  intros Hop Hsleep attempts.
  induction attempts as [|attempt rest IH]; intros last s.
  - simpl. destruct last; reflexivity.
  - cbn [Lighter.retry_loop]. specialize (Hop s).
    destruct (op s) as [[a | e] s']; simpl in Hop; [exact Hop|].
    rewrite <- Hop.
    apply (keeps_bind f); [| intros _; apply IH].
    destruct (attempt <? Lighter.max_retries s')%Z; auto with keeps.
Qed.

Lemma keeps_retry_operation {A X} (f : Lighter.LighterTrader -> X)
    (op : M Lighter.LighterTrader A) (name : string) :
  keeps f op -> (forall d, keeps f (Lighter.asyncio_sleep d)) ->
  keeps f (Lighter._retry_operation op name).
Proof.
  intros Hop Hsleep s. unfold Lighter._retry_operation.
  now apply keeps_retry_loop.
Qed.

#[export] Hint Resolve keeps_orders_sleep keeps_orders_account
  keeps_orders_order_book : keeps.

Lemma keeps_orders_get_account_info : keeps orders Lighter.get_account_info.
Proof.
  unfold Lighter.get_account_info.
  apply keeps_try_except; [| intros ?; auto with keeps].
  apply keeps_bind.
  - apply keeps_retry_operation; auto with keeps.
  - intros result s. destruct result as [[|account rest]|]; reflexivity.
Qed.

Lemma keeps_orders_get_balance : keeps orders Lighter.get_balance.
Proof.
  unfold Lighter.get_balance.
  apply keeps_bind; [apply keeps_orders_get_account_info|].
  intros [info|]; auto with keeps.
Qed.

Lemma keeps_orders_get_positions : keeps orders Lighter.get_positions.
Proof.
  unfold Lighter.get_positions.
  apply keeps_try_except; [| intros ?; auto with keeps].
  apply keeps_bind.
  - apply keeps_retry_operation; auto with keeps.
  - intros result. destruct result as [[|account rest]|]; auto with keeps.
Qed.

Lemma keeps_orders_get_market_price symbol :
  keeps orders (Lighter.get_market_price symbol).
Proof.
  unfold Lighter.get_market_price.
  apply keeps_try_except; [| intros ?; auto with keeps].
  apply keeps_bind; [auto with keeps|]. intros mi.
  apply keeps_bind.
  - apply keeps_retry_operation; auto with keeps.
  - intros [book|]; keeps_tac.
Qed.

#[export] Hint Resolve keeps_orders_get_balance keeps_orders_get_positions
  keeps_orders_get_market_price : keeps.

(** ** Symbols outside the market table *)

Lemma lookup_market_table (name : string) :
  Lighter.lookup_market name <> None <-> name = "BTC" \/ name = "ETH".
Proof.
  unfold Lighter.lookup_market, Lighter.MARKET_INDEX. cbn [find fst].
  destruct (String.eqb_spec "BTC" name) as [Hb | Hb].
  - split; [auto | discriminate].
  - destruct (String.eqb_spec "ETH" name) as [He | He].
    + split; [auto | discriminate].
    + split; [congruence|]. intros [H | H]; congruence.
Qed.

Lemma unmapped_lookup (symbol : string) :
  Lighter.clean_symbol symbol <> "BTC" ->
  Lighter.clean_symbol symbol <> "ETH" ->
  Lighter.lookup_market (Lighter.clean_symbol symbol) = None.
Proof.
  intros Hb He.
  destruct (Lighter.lookup_market (Lighter.clean_symbol symbol)) eqn:E;
    [|reflexivity].
  assert (H : Lighter.lookup_market (Lighter.clean_symbol symbol) <> None)
    by (rewrite E; discriminate).
  apply lookup_market_table in H. tauto.
Qed.

Lemma unmapped_get_market_price (symbol : string) (self : Lighter.LighterTrader) :
  Lighter.lookup_market (Lighter.clean_symbol symbol) = None ->
  Lighter.get_market_price symbol self = (Returns None, self).
Proof.
  intros H.
  unfold Lighter.get_market_price, try_except, bind, of_outcome,
    Lighter._get_market_index.
  rewrite H. reflexivity.
Qed.

Lemma unmapped_place_market_order (symbol : string) (side : Lighter.OrderSide)
    (size : Q) (reduce_only : bool) (max_slippage : Q)
    (self : Lighter.LighterTrader) :
  Lighter.lookup_market (Lighter.clean_symbol symbol) = None ->
  Lighter.place_market_order symbol side size reduce_only max_slippage self
  = (Returns (Lighter.failed ("未知的交易對: " ++ symbol)), self).
Proof.
  intros H.
  unfold Lighter.place_market_order, try_except, bind, of_outcome,
    Lighter._get_market_index.
  rewrite H. reflexivity.
Qed.

Lemma unmapped_keeps_orders_place (symbol : string) side size reduce_only slippage :
  Lighter.lookup_market (Lighter.clean_symbol symbol) = None ->
  keeps orders (Lighter.place_market_order symbol side size reduce_only slippage).
Proof.
  intros H s. now rewrite unmapped_place_market_order.
Qed.

Lemma unmapped_keeps_orders_close (symbol : string) :
  Lighter.lookup_market (Lighter.clean_symbol symbol) = None ->
  keeps orders (Lighter.close_position symbol).
Proof.
  intros H. unfold Lighter.close_position.
  apply keeps_try_except; [| intros ?; auto with keeps].
  apply keeps_bind; [auto with keeps|]. intros positions.
  destruct (find _ positions); [| auto with keeps].
  now apply unmapped_keeps_orders_place.
Qed.

(** ** The engine and the orders of its trader *)

Lemma keeps_trader_orders_on_db {A} (m : M Db.DatabaseManager A) :
  keeps trader_orders (Strategy.on_db m).
Proof.
  intros s. unfold Strategy.on_db. destruct (m (Strategy.db_manager s)).
  reflexivity.
Qed.

Lemma keeps_trader_orders_on_trader {A} (m : M Lighter.LighterTrader A) :
  keeps orders m -> keeps trader_orders (Strategy.on_trader m).
Proof.
  intros Hm s. unfold Strategy.on_trader. specialize (Hm (Strategy.lighter_trader s)).
  destruct (m (Strategy.lighter_trader s)). exact Hm.
Qed.

Lemma keeps_trader_orders_time : keeps trader_orders Strategy.time_time.
Proof. intros s. reflexivity. Qed.

Lemma keeps_trader_orders_read {A}
    (f : Strategy.StrategyEngine Lighter.LighterTrader -> A) :
  keeps trader_orders (Strategy.read f).
Proof. intros s. reflexivity. Qed.

#[export] Hint Resolve keeps_trader_orders_on_db keeps_trader_orders_on_trader
  keeps_trader_orders_time keeps_trader_orders_read : keeps.

Lemma keeps_trader_orders_get_my_balance :
  keeps trader_orders (Strategy._get_my_balance Strategy.LighterTrader).
Proof.
  unfold Strategy._get_my_balance. keeps_tac.
Qed.

#[export] Hint Resolve keeps_trader_orders_get_my_balance : keeps.

Lemma keeps_trader_orders_should_follow event :
  keeps trader_orders (Strategy.should_follow Strategy.LighterTrader event).
Proof.
  unfold Strategy.should_follow, Strategy.check_position_lock. keeps_tac.
Qed.

Lemma keeps_trader_orders_follow_params event :
  keeps trader_orders (Strategy.calculate_follow_params Strategy.LighterTrader event).
Proof.
  unfold Strategy.calculate_follow_params, Strategy._calculate_flip_params,
    Strategy._calculate_close_params, Strategy._calculate_increase_params,
    Strategy._calculate_open_params, Strategy._calculate_decrease_params,
    Strategy.calculate_follow_size.
  keeps_tac.
Qed.

Lemma keeps_trader_orders_update event size side is_close :
  keeps trader_orders
    (Strategy._update_position_in_db (T := Lighter.LighterTrader)
       event size side is_close).
Proof.
  unfold Strategy._update_position_in_db. keeps_tac.
Qed.

#[export] Hint Resolve keeps_trader_orders_should_follow
  keeps_trader_orders_follow_params keeps_trader_orders_update : keeps.

Lemma unmapped_keeps_orders_execute event size side :
  Lighter.lookup_market (Lighter.clean_symbol (Events.symbol event)) = None ->
  keeps trader_orders
    (Strategy.execute_follow Strategy.LighterTrader event size side).
Proof.
  intros H. unfold Strategy.execute_follow.
  apply keeps_try_except; [| intros ?; auto with keeps].
  apply keeps_bind.
  - destruct (Strategy.is_close_event event);
      apply keeps_trader_orders_on_trader; cbn.
    + now apply unmapped_keeps_orders_close.
    + now apply unmapped_keeps_orders_place.
  - intros r. keeps_tac.
Qed.

Lemma unmapped_keeps_orders_on_wallet_event event :
  Lighter.lookup_market (Lighter.clean_symbol (Events.symbol event)) = None ->
  keeps trader_orders (Strategy.on_wallet_event Strategy.LighterTrader event).
Proof.
  intros H. unfold Strategy.on_wallet_event.
  apply keeps_try_except; [| intros ?; auto with keeps].
  apply keeps_bind; [auto with keeps|]. intros [should reason].
  destruct (negb should); [auto with keeps|].
  apply keeps_bind; [auto with keeps|]. intros [follow_size follow_side].
  destruct (Qleb follow_size 0); [auto with keeps|].
  now apply unmapped_keeps_orders_execute.
Qed.



(** ** The stored position after a follow *)

(** The call [add_position(position_data)] passes one argument to a method
    of five: it raises before the store is touched, and
    [_update_position_in_db] swallows what it raises. *)
Lemma update_position_never_upserts {T} (event : Events.PositionEvent)
    (size : Q) (side : Lighter.OrderSide) (self : Strategy.StrategyEngine T) :
  Strategy._update_position_in_db event size side false self = (Returns tt, self).
Proof.
  unfold Strategy._update_position_in_db, try_except, bind, Strategy.on_db.
  cbn. destruct self; reflexivity.
Qed.

(** C1. An OPEN event of a tracked, enabled wallet on an unlocked symbol,
    with a funded account, a price and an accepted order: the engine
    returns FOLLOW, and the store holds no mirrored position afterwards. *)
Theorem open_follow_not_persisted :
  let run := Strategy.on_wallet_event Strategy.LighterTrader
               (open_btc wallet_a) engine0 in
  (exists r, fst run = Returns r
             /\ Strategy.decision r = Strategy.FOLLOW
             /\ Strategy.follow_side r = Some Lighter.BUY
             /\ option_map Lighter.success (Strategy.order_result r) = Some true)
  /\ Db.positions (Strategy.db_manager (snd run)) = []
  /\ fst (Db.get_position "BTC" (Strategy.db_manager (snd run))) = Returns None.
Proof.
  vm_compute. split; [| split; reflexivity].
  eexists. repeat split.
Qed.

(** C2. Two OPEN events on BTC, from wallet A and then from wallet B, both
    tracked and enabled: each is followed, none is skipped, and no mirrored
    position is stored after either. *)
Theorem second_wallet_also_follows :
  let first := Strategy.on_wallet_event Strategy.LighterTrader
                 (open_btc wallet_a) engine0 in
  let second := Strategy.on_wallet_event Strategy.LighterTrader
                  (open_btc wallet_b) (snd first) in
  (exists r, fst first = Returns r /\ Strategy.decision r = Strategy.FOLLOW)
  /\ (exists r, fst second = Returns r /\ Strategy.decision r = Strategy.FOLLOW)
  /\ Db.positions (Strategy.db_manager (snd first)) = []
  /\ Db.positions (Strategy.db_manager (snd second)) = []
  /\ length (trader_orders (snd second)) = 2%nat.
Proof.
  vm_compute. repeat split; eexists; repeat split.
Qed.

(** The lock itself: while a mirrored position of another wallet is stored
    for the symbol, an event of a tracked, enabled wallet is skipped with a
    reason that names the holder; neither the store's positions nor the
    trader are touched. *)
Lemma locked_symbol_is_skipped {T} (trader : Strategy.Trader T)
    (event : Events.PositionEvent) (self : Strategy.StrategyEngine T)
    (wallet : Db.WalletRow) (row : Db.PositionRow) :
  let db := Strategy.db_manager self in
  Db.faults db (Db.statements db) = None ->
  Db.faults db (S (Db.statements db)) = None ->
  find (fun w => String.eqb (Db.address w) (lower (Events.wallet_address event)))
       (Db.wallets db) = Some wallet ->
  Db.enabled wallet = true ->
  find (fun r => String.eqb (Db.symbol r) (upper (Events.symbol event)))
       (Db.positions db) = Some row ->
  lower (Db.source_wallet row) <> lower (Events.wallet_address event) ->
  exists self',
    Strategy.on_wallet_event trader event self
    = (Returns {| Strategy.decision := Strategy.SKIP;
                  Strategy.reason :=
                    Events.symbol event ++ " 已被其他錢包鎖定: "
                    ++ take 10 (lower (Db.source_wallet row)) ++ "...";
                  Strategy.follow_size := None;
                  Strategy.follow_side := None;
                  Strategy.order_result := None |}, self')
    /\ Db.positions (Strategy.db_manager self') = Db.positions db
    /\ Strategy.lighter_trader self' = Strategy.lighter_trader self.
Proof.
  intros db. subst db. destruct self as [db t dmax dstop bal upd cache clk reads].
  cbn [Strategy.db_manager Strategy.lighter_trader].
  intros F0 F1 Hwallet Henabled Hrow Hother.
  apply String.eqb_neq in Hother.
  cbv [Strategy.on_wallet_event Strategy.should_follow
       Strategy.check_position_lock try_except bind Strategy.on_db
       Db.get_wallet Db.get_position Db.log_and_reraise Db.execute ret raise
       Strategy.set_db_manager Strategy.db_manager Strategy.lighter_trader
       Db.wallets Db.positions Db.faults Db.statements negb].
  destruct db as [ws ps fs n]. cbn in F0, F1, Hwallet, Hrow.
  rewrite F0, Hwallet, Henabled, F1, Hrow, Hother.
  eexists. repeat split.
Qed.

(** For an event that is neither CLOSE nor FLIP, [execute_follow] leaves the
    store exactly as it was, whatever the trader answers. *)
Lemma follow_never_upserts {T} (trader : Strategy.Trader T)
    (event : Events.PositionEvent) (follow_size : Q)
    (follow_side : Lighter.OrderSide) (self : Strategy.StrategyEngine T) :
  Strategy.is_close_event event = false ->
  Strategy.db_manager
    (snd (Strategy.execute_follow trader event follow_size follow_side self))
  = Strategy.db_manager self.
Proof.
  intros Hopen.
  unfold Strategy.execute_follow, try_except, bind. rewrite Hopen.
  unfold Strategy.on_trader.
  destruct (Strategy.place_market_order trader _ _ _ _ _ _) as [[r | e] t'];
    [| reflexivity].
  destruct (Lighter.success r); [| reflexivity].
  rewrite update_position_never_upserts. reflexivity.
Qed.

(** For a CLOSE or FLIP event whose close order succeeds, on a store whose
    next statement runs, the result is FOLLOW and the rows of the event's
    symbol and wallet are gone. *)
Lemma close_follow_deletes {T} (trader : Strategy.Trader T)
    (event : Events.PositionEvent) (follow_size : Q)
    (follow_side : Lighter.OrderSide) (self : Strategy.StrategyEngine T)
    (r : Lighter.OrderResult) (t' : T) :
  Strategy.is_close_event event = true ->
  Strategy.close_position trader (Events.symbol event)
    (Strategy.lighter_trader self) = (Returns r, t') ->
  Lighter.success r = true ->
  let db := Strategy.db_manager self in
  Db.faults db (Db.statements db) = None ->
  let run := Strategy.execute_follow trader event follow_size follow_side self in
  fst run = Returns {| Strategy.decision := Strategy.FOLLOW;
                       Strategy.reason := "跟單成功";
                       Strategy.follow_size := Some follow_size;
                       Strategy.follow_side := Some follow_side;
                       Strategy.order_result := Some r |}
  /\ Db.positions (Strategy.db_manager (snd run))
     = filter (fun row =>
                 negb (Db.same_key (upper (Events.symbol event))
                         (lower (Events.wallet_address event)) row))
              (Db.positions db).
Proof.
  intros Hclose Hop Hsuccess db Hfault run. subst run db.
  unfold Strategy.execute_follow, try_except, bind. rewrite Hclose.
  unfold Strategy.on_trader. rewrite Hop, Hsuccess.
  cbv [Strategy._update_position_in_db try_except bind Strategy.on_db
       Db.remove_position Db.log_and_reraise Db.execute ret raise
       Strategy.set_lighter_trader Strategy.set_db_manager
       Strategy.db_manager Strategy.lighter_trader
       Db.faults Db.statements Db.positions Db.wallets Db.set_positions fst snd].
  destruct self as [[ws ps fs n] t dmax dstop bal upd cache clk reads].
  cbn in Hfault. rewrite Hfault. split; reflexivity.
Qed.

(** A failing read of the store ends in ERROR with the text of what the
    store raised. *)
Lemma store_read_error_is_error {T} (trader : Strategy.Trader T)
    (event : Events.PositionEvent) (self : Strategy.StrategyEngine T)
    (e : PyException) :
  let db := Strategy.db_manager self in
  Db.faults db (Db.statements db) = Some e ->
  let run := Strategy.on_wallet_event trader event self in
  fst run = Returns {| Strategy.decision := Strategy.ERROR;
                       Strategy.reason := exc_str e;
                       Strategy.follow_size := None;
                       Strategy.follow_side := None;
                       Strategy.order_result := None |}
  /\ Db.positions (Strategy.db_manager (snd run)) = Db.positions db.
Proof.
  intros db Hfault run. subst run db.
  cbv [Strategy.on_wallet_event Strategy.should_follow try_except bind
       Strategy.on_db Db.get_wallet Db.log_and_reraise Db.execute ret raise
       Strategy.set_db_manager Strategy.db_manager Strategy.lighter_trader
       Db.wallets Db.positions Db.faults Db.statements fst snd].
  destruct self as [[ws ps fs n] t dmax dstop bal upd cache clk reads].
  cbn in Hfault. rewrite Hfault. split; reflexivity.
Qed.

(** ** The cached balance *)

(** A read within the interval returns the cached value and does not call
    the trader. *)
Lemma balance_read_within_interval {T} (trader : Strategy.Trader T)
    (self : Strategy.StrategyEngine T) :
  Strategy.clock self (Strategy.time_reads self)
    - Strategy._balance_updated_at self
  <= Strategy._balance_cache_seconds self ->
  exists self',
    Strategy._get_my_balance trader self
    = (Returns (Strategy._my_balance self), self')
    /\ Strategy.lighter_trader self' = Strategy.lighter_trader self
    /\ Strategy._my_balance self' = Strategy._my_balance self
    /\ Strategy._balance_updated_at self' = Strategy._balance_updated_at self.
Proof.
  intros H. apply Qgtb_false_le in H.
  unfold Strategy._get_my_balance, bind, Strategy.time_time, Strategy.read.
  cbn. rewrite H. cbn. eexists. repeat split.
Qed.

(** When the interval has passed and the trader's [get_balance] raises, the
    previous value is returned and kept. *)
Lemma refresh_exception_keeps_balance {T} (trader : Strategy.Trader T)
    (self : Strategy.StrategyEngine T) (e : PyException) (t' : T) :
  Strategy._balance_cache_seconds self
  < Strategy.clock self (Strategy.time_reads self)
    - Strategy._balance_updated_at self ->
  Strategy.get_balance trader (Strategy.lighter_trader self) = (Raises e, t') ->
  exists self',
    Strategy._get_my_balance trader self
    = (Returns (Strategy._my_balance self), self')
    /\ Strategy._my_balance self' = Strategy._my_balance self
    /\ Strategy._balance_updated_at self' = Strategy._balance_updated_at self.
Proof.
  intros H Hraise. apply Qgtb_true_lt in H.
  unfold Strategy._get_my_balance, bind, Strategy.time_time, Strategy.read,
    try_except, Strategy.on_trader.
  cbn. rewrite H. cbn. rewrite Hraise. cbn. eexists. repeat split.
Qed.

(** [LighterTrader.get_balance] never raises: [get_account_info] turns every
    failure into [None], which [get_balance] turns into zero. *)
Lemma lighter_get_balance_returns (self : Lighter.LighterTrader) :
  exists b self', Lighter.get_balance self = (Returns b, self').
Proof.
  unfold Lighter.get_balance, Lighter.get_account_info.
  unfold bind at 1. unfold try_except.
  match goal with |- context [bind ?m ?k self] => destruct (bind m k self) as [[[info|] | e] s'] end;
    unfold ret; eauto.
Qed.

(** So, with this trader, a refresh always overwrites the cached value. *)
Lemma lighter_refresh_always_overwrites
    (self : Strategy.StrategyEngine Lighter.LighterTrader) :
  Strategy._balance_cache_seconds self
  < Strategy.clock self (Strategy.time_reads self)
    - Strategy._balance_updated_at self ->
  exists b t',
    Lighter.get_balance (Strategy.lighter_trader self) = (Returns b, t')
    /\ fst (Strategy._get_my_balance Strategy.LighterTrader self) = Returns b
    /\ Strategy._my_balance
         (snd (Strategy._get_my_balance Strategy.LighterTrader self)) = b.
Proof.
  intros H. apply Qgtb_true_lt in H.
  destruct (lighter_get_balance_returns (Strategy.lighter_trader self))
    as (b & t' & Hb).
  exists b, t'. split; [exact Hb|].
  unfold Strategy._get_my_balance, bind, Strategy.time_time, Strategy.read,
    try_except, Strategy.on_trader.
  cbn. rewrite H. cbn. rewrite Hb. cbn. split; reflexivity.
Qed.

(** When every attempt of the account query fails, [get_balance] answers
    zero. *)
Lemma lighter_get_balance_unreachable (self : Lighter.LighterTrader)
    (err : nat -> PyException) :
  (forall k, Lighter.account_api self k = Raises (err k)) ->
  fst (Lighter.get_balance self) = Returns 0.
Proof.
  intros Hfail.
  unfold Lighter.get_balance, Lighter.get_account_info, bind, try_except.
  unfold Lighter.account_api_account.
  rewrite (retry_operation_all_fail Lighter.AccountCall Lighter.account_api
             _ err self (fun e s => eq_refl) (fun k _ => Hfail k)).
  reflexivity.
Qed.

(** C8. The engine holds a balance of 1000 learnt a hundred seconds ago and
    the venue fails every attempt of the account query: the read performs
    the five attempts, returns 0 and stores 0 in place of 1000. *)
Theorem failed_refresh_overwrites_balance :
  let run := Strategy._get_my_balance Strategy.LighterTrader stale_engine in
  Strategy._my_balance stale_engine = 1000
  /\ fst run = Returns 0
  /\ Strategy._my_balance (snd run) = 0
  /\ Strategy._balance_updated_at (snd run) = 1700000100
  /\ Lighter.effects (Strategy.lighter_trader (snd run))
     = attempts_trace Lighter.AccountCall 3 5.
Proof.
  vm_compute. repeat split.
Qed.

(** ** Failed executions *)

(** C4. When the execution operation invoked for an event fails, by a
    result with [success = False] or by an exception, [execute_follow]
    returns a result of decision ERROR whose reason carries the execution
    error, and the store is left exactly as it was. *)
Theorem failed_order_leaves_store {T} (trader : Strategy.Trader T)
    (event : Events.PositionEvent) (follow_size : Q)
    (follow_side : Lighter.OrderSide) (self : Strategy.StrategyEngine T)
    (o : outcome Lighter.OrderResult) (t' : T) :
  attempted_order trader event follow_size follow_side
    (Strategy.lighter_trader self) = (o, t') ->
  order_failed o ->
  let run := Strategy.execute_follow trader event follow_size follow_side self in
  fst run = Returns {| Strategy.decision := Strategy.ERROR;
                       Strategy.reason := execution_error o;
                       Strategy.follow_size := None;
                       Strategy.follow_side := None;
                       Strategy.order_result := returned_result o |}
  /\ Strategy.db_manager (snd run) = Strategy.db_manager self
  /\ Db.positions (Strategy.db_manager (snd run))
     = Db.positions (Strategy.db_manager self).
Proof.
  intros Hop Hfail run. subst run.
  unfold attempted_order in Hop.
  unfold Strategy.execute_follow, try_except, bind.
  destruct (Strategy.is_close_event event);
    unfold Strategy.on_trader; rewrite Hop;
    destruct o as [r | e]; cbn in Hfail |- *;
    try rewrite Hfail; cbn; repeat split.
Qed.

Lemma failed_order_leaves_store_witness :
  let run := Strategy.execute_follow Strategy.LighterTrader open_doge 1
               Lighter.BUY engine0 in
  fst run = Returns {| Strategy.decision := Strategy.ERROR;
                       Strategy.reason := "下單失敗: 未知的交易對: DOGE";
                       Strategy.follow_size := None;
                       Strategy.follow_side := None;
                       Strategy.order_result :=
                         Some (Lighter.failed "未知的交易對: DOGE") |}
  /\ Strategy.db_manager (snd run) = Strategy.db_manager engine0
  /\ Db.positions (Strategy.db_manager (snd run))
     = Db.positions (Strategy.db_manager engine0).
Proof.
  exact (failed_order_leaves_store Strategy.LighterTrader open_doge 1
           Lighter.BUY engine0
           (Returns (Lighter.failed "未知的交易對: DOGE")) healthy_trader
           eq_refl eq_refl).
Defined.

Lemma on_trader_db_manager {T A} (m : M T A) (self self' : Strategy.StrategyEngine T)
    (r : outcome A) :
  Strategy.on_trader m self = (r, self') ->
  Strategy.db_manager self' = Strategy.db_manager self.
Proof.
  unfold Strategy.on_trader. destruct (m (Strategy.lighter_trader self)).
  intros E. inversion E. reflexivity.
Qed.

Lemma update_position_returns {T} (event : Events.PositionEvent) (size : Q)
    (side : Lighter.OrderSide) (is_close : bool) (self : Strategy.StrategyEngine T) :
  exists self',
    Strategy._update_position_in_db event size side is_close self
    = (Returns tt, self').
Proof.
  unfold Strategy._update_position_in_db, try_except.
  match goal with |- context [match ?m self with _ => _ end] =>
    destruct (m self) as [[[] | e] s'] end; unfold ret; eauto.
Qed.

(** [execute_follow] always returns, and a result other than FOLLOW leaves
    the store as it was. *)
Lemma execute_follow_returns {T} (trader : Strategy.Trader T)
    (event : Events.PositionEvent) (follow_size : Q)
    (follow_side : Lighter.OrderSide) (self : Strategy.StrategyEngine T) :
  exists r self',
    Strategy.execute_follow trader event follow_size follow_side self
    = (Returns r, self')
    /\ (Strategy.decision r <> Strategy.FOLLOW ->
        Strategy.db_manager self' = Strategy.db_manager self).
Proof.
  unfold Strategy.execute_follow, try_except, bind.
  set (op := if Strategy.is_close_event event then _ else _).
  assert (Hdb : forall r s1, op self = (r, s1) ->
                  Strategy.db_manager s1 = Strategy.db_manager self).
  { intros r s1 E. subst op.
    destruct (Strategy.is_close_event event);
      apply on_trader_db_manager in E; exact E. }
  destruct (op self) as [[r | e] s1] eqn:E.
  - destruct (Lighter.success r).
    + destruct (update_position_returns event follow_size follow_side
                  (Strategy.is_close_event event) s1) as (s2 & Hu).
      rewrite Hu. cbn. eexists _, _. split; [reflexivity|]. cbn. congruence.
    + cbn. eexists _, _. split; [reflexivity|]. intros _. now apply (Hdb _ _ eq_refl).
  - cbn. eexists _, _. split; [reflexivity|]. intros _. now apply (Hdb _ _ eq_refl).
Qed.

Lemma keeps_stored_on_trader {T A} (m : M T A) :
  keeps (@stored_positions T) (Strategy.on_trader m).
Proof.
  intros s. unfold Strategy.on_trader. destruct (m (Strategy.lighter_trader s)).
  reflexivity.
Qed.

Lemma keeps_stored_on_db {T A} (m : M Db.DatabaseManager A) :
  keeps Db.positions m -> keeps (@stored_positions T) (Strategy.on_db m).
Proof.
  intros Hm s. unfold Strategy.on_db. specialize (Hm (Strategy.db_manager s)).
  destruct (m (Strategy.db_manager s)). exact Hm.
Qed.

Lemma keeps_positions_get_wallet address :
  keeps Db.positions (Db.get_wallet address).
Proof.
  intros db. unfold Db.get_wallet, Db.log_and_reraise, try_except, bind, Db.execute.
  destruct (Db.faults db (Db.statements db)); reflexivity.
Qed.

Lemma keeps_positions_get_position symbol :
  keeps Db.positions (Db.get_position symbol).
Proof.
  intros db. unfold Db.get_position, Db.log_and_reraise, try_except, bind, Db.execute.
  destruct (Db.faults db (Db.statements db)); reflexivity.
Qed.

Lemma keeps_stored_time {T} : keeps (@stored_positions T) Strategy.time_time.
Proof. intros s. reflexivity. Qed.

Lemma keeps_stored_read {T A} (f : Strategy.StrategyEngine T -> A) :
  keeps (@stored_positions T) (Strategy.read f).
Proof. intros s. reflexivity. Qed.

#[export] Hint Resolve keeps_stored_on_trader keeps_stored_on_db
  keeps_positions_get_wallet keeps_positions_get_position
  keeps_stored_time keeps_stored_read : keeps.

Lemma keeps_stored_get_my_balance {T} (trader : Strategy.Trader T) :
  keeps (@stored_positions T) (Strategy._get_my_balance trader).
Proof.
  unfold Strategy._get_my_balance. keeps_tac.
  all: intros s; reflexivity.
Qed.

#[export] Hint Resolve keeps_stored_get_my_balance : keeps.

Lemma keeps_stored_should_follow {T} (trader : Strategy.Trader T) event :
  keeps (@stored_positions T) (Strategy.should_follow trader event).
Proof.
  unfold Strategy.should_follow, Strategy.check_position_lock. keeps_tac.
Qed.

Lemma keeps_stored_follow_params {T} (trader : Strategy.Trader T) event :
  keeps (@stored_positions T) (Strategy.calculate_follow_params trader event).
Proof.
  unfold Strategy.calculate_follow_params, Strategy._calculate_flip_params,
    Strategy._calculate_close_params, Strategy._calculate_increase_params,
    Strategy._calculate_open_params, Strategy._calculate_decrease_params,
    Strategy.calculate_follow_size.
  keeps_tac.
Qed.

(** Through the entry point: whatever happens, a result other than FOLLOW
    leaves the stored positions as they were. *)
Lemma only_follow_changes_positions {T} (trader : Strategy.Trader T)
    (event : Events.PositionEvent) (self : Strategy.StrategyEngine T)
    (r : Strategy.FollowResult) :
  let run := Strategy.on_wallet_event trader event self in
  fst run = Returns r ->
  Strategy.decision r <> Strategy.FOLLOW ->
  stored_positions (snd run) = stored_positions self.
Proof.
  intros run. subst run.
  unfold Strategy.on_wallet_event, try_except, bind.
  pose proof (keeps_stored_should_follow trader event self) as H1.
  destruct (Strategy.should_follow trader event self)
    as [[[should reason] | e] s1]; cbn in H1; [| intros _ _; exact H1].
  destruct should; cbn [negb]; [| intros _ _; exact H1].
  pose proof (keeps_stored_follow_params trader event s1) as H2.
  destruct (Strategy.calculate_follow_params trader event s1)
    as [[[follow_size follow_side] | e] s2]; cbn in H2;
    [| intros _ _; cbn; congruence].
  destruct (Qleb follow_size 0); [intros _ _; cbn; congruence|].
  destruct (execute_follow_returns trader event follow_size follow_side s2)
    as (r' & s3 & Hrun & Hdb).
  rewrite Hrun. cbn. intros Hr Hdecision. inversion Hr; subst r'.
  unfold stored_positions in *. rewrite (Hdb Hdecision). congruence.
Qed.

(** ** Sizing *)

Lemma within_precision_eq (a b : Q) :
  a == b -> within_precision a -> within_precision b.
Proof.
  intros Hab (m & k & Hm & Ha). exists m, k. split; [exact Hm|].
  now rewrite <- Hab.
Qed.

Lemma context_round_eq (a b : Q) :
  a == b -> within_precision b -> context_round a == b.
Proof.
  intros Hab Hb. rewrite <- Hab. apply context_round_exact.
  apply (within_precision_eq b a); [symmetry; exact Hab | exact Hb].
Qed.

Lemma find_first_held (symbol : string) (before after : list Lighter.Position)
    (held : Lighter.Position) :
  none_held_for symbol before ->
  upper (Lighter.symbol held) = upper symbol ->
  find (Strategy.same_symbol symbol) (before ++ held :: after)%list = Some held.
Proof.
  intros Hbefore Hheld. induction before as [|p before IH]; cbn [app find].
  - unfold Strategy.same_symbol. rewrite Hheld, String.eqb_refl. reflexivity.
  - unfold Strategy.same_symbol at 1.
    destruct (String.eqb_spec (upper (Lighter.symbol p)) (upper symbol)) as [E|E].
    + exfalso. apply (Hbefore p); [now left | exact E].
    + apply IH. intros q Hq. apply Hbefore. now right.
Qed.

Lemma find_none_held (symbol : string) (ps : list Lighter.Position) :
  none_held_for symbol ps ->
  find (Strategy.same_symbol symbol) ps = None.
Proof.
  intros Hnone. induction ps as [|p ps IH]; cbn [find]; [reflexivity|].
  unfold Strategy.same_symbol at 1.
  destruct (String.eqb_spec (upper (Lighter.symbol p)) (upper symbol)) as [E|E].
  - exfalso. apply (Hnone p); [now left | exact E].
  - apply IH. intros q Hq. apply Hnone. now right.
Qed.

(** C6. An OPEN event for ETH of wallet A, whose cap is 500, reaches an
    engine with 10000 of its own while the venue's ETH book stands at
    3024.66 / 3024.70.  The follow notional is 500.  The price the client
    hands to the engine is 302468, a hundred times the venue's mid price
    3024.68, so the follow size is 0.001653067431926683153259187749 with
    side BUY: a hundredth of the notional divided by the venue's price. *)
Theorem open_size_at_price_without_point :
  fst (Strategy.calculate_follow_size Strategy.LighterTrader open_eth eth_engine)
  = Returns 500
  /\ (exists price,
        fst (Lighter.get_market_price "ETH" eth_trader) = Returns (Some price)
        /\ price == 302468
        /\ price == 100 * eth_mid_price)
  /\ (exists follow_size,
        fst (Strategy.calculate_follow_params Strategy.LighterTrader
               open_eth eth_engine)
        = Returns (follow_size, Lighter.BUY)
        /\ follow_size == 0.001653067431926683153259187749
        /\ decimal_div 500 eth_mid_price == 0.1653067431926683153259187749
        /\ ~ follow_size == decimal_div 500 eth_mid_price).
Proof.
  split; [vm_compute; reflexivity|]. split.
  - eexists. split; [vm_compute; reflexivity|]. split; reflexivity.
  - eexists. split; [vm_compute; reflexivity|].
    split; [reflexivity|]. split; [vm_compute; reflexivity|].
    intros H. apply Qeq_bool_iff in H. vm_compute in H. discriminate H.
Qed.

(** C7, as amended. For a DECREASE event, with [ps] the positions the
    trader reports: when [held] is the position held for the event's symbol
    and half of its size has at most 28 significant digits, the follow size
    is half of the held size and the follow side is SELL for a LONG holding
    and BUY otherwise; when no position is held for the symbol, the size is
    0, and an event that passed the eligibility checks is skipped in the
    state the positions query left, so no order operation was run. *)
Theorem decrease_sizing {T} (trader : Strategy.Trader T)
    (event : Events.PositionEvent) (self : Strategy.StrategyEngine T)
    (ps : list Lighter.Position) (t' : T) :
  Events.event_type event = Events.DECREASE ->
  Strategy.get_positions trader (Strategy.lighter_trader self) = (Returns ps, t') ->
  (forall held,
      held_for (Events.symbol event) ps held ->
      within_precision (Lighter.size held / 2) ->
      exists follow_size,
        Strategy.calculate_follow_params trader event self
        = (Returns (follow_size, reducing_side held),
           Strategy.set_lighter_trader t' self)
        /\ follow_size == Lighter.size held / 2)
  /\ (none_held_for (Events.symbol event) ps ->
      Strategy.calculate_follow_params trader event self
      = (Returns (0, Lighter.BUY), Strategy.set_lighter_trader t' self)
      /\ forall before reason,
           Strategy.should_follow trader event before
           = (Returns (true, reason), self) ->
           Strategy.on_wallet_event trader event before
           = (Returns {| Strategy.decision := Strategy.SKIP;
                         Strategy.reason := "計算後跟單數量為 0";
                         Strategy.follow_size := None;
                         Strategy.follow_side := None;
                         Strategy.order_result := None |},
              Strategy.set_lighter_trader t' self)).
Proof.
  intros Hkind Hps.
  assert (Hrun : Strategy.calculate_follow_params trader event self
                 = Strategy._calculate_decrease_params trader event self)
    by (unfold Strategy.calculate_follow_params; now rewrite Hkind).
  unfold Strategy._calculate_decrease_params, bind, Strategy.on_trader in Hrun.
  rewrite Hps in Hrun.
  split.
  - intros held (before & after & -> & Hbefore & Hheld) Hprec.
    rewrite (find_first_held _ before after held Hbefore Hheld) in Hrun.
    exists (decimal_mul (Lighter.size held) 0.5). split.
    + rewrite Hrun. unfold reducing_side.
      destruct (string_dec (Lighter.side held) "LONG") as [E|E].
      * rewrite E. reflexivity.
      * apply String.eqb_neq in E. rewrite E. reflexivity.
    + unfold decimal_mul. apply context_round_eq; [|exact Hprec].
      unfold Qdiv. apply Qmult_comp; reflexivity.
  - intros Hnone. rewrite (find_none_held _ ps Hnone) in Hrun.
    split; [exact Hrun|].
    intros before reason Hshould.
    unfold Strategy.on_wallet_event, try_except, bind.
    rewrite Hshould. cbn [negb]. rewrite Hrun. reflexivity.
Qed.

(** A held size of 2 gives a reduce order of size 1 on the selling side. *)
Lemma decrease_sizing_witness :
  exists follow_size,
    fst (Strategy.calculate_follow_params Strategy.LighterTrader
           decrease_btc holding_engine)
    = Returns (follow_size, Lighter.SELL)
    /\ follow_size == 1.
Proof.
  destruct (decrease_sizing Strategy.LighterTrader decrease_btc holding_engine
              [held_btc] (snd (Lighter.get_positions holding_trader))
              eq_refl eq_refl) as [Hheld _].
  destruct (Hheld held_btc) as (follow_size & Hrun & Hhalf).
  - exists [], []. split; [reflexivity|]. split; [|reflexivity].
    intros p [].
  - exists 1%Z, 0%Z. split; [reflexivity | reflexivity].
  - exists follow_size. split.
    + rewrite Hrun. reflexivity.
    + rewrite Hhalf. reflexivity.
Defined.

(** C7, as stated, fails beyond the precision of the context: with
    3333333333333333333333333333 BTC held long, half of the holding has 29
    significant digits, and the follow size of a DECREASE event is
    1666666666666666666666666666, not half of the held size. *)
Lemma decrease_of_odd_holding_is_rounded :
  fst (Lighter.get_positions odd_trader) = Returns [held_odd]
  /\ exists follow_size,
       fst (Strategy.calculate_follow_params Strategy.LighterTrader
              decrease_btc odd_engine)
       = Returns (follow_size, Lighter.SELL)
       /\ follow_size == 1666666666666666666666666666
       /\ ~ follow_size == Lighter.size held_odd / 2.
Proof.
  split; [vm_compute; reflexivity|].
  eexists. split; [vm_compute; reflexivity|]. split; [reflexivity|].
  intros H. apply Qeq_bool_iff in H. vm_compute in H. discriminate H.
Qed.

(** ** The entry point never raises *)

Lemma triple_ret {S A} (I : S -> Prop) (a : A) (Q : A -> Prop) E :
  Q a -> triple I (ret a) Q E.
Proof. intros HQ s Hs. split; assumption. Qed.

Lemma triple_raise {S A} (I : S -> Prop) (e : PyException) (Q : A -> Prop)
    (E : PyException -> Prop) :
  E e -> triple I (@raise S A e) Q E.
Proof. intros HE s Hs. split; assumption. Qed.

Lemma triple_bind {S A B} (I : S -> Prop) (m : M S A) (k : A -> M S B)
    (Q1 : A -> Prop) (Q : B -> Prop) E :
  triple I m Q1 E -> (forall a, Q1 a -> triple I (k a) Q E) ->
  triple I (bind m k) Q E.
Proof.
  intros Hm Hk s Hs. unfold bind. destruct (Hm s Hs) as [HI Hout].
  destruct (m s) as [[a | e] s']; cbn in *.
  - apply (Hk a Hout s' HI).
  - split; assumption.
Qed.

Lemma triple_try_except {S A} (I : S -> Prop) (m : M S A)
    (h : PyException -> M S A) (Q : A -> Prop) (E1 E : PyException -> Prop) :
  triple I m Q E1 -> (forall e, E1 e -> triple I (h e) Q E) ->
  triple I (try_except m h) Q E.
Proof.
  intros Hm Hh s Hs. unfold try_except. destruct (Hm s Hs) as [HI Hout].
  destruct (m s) as [[a | e] s']; cbn in *.
  - split; assumption.
  - apply (Hh e Hout s' HI).
Qed.

Lemma triple_weaken {S A} (I : S -> Prop) (m : M S A)
    (Q Q' : A -> Prop) (E E' : PyException -> Prop) :
  triple I m Q E -> (forall a, Q a -> Q' a) -> (forall e, E e -> E' e) ->
  triple I m Q' E'.
Proof.
  intros Hm HQ HE s Hs. destruct (Hm s Hs) as [HI Hout]. split; [exact HI|].
  destruct (fst (m s)); auto.
Qed.

Lemma append_nonempty (a b : string) : b <> "" -> a ++ b <> "".
Proof.
  intros Hb. destruct a; [exact Hb | discriminate].
Qed.

Section Texts.

Context {T : Type} (trader : Strategy.Trader T).

(** [H] stands for the assumptions under which texts are tracked. *)
Variable H : Prop.

Let store_ok (db : Db.DatabaseManager) : Prop := H -> store_raises_with_text db.

Let engine_ok (self : Strategy.StrategyEngine T) : Prop :=
  store_ok (Strategy.db_manager self).

Let text_if (e : PyException) : Prop := H -> has_text e.

Lemma triple_execute : triple store_ok Db.execute (fun _ => True) text_if.
Proof.
  intros db Hdb. unfold Db.execute.
  destruct (Db.faults db (Db.statements db)) as [e |] eqn:F; cbn.
  - split; [exact Hdb|]. intros HH. exact (Hdb HH _ _ F).
  - split; [exact Hdb | exact I].
Qed.

Lemma triple_get_wallet address :
  triple store_ok (Db.get_wallet address) (fun _ => True) text_if.
Proof.
  unfold Db.get_wallet, Db.log_and_reraise.
  eapply triple_try_except; [| intros e He; apply triple_raise; exact He].
  eapply triple_bind; [apply triple_execute|].
  intros _ _ db Hdb. split; [exact Hdb | exact I].
Qed.

Lemma triple_get_position symbol :
  triple store_ok (Db.get_position symbol) (fun _ => True) text_if.
Proof.
  unfold Db.get_position, Db.log_and_reraise.
  eapply triple_try_except; [| intros e He; apply triple_raise; exact He].
  eapply triple_bind; [apply triple_execute|].
  intros _ _ db Hdb. split; [exact Hdb | exact I].
Qed.

Lemma triple_on_db {A} (m : M Db.DatabaseManager A) (Q : A -> Prop) E :
  triple store_ok m Q E -> triple engine_ok (Strategy.on_db m) Q E.
Proof.
  intros Hm s Hs. unfold Strategy.on_db.
  destruct (Hm (Strategy.db_manager s) Hs) as [HI Hout].
  destruct (m (Strategy.db_manager s)) as [r d]. cbn in *. split; assumption.
Qed.

(** Any call on the store keeps the invariant, whatever it returns. *)
Lemma on_db_keeps_faults {A} (m : M Db.DatabaseManager A) :
  (forall db, Db.faults (snd (m db)) = Db.faults db) ->
  triple engine_ok (Strategy.on_db m) (fun _ => True) (fun _ => True).
Proof.
  intros Hm s Hs. unfold Strategy.on_db. specialize (Hm (Strategy.db_manager s)).
  destruct (m (Strategy.db_manager s)) as [r d]. cbn in *.
  split; [| destruct r; exact I].
  unfold engine_ok, store_ok, store_raises_with_text in *. cbn.
  rewrite Hm. exact Hs.
Qed.

Lemma triple_on_trader {A} (m : M T A) (Q : A -> Prop) (E : PyException -> Prop) :
  (forall t, match fst (m t) with Returns a => Q a | Raises e => E e end) ->
  triple engine_ok (Strategy.on_trader m) Q E.
Proof.
  intros Hm s Hs. unfold Strategy.on_trader.
  specialize (Hm (Strategy.lighter_trader s)).
  destruct (m (Strategy.lighter_trader s)) as [r t]. cbn in *.
  split; assumption.
Qed.

Lemma triple_on_trader_any {A} (m : M T A) :
  triple engine_ok (Strategy.on_trader m) (fun _ => True) (fun _ => True).
Proof.
  apply triple_on_trader. intros t. destruct (fst (m t)); exact I.
Qed.

Lemma triple_on_trader_text {A} (m : M T A) :
  (H -> raises_with_text m) ->
  triple engine_ok (Strategy.on_trader m) (fun _ => True) text_if.
Proof.
  intros Hm. apply triple_on_trader. intros t.
  destruct (m t) as [[a | e] t'] eqn:E; cbn; [exact I|].
  intros HH. exact (Hm HH t e t' E).
Qed.

Lemma triple_time : triple engine_ok Strategy.time_time (fun _ => True) text_if.
Proof. intros s Hs. split; [exact Hs | exact I]. Qed.

Lemma triple_read {A} (f : Strategy.StrategyEngine T -> A) E :
  triple engine_ok (Strategy.read f) (fun _ => True) E.
Proof. intros s Hs. split; [exact Hs | exact I]. Qed.

Lemma triple_get_my_balance :
  triple engine_ok (Strategy._get_my_balance trader) (fun _ => True) text_if.
Proof.
  unfold Strategy._get_my_balance.
  eapply triple_bind; [apply triple_time|]. intros current_time _.
  eapply triple_bind; [apply triple_read|]. intros updated_at _.
  eapply triple_bind; [apply triple_read|]. intros cache_seconds _.
  eapply triple_bind with (Q1 := fun _ => True);
    [| intros _ _; apply triple_read].
  destruct (Qgtb _ _); [| apply triple_ret; exact I].
  eapply triple_try_except; [| intros e _; apply triple_ret; exact I].
  eapply triple_bind; [apply triple_on_trader_any|].
  intros balance _ s Hs. split; [exact Hs | exact I].
Qed.

Lemma triple_check_position_lock symbol wallet_address :
  triple engine_ok (Strategy.check_position_lock symbol wallet_address)
    (fun r => fst r = true -> snd r <> "") text_if.
Proof.
  unfold Strategy.check_position_lock.
  eapply triple_bind; [apply triple_on_db, triple_get_position|].
  intros [position |] _; [| apply triple_ret; discriminate].
  destruct (String.eqb _ _); apply triple_ret; [discriminate|].
  intros _. cbn [snd]. apply append_nonempty. discriminate.
Qed.

Lemma triple_should_follow event :
  triple engine_ok (Strategy.should_follow trader event)
    (fun r => fst r = false -> snd r <> "") text_if.
Proof.
  unfold Strategy.should_follow.
  eapply triple_bind; [apply triple_on_db, triple_get_wallet|].
  intros [wallet |] _; [| apply triple_ret; discriminate].
  destruct (negb (Db.enabled wallet)); [apply triple_ret; discriminate|].
  eapply triple_bind; [apply triple_check_position_lock|].
  intros [is_locked lock_reason] Hlock. cbn in Hlock.
  destruct is_locked; [apply triple_ret; intros _; now apply Hlock|].
  eapply triple_bind; [apply triple_get_my_balance|]. intros my_balance _.
  destruct (Qleb my_balance 0); [apply triple_ret; discriminate|].
  destruct (Events.event_type event); apply triple_ret; discriminate.
Qed.

Hypothesis trader_texts : H -> trader_raises_with_text trader.

Lemma triple_calculate_follow_size event :
  triple engine_ok (Strategy.calculate_follow_size trader event)
    (fun _ => True) text_if.
Proof.
  unfold Strategy.calculate_follow_size.
  eapply triple_bind; [apply triple_get_my_balance|]. intros my_balance _.
  destruct (Qleb my_balance 0); [apply triple_ret; exact I|].
  eapply triple_bind; [apply triple_on_db, triple_get_wallet|].
  intros [wallet |] _; [| apply triple_raise; intros _; discriminate].
  eapply triple_bind; [apply triple_read|]. intros default _.
  destruct (Qgtb _ _); apply triple_ret; exact I.
Qed.

Lemma triple_positions_then {A} (k : list Lighter.Position -> M (Strategy.StrategyEngine T) A) :
  (forall ps, triple engine_ok (k ps) (fun _ => True) text_if) ->
  triple engine_ok (bind (Strategy.on_trader (Strategy.get_positions trader)) k)
    (fun _ => True) text_if.
Proof.
  intros Hk. eapply triple_bind; [| intros ps _; apply Hk].
  apply triple_on_trader_text. intros HH. apply (trader_texts HH).
Qed.

Lemma triple_calculate_follow_params event :
  triple engine_ok (Strategy.calculate_follow_params trader event)
    (fun _ => True) text_if.
Proof.
  assert (Hclose : triple engine_ok (Strategy._calculate_close_params trader event)
                     (fun _ => True) text_if).
  { unfold Strategy._calculate_close_params. apply triple_positions_then.
    intros ps. destruct (find _ ps); [destruct (String.eqb _ _)|];
      apply triple_ret; exact I. }
  assert (Hopen : triple engine_ok (Strategy._calculate_open_params trader event)
                    (fun _ => True) text_if).
  { unfold Strategy._calculate_open_params.
    eapply triple_bind; [apply triple_calculate_follow_size|].
    intros follow_usd _.
    destruct (Qleb follow_usd 0); [apply triple_ret; exact I|].
    eapply triple_bind.
    - apply triple_on_trader_text. intros HH. apply (trader_texts HH).
    - intros [price |] _; [| apply triple_ret; exact I].
      destruct (Qleb price 0); apply triple_ret; exact I. }
  unfold Strategy.calculate_follow_params, Strategy._calculate_flip_params,
    Strategy._calculate_increase_params.
  destruct (Events.event_type event); try assumption.
  - unfold Strategy._calculate_decrease_params. apply triple_positions_then.
    intros ps. destruct (find _ ps); [destruct (String.eqb _ _)|];
      apply triple_ret; exact I.
  - apply triple_ret. exact I.
Qed.

Lemma triple_update event size side is_close :
  triple engine_ok (Strategy._update_position_in_db event size side is_close)
    (fun _ => True) (fun _ => False).
Proof.
  unfold Strategy._update_position_in_db.
  eapply triple_try_except with (E1 := fun _ => True);
    [| intros e _; apply triple_ret; exact I].
  destruct is_close.
  - eapply triple_bind; [| intros _ _; apply triple_ret; exact I].
    apply on_db_keeps_faults. intros db.
    unfold Db.remove_position, Db.log_and_reraise, try_except, bind, Db.execute.
    destruct (Db.faults db (Db.statements db)); reflexivity.
  - eapply triple_bind; [| intros _ _; apply triple_ret; exact I].
    apply on_db_keeps_faults. intros db. reflexivity.
Qed.

Lemma triple_execute_follow event follow_size follow_side :
  triple engine_ok (Strategy.execute_follow trader event follow_size follow_side)
    (sound_result H) (fun _ => False).
Proof.
  unfold Strategy.execute_follow.
  eapply triple_try_except with (E1 := text_if).
  - eapply triple_bind with (Q1 := fun _ => True).
    + destruct (Strategy.is_close_event event);
        apply triple_on_trader_text; intros HH; apply (trader_texts HH).
    + intros order_result _.
      destruct (Lighter.success order_result) eqn:Hsuccess.
      * eapply triple_bind with (Q1 := fun _ => True).
        -- eapply triple_weaken; [apply triple_update | auto | intros e []].
        -- intros _ _. apply triple_ret.
           repeat split; try discriminate.
           eexists. split; [reflexivity | exact Hsuccess].
      * apply triple_ret. repeat split; try discriminate.
  - intros e He. apply triple_ret. repeat split; try discriminate.
    exact He.
Qed.

Lemma triple_on_wallet_event event :
  triple engine_ok (Strategy.on_wallet_event trader event)
    (sound_result H) (fun _ => False).
Proof.
  unfold Strategy.on_wallet_event.
  eapply triple_try_except with (E1 := text_if).
  - eapply triple_bind; [apply triple_should_follow|].
    intros [should reason] Hreason. cbn in Hreason.
    destruct should; cbn [negb].
    + eapply triple_bind; [apply triple_calculate_follow_params|].
      intros [follow_size follow_side] _.
      destruct (Qleb follow_size 0).
      * apply triple_ret. repeat split; try discriminate.
      * eapply triple_weaken; [apply triple_execute_follow | auto | intros e []].
    + apply triple_ret. repeat split; try discriminate.
      all: intros _; now apply Hreason.
  - intros e He. apply triple_ret. repeat split; try discriminate.
    exact He.
Qed.

End Texts.

Lemma handled_never_raises {S A} (m : M S A) (fallback : PyException -> A) :
  raises_with_text (try_except m (fun e => ret (fallback e))).
Proof.
  intros s e s'. unfold try_except, ret.
  destruct (m s) as [[a | e0] s0]; discriminate.
Qed.

(** The methods of [LighterTrader] the engine uses handle every exception
    themselves. *)
Lemma lighter_trader_raises_with_text :
  trader_raises_with_text Strategy.LighterTrader.
Proof.
  repeat split; intros; apply handled_never_raises.
Qed.

(** ** Dictionaries *)

Lemma dict_get_set_same {V} (k : string) (v : V) (d : list (string * V)) :
  dict_get k (dict_set k v d) = Some v.
Proof.
  unfold dict_get. induction d as [|[k' v'] d IH]; cbn.
  - now rewrite String.eqb_refl.
  - destruct (String.eqb k' k) eqn:E; cbn; rewrite E; [reflexivity | exact IH].
Qed.

Lemma dict_get_set_other {V} (k k' : string) (v : V) (d : list (string * V)) :
  k' <> k -> dict_get k (dict_set k' v d) = dict_get k d.
Proof.
  intros Hne. unfold dict_get. induction d as [|[k0 v0] d IH]; cbn.
  - apply String.eqb_neq in Hne. now rewrite Hne.
  - destruct (String.eqb k0 k') eqn:E; cbn.
    + apply String.eqb_eq in E. subst k0.
      apply String.eqb_neq in Hne. now rewrite Hne.
    + destruct (String.eqb k0 k); [reflexivity | exact IH].
Qed.

Lemma dict_get_none_keys {V} (k : string) (d : list (string * V)) :
  dict_get k d = None <-> ~ In k (dict_keys d).
Proof.
  unfold dict_get, dict_keys. induction d as [|[k' v'] d IH]; cbn.
  - tauto.
  - destruct (String.eqb_spec k' k) as [-> | Hne]; cbn.
    + split; [discriminate | tauto].
    + rewrite IH. tauto.
Qed.

Lemma dict_keys_set {V} (k : string) (v : V) (d : list (string * V)) :
  dict_keys (dict_set k v d)
  = if existsb (String.eqb k) (dict_keys d) then dict_keys d
    else (dict_keys d ++ [k])%list.
Proof.
  unfold dict_keys. induction d as [|[k' v'] d IH]; cbn; [reflexivity|].
  rewrite (String.eqb_sym k k').
  destruct (String.eqb k' k); cbn; [reflexivity|].
  rewrite IH. destruct (existsb _ _); reflexivity.
Qed.

Lemma existsb_eqb_In (k : string) (l : list string) :
  existsb (String.eqb k) l = true <-> In k l.
Proof.
  rewrite existsb_exists. split.
  - intros (x & Hx & E). apply String.eqb_eq in E. now subst.
  - intros H. exists k. split; [exact H | apply String.eqb_refl].
Qed.

Lemma dict_set_NoDup {V} (k : string) (v : V) (d : list (string * V)) :
  NoDup (dict_keys d) -> NoDup (dict_keys (dict_set k v d)).
Proof.
  intros Hd. rewrite dict_keys_set.
  destruct (existsb (String.eqb k) (dict_keys d)) eqn:E; [exact Hd|].
  apply NoDup_app; [exact Hd | repeat constructor; intros [] |].
  intros x Hx [<- | []].
  apply existsb_eqb_In in Hx. congruence.
Qed.

(** ** Snapshots *)

Lemma find_app_first {A} (f : A -> bool) (l1 l2 : list A) :
  find f (l1 ++ l2)
  = match find f l1 with Some x => Some x | None => find f l2 end.
Proof.
  induction l1 as [|x l1 IH]; cbn; [reflexivity|].
  destruct (f x); [reflexivity | exact IH].
Qed.

Lemma carried_app (l1 l2 : list Events.AssetPosition) :
  carried (l1 ++ l2) = (carried l1 ++ carried l2)%list.
Proof. unfold carried. apply flat_map_app. Qed.

(** The step of the loop of [_positions_to_dict]. *)
Lemma positions_to_dict_snoc (ps : list Events.AssetPosition)
    (pos : Events.AssetPosition) :
  HyperliquidTracker._positions_to_dict (ps ++ [pos])
  = match Events.position pos with
    | Some p =>
        if String.eqb (Events.coin p) ""
        then HyperliquidTracker._positions_to_dict ps
        else dict_set (Events.coin p) p (HyperliquidTracker._positions_to_dict ps)
    | None => HyperliquidTracker._positions_to_dict ps
    end.
Proof.
  unfold HyperliquidTracker._positions_to_dict. rewrite fold_left_app. reflexivity.
Qed.

(** What [_positions_to_dict] holds for a coin. *)
Lemma positions_to_dict_get (positions : list Events.AssetPosition)
    (c : string) :
  dict_get c (HyperliquidTracker._positions_to_dict positions)
  = last_position c positions.
Proof.
  unfold last_position.
  induction positions as [|pos ps IH] using rev_ind.
  - cbn. destruct (String.eqb c ""); reflexivity.
  - rewrite positions_to_dict_snoc, carried_app, rev_app_distr, find_app_first.
    unfold carried at 1. cbn [flat_map].
    destruct (Events.position pos) as [p|]; cbn [app rev find].
    + destruct (String.eqb_spec (Events.coin p) c) as [Hc | Hc].
      * subst c. destruct (String.eqb (Events.coin p) "") eqn:E.
        -- rewrite IH. reflexivity.
        -- apply dict_get_set_same.
      * destruct (String.eqb (Events.coin p) "") eqn:E.
        -- exact IH.
        -- rewrite dict_get_set_other by exact Hc. exact IH.
    + exact IH.
Qed.

Lemma positions_to_dict_NoDup (positions : list Events.AssetPosition) :
  NoDup (dict_keys (HyperliquidTracker._positions_to_dict positions)).
Proof.
  induction positions as [|pos ps IH] using rev_ind.
  - constructor.
  - rewrite positions_to_dict_snoc.
    destruct (Events.position pos) as [p|]; [| exact IH].
    destruct (String.eqb (Events.coin p) ""); [exact IH|].
    now apply dict_set_NoDup.
Qed.

Lemma union_keys_NoDup (a b : list string) :
  NoDup a -> NoDup b -> NoDup (HyperliquidTracker.union_keys a b).
Proof.
  intros Ha Hb. unfold HyperliquidTracker.union_keys.
  apply NoDup_app; [exact Ha | now apply NoDup_filter |].
  intros x Hx Hf. apply filter_In in Hf. destruct Hf as [_ Hf].
  apply existsb_eqb_In in Hx. rewrite Hx in Hf. discriminate.
Qed.

Lemma union_keys_In (a b : list string) (k : string) :
  In k (HyperliquidTracker.union_keys a b) <-> In k a \/ In k b.
Proof.
  unfold HyperliquidTracker.union_keys. rewrite in_app_iff, filter_In.
  split; [tauto|]. intros [H | H]; [tauto|].
  destruct (existsb (String.eqb k) a) eqn:E.
  - left. now apply existsb_eqb_In.
  - right. split; [exact H | reflexivity].
Qed.

Lemma compare_position_event (symbol wallet : string)
    (old_pos new_pos : option Events.PositionData) (event : Events.PositionEvent) :
  HyperliquidTracker._compare_position symbol old_pos new_pos wallet = Some event ->
  Events.symbol event = symbol /\ Events.wallet_address event = wallet.
Proof.
  unfold HyperliquidTracker._compare_position.
  destruct (Qeq_bool _ _); [discriminate|].
  intros E. inversion E. split; reflexivity.
Qed.

Lemma compare_position_same (symbol wallet : string)
    (pos : option Events.PositionData) :
  HyperliquidTracker._compare_position symbol pos pos wallet = None.
Proof.
  unfold HyperliquidTracker._compare_position.
  now rewrite (proj2 (Qeq_bool_iff _ _) (Qeq_refl _)).
Qed.

(** X1. [_positions_to_dict] maps a coin to the last entry of the list that
    carries it; entries without a position or with an empty coin are
    skipped, so the empty coin is never a key, and no key is held twice. *)
Theorem positions_to_dict_last_wins (positions : list Events.AssetPosition) :
  let result := HyperliquidTracker._positions_to_dict positions in
  (forall c, dict_get c result = last_position c positions)
  /\ ~ In "" (dict_keys result)
  /\ NoDup (dict_keys result).
Proof.
  cbv zeta. split; [| split].
  - intros c. apply positions_to_dict_get.
  - apply dict_get_none_keys. rewrite positions_to_dict_get. reflexivity.
  - apply positions_to_dict_NoDup.
Qed.

(** X2. Two snapshots that carry the same list of positions give no event,
    whatever their account values and addresses. *)
Theorem detect_changes_unchanged (old_state new_state : Events.WalletState) :
  Events.positions old_state = Events.positions new_state ->
  HyperliquidTracker._detect_changes old_state new_state = [].
Proof.
  intros Hsame. unfold HyperliquidTracker._detect_changes. rewrite Hsame.
  induction (HyperliquidTracker.union_keys _ _) as [|symbol rest IH];
    [reflexivity|].
  cbn [flat_map]. now rewrite compare_position_same, IH.
Qed.

Lemma detect_changes_unchanged_witness :
  HyperliquidTracker._detect_changes
    {| Events.address := wallet_a; Events.account_value := 10000;
       Events.available_balance := 4000;
       Events.positions := [entry (eth_position 3)] |}
    {| Events.address := wallet_a; Events.account_value := 10450;
       Events.available_balance := 4450;
       Events.positions := [entry (eth_position 3)] |}
  = [].
Proof.
  apply (detect_changes_unchanged
           {| Events.address := wallet_a; Events.account_value := 10000;
              Events.available_balance := 4000;
              Events.positions := [entry (eth_position 3)] |}
           {| Events.address := wallet_a; Events.account_value := 10450;
              Events.available_balance := 4450;
              Events.positions := [entry (eth_position 3)] |}).
  reflexivity.
Defined.

Lemma flat_map_symbols_NoDup (f : string -> option Events.PositionEvent)
    (symbols : list string) :
  (forall s e, f s = Some e -> Events.symbol e = s) ->
  NoDup symbols ->
  NoDup (map Events.symbol
           (flat_map (fun s => match f s with Some e => [e] | None => [] end)
                     symbols)).
Proof.
  intros Hf Hnd. induction Hnd as [|s rest Hs Hrest IH]; [constructor|].
  cbn [flat_map]. destruct (f s) as [e|] eqn:E; [| exact IH].
  cbn. constructor; [| exact IH].
  rewrite (Hf s e E). intros Hin. apply Hs.
  apply in_map_iff in Hin. destruct Hin as (e' & He' & Hin).
  apply in_flat_map in Hin. destruct Hin as (s' & Hs' & Hin).
  destruct (f s') as [e''|] eqn:E'; [| contradiction].
  destruct Hin as [<- | []]. rewrite (Hf s' e'' E') in He'. now subst.
Qed.

(** X3. [_detect_changes] gives at most one event per symbol; every event
    carries the address of the new snapshot, and its symbol is a coin of
    the old or of the new snapshot. *)
Theorem detect_changes_one_per_symbol (old_state new_state : Events.WalletState) :
  let events := HyperliquidTracker._detect_changes old_state new_state in
  NoDup (map Events.symbol events)
  /\ forall event, In event events ->
       Events.wallet_address event = Events.address new_state
       /\ (last_position (Events.symbol event) (Events.positions old_state) <> None
           \/ last_position (Events.symbol event) (Events.positions new_state) <> None).
Proof.
  cbv zeta. unfold HyperliquidTracker._detect_changes. split.
  - apply flat_map_symbols_NoDup.
    + intros s e He. now apply compare_position_event in He.
    + apply union_keys_NoDup; apply positions_to_dict_NoDup.
  - intros event Hin. apply in_flat_map in Hin.
    destruct Hin as (s & Hs & Hin).
    destruct (HyperliquidTracker._compare_position _ _ _ _) as [e|] eqn:E;
      [| contradiction].
    destruct Hin as [<- | []].
    apply compare_position_event in E. destruct E as [-> ->].
    split; [reflexivity|].
    apply union_keys_In in Hs. rewrite <- !positions_to_dict_get.
    destruct Hs as [Hs | Hs]; [left | right]; intros Hnone;
      apply dict_get_none_keys in Hnone; contradiction.
Qed.

(** X4. A symbol the old snapshot holds with a size that is not zero and
    the new snapshot no longer lists gives a CLOSE event whose side is that
    of the old position and whose size and price are both zero. *)
Theorem vanished_symbol_closes (old_state new_state : Events.WalletState)
    (p : Events.PositionData) (q : Q) :
  last_position (Events.coin p) (Events.positions old_state) = Some p ->
  Events.szi p = Some q ->
  ~ q == 0 ->
  last_position (Events.coin p) (Events.positions new_state) = None ->
  In {| Events.event_type := Events.CLOSE;
        Events.symbol := Events.coin p;
        Events.side := if Qgtb q 0 then Events.LONG else Events.SHORT;
        Events.size := 0;
        Events.price := 0;
        Events.wallet_address := Events.address new_state;
        Events.raw_data := None |}
     (HyperliquidTracker._detect_changes old_state new_state).
Proof.
  intros Hold Hszi Hq Hnew.
  unfold HyperliquidTracker._detect_changes.
  apply in_flat_map. exists (Events.coin p). split.
  - apply union_keys_In. left.
    destruct (in_dec string_dec (Events.coin p)
                (dict_keys (HyperliquidTracker._positions_to_dict
                              (Events.positions old_state)))) as [Hin | Hout];
      [exact Hin|].
    apply dict_get_none_keys in Hout.
    rewrite positions_to_dict_get, Hold in Hout. discriminate.
  - rewrite !positions_to_dict_get, Hold, Hnew.
    unfold HyperliquidTracker._compare_position,
      HyperliquidTracker._determine_event_type,
      HyperliquidTracker.decimal_field.
    rewrite Hszi, (Qeq_bool_false q 0 Hq). cbn. left. reflexivity.
Qed.

Lemma vanished_symbol_closes_witness :
  In {| Events.event_type := Events.CLOSE;
        Events.symbol := "ETH";
        Events.side := Events.SHORT;
        Events.size := 0;
        Events.price := 0;
        Events.wallet_address := wallet_a;
        Events.raw_data := None |}
     (HyperliquidTracker._detect_changes
        (snapshot_of wallet_a (eth_reply (-3)))
        (snapshot_of wallet_a flat_reply)).
Proof.
  apply (vanished_symbol_closes
           (snapshot_of wallet_a (eth_reply (-3)))
           (snapshot_of wallet_a flat_reply)
           (eth_position (-3)) (-3)).
  - reflexivity.
  - reflexivity.
  - intros H. discriminate H.
  - reflexivity.
Defined.

(** ** Polling *)

Lemma get_wallet_state_run (address : string) (self : HyperliquidTracker.Tracker) :
  let run := HyperliquidTracker.get_wallet_state address self in
  fst run = match HyperliquidTracker.info_user_state self address
                    (HyperliquidTracker.queries self) with
            | Returns user_state => Returns (snapshot_of address user_state)
            | Raises e => Raises e
            end
  /\ same_setting self (snd run)
  /\ HyperliquidTracker.queries (snd run) = S (HyperliquidTracker.queries self)
  /\ HyperliquidTracker._last_states (snd run) = HyperliquidTracker._last_states self
  /\ HyperliquidTracker.delivered (snd run) = HyperliquidTracker.delivered self.
Proof.
  unfold HyperliquidTracker.get_wallet_state, same_setting.
  destruct (HyperliquidTracker.info_user_state self address _) as [us | e];
    cbn; repeat split.
Qed.

Lemma callback_returns_ext (s s' : HyperliquidTracker.Tracker)
    (event : Events.PositionEvent) :
  HyperliquidTracker.on_event s' = HyperliquidTracker.on_event s ->
  callback_returns s event -> callback_returns s' event.
Proof.
  intros Heq H callback Hcb. apply H. now rewrite <- Heq.
Qed.

Lemma callback_raises_ext (s s' : HyperliquidTracker.Tracker)
    (event : Events.PositionEvent) :
  HyperliquidTracker.on_event s' = HyperliquidTracker.on_event s ->
  callback_raises s event -> callback_raises s' event.
Proof.
  intros Heq (callback & e & Hcb & He). exists callback, e.
  split; [now rewrite Heq | exact He].
Qed.

Lemma deliver_frame (event : Events.PositionEvent)
    (self : HyperliquidTracker.Tracker) :
  let run := HyperliquidTracker.deliver event self in
  same_setting self (snd run)
  /\ HyperliquidTracker.queries (snd run) = HyperliquidTracker.queries self
  /\ HyperliquidTracker._last_states (snd run)
     = HyperliquidTracker._last_states self.
Proof.
  unfold same_setting, HyperliquidTracker.deliver.
  destruct (HyperliquidTracker.on_event self) eqn:Hcb; cbn; rewrite ?Hcb; tauto.
Qed.

Lemma deliver_returns (event : Events.PositionEvent)
    (self : HyperliquidTracker.Tracker) :
  callback_returns self event ->
  let run := HyperliquidTracker.deliver event self in
  fst run = Returns tt
  /\ HyperliquidTracker.delivered (snd run) = delivered_after self [event].
Proof.
  unfold callback_returns, delivered_after, HyperliquidTracker.deliver.
  intros H. destruct (HyperliquidTracker.on_event self) as [callback|]; cbn.
  - split; [now apply H | reflexivity].
  - split; reflexivity.
Qed.

Lemma deliver_raises (event : Events.PositionEvent)
    (self : HyperliquidTracker.Tracker) :
  callback_raises self event ->
  exists e, fst (HyperliquidTracker.deliver event self) = Raises e.
Proof.
  unfold callback_raises, HyperliquidTracker.deliver.
  intros (callback & e & Hcb & He). rewrite Hcb. cbn. eauto.
Qed.

Lemma deliver_delivered (event : Events.PositionEvent)
    (self : HyperliquidTracker.Tracker) :
  HyperliquidTracker.delivered (snd (HyperliquidTracker.deliver event self))
  = delivered_after self [event].
Proof.
  unfold delivered_after, HyperliquidTracker.deliver.
  destruct (HyperliquidTracker.on_event self); reflexivity.
Qed.

Lemma deliver_all_frame (events : list Events.PositionEvent) :
  forall self,
    let run := HyperliquidTracker.deliver_all events self in
    same_setting self (snd run)
    /\ HyperliquidTracker.queries (snd run) = HyperliquidTracker.queries self
    /\ HyperliquidTracker._last_states (snd run)
       = HyperliquidTracker._last_states self.
Proof.
  induction events as [|event rest IH]; intros self; cbn zeta.
  - cbn. unfold same_setting. tauto.
  - cbn [HyperliquidTracker.deliver_all]. unfold bind.
    pose proof (deliver_frame event self) as F. cbv zeta in F.
    destruct (HyperliquidTracker.deliver event self) as [[[] | e] s1].
    + specialize (IH s1). cbv zeta in IH. unfold same_setting in *.
      cbn [snd] in F. intuition congruence.
    + exact F.
Qed.

Lemma deliver_all_returns (events : list Events.PositionEvent) :
  forall self,
    Forall (callback_returns self) events ->
    let run := HyperliquidTracker.deliver_all events self in
    fst run = Returns tt
    /\ HyperliquidTracker.delivered (snd run) = delivered_after self events.
Proof.
  induction events as [|event rest IH]; intros self Hall; cbn zeta.
  - cbn. unfold delivered_after. split; [reflexivity|].
    destruct (HyperliquidTracker.on_event self);
      [now rewrite app_nil_r | reflexivity].
  - inversion Hall as [|x l Hx Hl]; subst.
    cbn [HyperliquidTracker.deliver_all]. unfold bind.
    pose proof (deliver_frame event self) as F. cbv zeta in F.
    pose proof (deliver_returns event self Hx) as R. cbv zeta in R.
    destruct (HyperliquidTracker.deliver event self) as [o s1].
    cbn [fst snd] in F, R. destruct R as [-> Hd].
    destruct F as ((_ & _ & Hcb) & _ & _).
    destruct (IH s1) as [Hr Hd'].
    + eapply Forall_impl; [| exact Hl].
      intros ev. apply callback_returns_ext. exact Hcb.
    + split; [exact Hr|]. rewrite Hd'. unfold delivered_after in *.
      rewrite Hcb, Hd.
      destruct (HyperliquidTracker.on_event self);
        [now rewrite <- app_assoc | reflexivity].
Qed.

Lemma deliver_all_raises (events : list Events.PositionEvent) :
  forall self,
    Exists (callback_raises self) events ->
    exists e, fst (HyperliquidTracker.deliver_all events self) = Raises e.
Proof.
  induction events as [|event rest IH]; intros self Hex.
  - inversion Hex.
  - cbn [HyperliquidTracker.deliver_all]. unfold bind.
    pose proof (deliver_frame event self) as F. cbv zeta in F.
    destruct (HyperliquidTracker.deliver event self) as [[[] | e] s1] eqn:Hd.
    + destruct F as ((_ & _ & Hcb) & _ & _). cbn [snd] in Hcb.
      apply IH. inversion Hex as [x l Hx | x l Hl]; subst.
      * apply deliver_raises in Hx. destruct Hx as [e He].
        rewrite Hd in He. discriminate.
      * eapply Exists_impl; [| exact Hl].
        intros ev. apply callback_raises_ext. exact Hcb.
    + eexists. reflexivity.
Qed.

Lemma delivered_after_ext (s s' : HyperliquidTracker.Tracker)
    (events : list Events.PositionEvent) :
  HyperliquidTracker.on_event s' = HyperliquidTracker.on_event s ->
  HyperliquidTracker.delivered s' = HyperliquidTracker.delivered s ->
  delivered_after s' events = delivered_after s events.
Proof.
  unfold delivered_after. intros -> ->. reflexivity.
Qed.

(** One wallet of a polling round, case by case. *)
Lemma poll_wallet_cases (address : string) (self : HyperliquidTracker.Tracker) :
  let run := HyperliquidTracker.poll_wallet address self in
  fst run = Returns tt
  /\ same_setting self (snd run)
  /\ HyperliquidTracker.queries (snd run) = S (HyperliquidTracker.queries self)
  /\ match HyperliquidTracker.info_user_state self address
             (HyperliquidTracker.queries self) with
     | Raises _ =>
         HyperliquidTracker._last_states (snd run)
         = HyperliquidTracker._last_states self
         /\ HyperliquidTracker.delivered (snd run)
            = HyperliquidTracker.delivered self
     | Returns user_state =>
         let new_state := snapshot_of address user_state in
         match baseline address self with
         | None =>
             HyperliquidTracker._last_states (snd run)
             = dict_set address new_state (HyperliquidTracker._last_states self)
             /\ HyperliquidTracker.delivered (snd run)
                = HyperliquidTracker.delivered self
         | Some old_state =>
             let events :=
               HyperliquidTracker._detect_changes old_state new_state in
             (Forall (callback_returns self) events ->
              HyperliquidTracker._last_states (snd run)
              = dict_set address new_state
                  (HyperliquidTracker._last_states self)
              /\ HyperliquidTracker.delivered (snd run)
                 = delivered_after self events)
             /\ (Exists (callback_raises self) events ->
                 HyperliquidTracker._last_states (snd run)
                 = HyperliquidTracker._last_states self)
         end
     end.
Proof.
  cbv zeta. unfold HyperliquidTracker.poll_wallet, try_except, bind, baseline.
  pose proof (get_wallet_state_run address self) as G. cbv zeta in G.
  destruct (HyperliquidTracker.get_wallet_state address self) as [[st | e] s1].
  - cbn [fst snd] in G. destruct G as (Hst & (Hw & Hi & Hcb) & Hq & Hls & Hd).
    destruct (HyperliquidTracker.info_user_state self address _)
      as [user_state | e]; [| discriminate].
    injection Hst as ->. rewrite Hls.
    destruct (dict_get address (HyperliquidTracker._last_states self))
      as [old_state |].
    + set (events := HyperliquidTracker._detect_changes old_state _).
      pose proof (deliver_all_frame events s1) as F.
      pose proof (deliver_all_returns events s1) as R.
      pose proof (deliver_all_raises events s1) as X.
      cbv zeta in F, R.
      destruct (HyperliquidTracker.deliver_all events s1) as [[[] | e] s2].
      * cbn [fst snd] in *. destruct F as ((Hw2 & Hi2 & Hcb2) & Hq2 & Hls2).
        unfold same_setting. cbn.
        split; [reflexivity|]. split; [intuition congruence|].
        split; [congruence|]. split.
        -- intros Hall. split; [congruence|].
           destruct R as [_ R].
           ++ eapply Forall_impl; [| exact Hall].
              intros ev. apply callback_returns_ext. exact Hcb.
           ++ rewrite R. now apply delivered_after_ext.
        -- intros Hex. destruct X as [e He]; [| discriminate].
           eapply Exists_impl; [| exact Hex].
           intros ev. apply callback_raises_ext. exact Hcb.
      * cbn [fst snd] in *. destruct F as ((Hw2 & Hi2 & Hcb2) & Hq2 & Hls2).
        unfold same_setting. cbn.
        split; [reflexivity|]. split; [intuition congruence|].
        split; [congruence|]. split.
        -- intros Hall. destruct R as [R _]; [| discriminate].
           eapply Forall_impl; [| exact Hall].
           intros ev. apply callback_returns_ext. exact Hcb.
        -- intros _. congruence.
    + unfold same_setting. cbn. rewrite Hw, Hi, Hcb, Hq, Hls, Hd. tauto.
  - cbn [fst snd] in G. destruct G as (Hst & Hset & Hq & Hls & Hd).
    destruct (HyperliquidTracker.info_user_state self address _)
      as [user_state | e']; [discriminate|].
    cbn. tauto.
Qed.

Lemma round_events_ext (s s' : HyperliquidTracker.Tracker)
    (addresses : list string) :
  forall k k',
    HyperliquidTracker.info_user_state s' = HyperliquidTracker.info_user_state s ->
    (HyperliquidTracker.queries s' + k' = HyperliquidTracker.queries s + k)%nat ->
    (forall a, In a addresses -> baseline a s' = baseline a s) ->
    round_events s' k' addresses = round_events s k addresses.
Proof.
  induction addresses as [|a rest IH]; intros k k' Hi Hq Hb; cbn;
    [reflexivity|].
  rewrite Hi, Hq, (Hb a (or_introl eq_refl)). f_equal.
  apply IH; [exact Hi | lia |]. intros b Hin. apply Hb. now right.
Qed.

Lemma returns_or_raises (self : HyperliquidTracker.Tracker)
    (events : list Events.PositionEvent) :
  Forall (callback_returns self) events \/ Exists (callback_raises self) events.
Proof.
  induction events as [|event rest [IH | IH]].
  - left. constructor.
  - destruct (HyperliquidTracker.on_event self) as [callback|] eqn:Hcb.
    + destruct (callback event) as [[] | e] eqn:Hev.
      * left. constructor; [| exact IH].
        intros cb Hcb'. rewrite Hcb in Hcb'. injection Hcb' as <-. exact Hev.
      * right. left. exists callback, e. split; [exact Hcb | exact Hev].
    + left. constructor; [| exact IH].
      intros cb Hcb'. rewrite Hcb in Hcb'. discriminate.
  - right. now right.
Qed.

(** One wallet of a polling round leaves the baselines of the others. *)
Lemma poll_wallet_others (address : string) (self : HyperliquidTracker.Tracker)
    (b : string) :
  b <> address ->
  baseline b (snd (HyperliquidTracker.poll_wallet address self))
  = baseline b self.
Proof.
  intros Hne. pose proof (poll_wallet_cases address self) as P. cbv zeta in P.
  destruct P as (_ & _ & _ & Hcase). unfold baseline in *.
  destruct (HyperliquidTracker.info_user_state self address _) as [us | e].
  - destruct (dict_get address (HyperliquidTracker._last_states self))
      as [old_state |].
    + destruct Hcase as [Hok Hbad].
      destruct (returns_or_raises self
                  (HyperliquidTracker._detect_changes old_state
                     (snapshot_of address us))) as [H | H].
      * destruct (Hok H) as [-> _]. now apply dict_get_set_other.
      * now rewrite (Hbad H).
    + destruct Hcase as [-> _]. now apply dict_get_set_other.
  - destruct Hcase as [-> _]. reflexivity.
Qed.

(** The loop of [_poll_all_wallets] over distinct addresses. *)
Lemma poll_each (addresses : list string) :
  forall self,
    NoDup addresses ->
    let run := HyperliquidTracker.for_each HyperliquidTracker.poll_wallet
                 addresses self in
    fst run = Returns tt
    /\ same_setting self (snd run)
    /\ HyperliquidTracker.queries (snd run)
       = (HyperliquidTracker.queries self + length addresses)%nat
    /\ (forall b, ~ In b addresses -> baseline b (snd run) = baseline b self)
    /\ (forall k a,
          nth_error addresses k = Some a ->
          match HyperliquidTracker.info_user_state self a
                  (HyperliquidTracker.queries self + k) with
          | Raises _ => baseline a (snd run) = baseline a self
          | Returns user_state =>
              let new_state := snapshot_of a user_state in
              match baseline a self with
              | None => baseline a (snd run) = Some new_state
              | Some old_state =>
                  let events :=
                    HyperliquidTracker._detect_changes old_state new_state in
                  (Forall (callback_returns self) events ->
                   baseline a (snd run) = Some new_state)
                  /\ (Exists (callback_raises self) events ->
                      baseline a (snd run) = Some old_state)
              end
          end)
    /\ (callbacks_return self ->
        HyperliquidTracker.delivered (snd run)
        = delivered_after self (round_events self 0 addresses)).
Proof.
  induction addresses as [|a rest IH]; intros self Hnd; cbv zeta.
  - cbn. unfold same_setting, delivered_after.
    repeat split; try tauto; try lia.
    + intros [|k] b H; discriminate H.
    + intros _. destruct (HyperliquidTracker.on_event self);
        [now rewrite app_nil_r | reflexivity].
  - inversion Hnd as [|x l Hout Hnd']; subst.
    cbn [HyperliquidTracker.for_each]. unfold bind.
    pose proof (poll_wallet_cases a self) as P. cbv zeta in P.
    pose proof (poll_wallet_others a self) as Hother.
    destruct (HyperliquidTracker.poll_wallet a self) as [o s1].
    cbn [fst snd] in P, Hother.
    destruct P as (-> & (Hw & Hi & Hcb) & Hq & Hcase).
    specialize (IH s1 Hnd'). cbv zeta in IH.
    destruct (HyperliquidTracker.for_each HyperliquidTracker.poll_wallet rest s1)
      as [o2 s2].
    cbn [fst snd] in *.
    destruct IH as (-> & (Hw2 & Hi2 & Hcb2) & Hq2 & Hfar & Hnear & Hdel).
    split; [reflexivity|].
    split; [unfold same_setting; intuition congruence|].
    split; [cbn [length]; lia|].
    split; [| split].
    + intros b Hb. rewrite Hfar by (intros H; apply Hb; now right). apply Hother.
      intros ->. apply Hb. now left.
    + intros [|k] b Hk.
      * injection Hk as <-. rewrite Nat.add_0_r, (Hfar a Hout).
        unfold baseline in *.
        destruct (HyperliquidTracker.info_user_state self a _) as [us | e].
        -- cbv zeta in Hcase |- *.
           destruct (dict_get a (HyperliquidTracker._last_states self))
             as [old_state |] eqn:Hold.
           ++ destruct Hcase as [Hok Hbad]. split.
              ** intros H. destruct (Hok H) as [-> _].
                 apply dict_get_set_same.
              ** intros H. rewrite (Hbad H). exact Hold.
           ++ destruct Hcase as [-> _]. apply dict_get_set_same.
        -- destruct Hcase as [-> _]. reflexivity.
      * cbn [nth_error] in Hk. specialize (Hnear k b Hk).
        assert (Hne : b <> a).
        { intros ->. apply Hout. eapply nth_error_In; eassumption. }
        rewrite Hi, Hq in Hnear.
        replace (S (HyperliquidTracker.queries self) + k)%nat
          with (HyperliquidTracker.queries self + S k)%nat in Hnear by lia.
        rewrite (Hother b Hne) in Hnear.
        destruct (HyperliquidTracker.info_user_state self b _) as [us | e];
          [| exact Hnear].
        cbv zeta in Hnear |- *.
        destruct (baseline b self) as [old_state |]; [| exact Hnear].
        destruct Hnear as [Hok Hbad]. split.
        -- intros H. apply Hok. eapply Forall_impl; [| exact H].
           intros ev. apply callback_returns_ext. exact Hcb.
        -- intros H. apply Hbad. eapply Exists_impl; [| exact H].
           intros ev. apply callback_raises_ext. exact Hcb.
    + intros Hall. rewrite Hdel.
      2:{ intros ev. eapply callback_returns_ext; [exact Hcb | apply Hall]. }
      cbn [round_events]. rewrite Nat.add_0_r.
      rewrite (round_events_ext self s1 rest 1 0 Hi ltac:(lia)).
      2:{ intros b Hb. apply Hother. intros ->. contradiction. }
      unfold delivered_after. rewrite Hcb. unfold baseline in *.
      destruct (HyperliquidTracker.info_user_state self a _) as [us | e].
      * cbv zeta in Hcase.
        destruct (dict_get a (HyperliquidTracker._last_states self))
          as [old_state |].
        -- destruct Hcase as [Hok _]. destruct Hok as [_ Hd].
           { apply Forall_forall. intros ev _. apply Hall. }
           rewrite Hd. unfold delivered_after.
           destruct (HyperliquidTracker.on_event self);
             [now rewrite app_assoc | reflexivity].
        -- destruct Hcase as [_ ->]. reflexivity.
      * destruct Hcase as [_ ->]. reflexivity.
Qed.

(** The loop of [_poll_all_wallets] over any addresses returns. *)
Lemma poll_each_returns (addresses : list string) :
  forall self,
    let run := HyperliquidTracker.for_each HyperliquidTracker.poll_wallet
                 addresses self in
    fst run = Returns tt
    /\ same_setting self (snd run)
    /\ HyperliquidTracker.queries (snd run)
       = (HyperliquidTracker.queries self + length addresses)%nat
    /\ (forall b, ~ In b addresses -> baseline b (snd run) = baseline b self).
Proof.
  induction addresses as [|a rest IH]; intros self; cbv zeta.
  - cbn. unfold same_setting. repeat split; lia.
  - cbn [HyperliquidTracker.for_each]. unfold bind.
    pose proof (poll_wallet_cases a self) as P. cbv zeta in P.
    pose proof (poll_wallet_others a self) as Hother.
    destruct (HyperliquidTracker.poll_wallet a self) as [o s1].
    cbn [fst snd] in P, Hother.
    destruct P as (-> & (Hw & Hi & Hcb) & Hq & _).
    specialize (IH s1). cbv zeta in IH.
    destruct (HyperliquidTracker.for_each HyperliquidTracker.poll_wallet rest s1)
      as [o2 s2].
    cbn [fst snd] in *.
    destruct IH as (-> & (Hw2 & Hi2 & Hcb2) & Hq2 & Hfar).
    split; [reflexivity|].
    split; [unfold same_setting; intuition congruence|].
    split; [cbn [length]; lia|].
    intros b Hb. rewrite Hfar by (intros H; apply Hb; now right).
    apply Hother. intros ->. apply Hb. now left.
Qed.

(** X5. A polling round never raises, whatever the venue answers and
    whatever the callback does: it queries the venue once per tracked
    address, and leaves the tracked addresses, the callback and the
    baseline of every address it does not track as they were. *)
Theorem poll_all_wallets_never_raises (self : HyperliquidTracker.Tracker) :
  let run := HyperliquidTracker._poll_all_wallets self in
  fst run = Returns tt
  /\ HyperliquidTracker.queries (snd run)
     = (HyperliquidTracker.queries self
        + length (HyperliquidTracker.wallet_addresses self))%nat
  /\ HyperliquidTracker.wallet_addresses (snd run)
     = HyperliquidTracker.wallet_addresses self
  /\ HyperliquidTracker.on_event (snd run) = HyperliquidTracker.on_event self
  /\ (forall b, ~ In b (HyperliquidTracker.wallet_addresses self) ->
                baseline b (snd run) = baseline b self).
Proof.
  cbv zeta. unfold HyperliquidTracker._poll_all_wallets.
  destruct (poll_each_returns (HyperliquidTracker.wallet_addresses self) self)
    as (Hr & (Hw & _ & Hcb) & Hq & Hfar).
  repeat split; assumption.
Qed.

(** X6. In a round over distinct addresses, a wallet whose query raises
    keeps the baseline it had: the next round compares against it. *)
Theorem failed_query_keeps_baseline (self : HyperliquidTracker.Tracker)
    (k : nat) (a : string) (e : PyException) :
  NoDup (HyperliquidTracker.wallet_addresses self) ->
  nth_error (HyperliquidTracker.wallet_addresses self) k = Some a ->
  HyperliquidTracker.info_user_state self a
    (HyperliquidTracker.queries self + k) = Raises e ->
  baseline a (snd (HyperliquidTracker._poll_all_wallets self))
  = baseline a self.
Proof.
  intros Hnd Hk Hraise. unfold HyperliquidTracker._poll_all_wallets.
  destruct (poll_each (HyperliquidTracker.wallet_addresses self) self Hnd)
    as (_ & _ & _ & _ & Hnear & _).
  specialize (Hnear k a Hk). rewrite Hraise in Hnear. exact Hnear.
Qed.

(** X7. In a round over distinct addresses, a wallet whose query is
    answered gets the answer as its new baseline, provided it had no
    baseline or the callback returns on each of its changes. *)
Theorem answered_query_rebases (self : HyperliquidTracker.Tracker)
    (k : nat) (a : string) (user_state : HyperliquidTracker.UserState) :
  NoDup (HyperliquidTracker.wallet_addresses self) ->
  nth_error (HyperliquidTracker.wallet_addresses self) k = Some a ->
  HyperliquidTracker.info_user_state self a
    (HyperliquidTracker.queries self + k) = Returns user_state ->
  (forall old_state,
     baseline a self = Some old_state ->
     Forall (callback_returns self)
       (HyperliquidTracker._detect_changes old_state
          (snapshot_of a user_state))) ->
  baseline a (snd (HyperliquidTracker._poll_all_wallets self))
  = Some (snapshot_of a user_state).
Proof.
  intros Hnd Hk Hanswer Hcallback. unfold HyperliquidTracker._poll_all_wallets.
  destruct (poll_each (HyperliquidTracker.wallet_addresses self) self Hnd)
    as (_ & _ & _ & _ & Hnear & _).
  specialize (Hnear k a Hk). rewrite Hanswer in Hnear. cbv zeta in Hnear.
  destruct (baseline a self) as [old_state |]; [| exact Hnear].
  apply Hnear. now apply Hcallback.
Qed.

(** X8. In a round over distinct addresses, when the callback raises on one
    of the changes of a wallet, the wallet keeps its old baseline: the
    round does not record the new state, and the next round finds the same
    changes again. *)
Theorem callback_failure_keeps_baseline (self : HyperliquidTracker.Tracker)
    (k : nat) (a : string) (user_state : HyperliquidTracker.UserState)
    (old_state : Events.WalletState) :
  NoDup (HyperliquidTracker.wallet_addresses self) ->
  nth_error (HyperliquidTracker.wallet_addresses self) k = Some a ->
  HyperliquidTracker.info_user_state self a
    (HyperliquidTracker.queries self + k) = Returns user_state ->
  baseline a self = Some old_state ->
  Exists (callback_raises self)
    (HyperliquidTracker._detect_changes old_state
       (snapshot_of a user_state)) ->
  baseline a (snd (HyperliquidTracker._poll_all_wallets self))
  = Some old_state.
Proof.
  intros Hnd Hk Hanswer Hold Hraise. unfold HyperliquidTracker._poll_all_wallets.
  destruct (poll_each (HyperliquidTracker.wallet_addresses self) self Hnd)
    as (_ & _ & _ & _ & Hnear & _).
  specialize (Hnear k a Hk). rewrite Hanswer, Hold in Hnear.
  apply Hnear. exact Hraise.
Qed.

(** X9. In a round over distinct addresses with a callback that returns,
    the callback is called with exactly the changes of the wallets, in the
    order of the wallets: those between each wallet's baseline and the
    venue's answer; a wallet that has no baseline or whose query raises
    contributes none. *)
Theorem poll_round_deliveries (self : HyperliquidTracker.Tracker) :
  NoDup (HyperliquidTracker.wallet_addresses self) ->
  callbacks_return self ->
  HyperliquidTracker.delivered (snd (HyperliquidTracker._poll_all_wallets self))
  = delivered_after self
      (round_events self 0 (HyperliquidTracker.wallet_addresses self)).
Proof.
  intros Hnd Hcallback. unfold HyperliquidTracker._poll_all_wallets.
  destruct (poll_each (HyperliquidTracker.wallet_addresses self) self Hnd)
    as (_ & _ & _ & _ & _ & Hdel).
  now apply Hdel.
Qed.

Lemma two_wallets_distinct : NoDup [wallet_a; wallet_b].
Proof.
  constructor; [| constructor; [intros [] | constructor]].
  intros [H | []]. discriminate H.
Qed.

Lemma failed_query_keeps_baseline_witness :
  baseline wallet_b (snd (HyperliquidTracker._poll_all_wallets (watching accepting)))
  = Some (snapshot_of wallet_b flat_reply).
Proof.
  apply (failed_query_keeps_baseline (watching accepting) 1 wallet_b
           {| exc_class := "ConnectionError"; exc_str := "timed out" |}).
  - exact two_wallets_distinct.
  - reflexivity.
  - reflexivity.
Defined.

Lemma answered_query_rebases_witness :
  baseline wallet_a (snd (HyperliquidTracker._poll_all_wallets (watching accepting)))
  = Some (snapshot_of wallet_a (eth_reply 3)).
Proof.
  apply (answered_query_rebases (watching accepting) 0 wallet_a (eth_reply 3)).
  - exact two_wallets_distinct.
  - reflexivity.
  - reflexivity.
  - intros old_state Hold. apply Forall_forall.
    intros event _ callback Hcallback.
    injection Hcallback as <-. reflexivity.
Defined.

Lemma callback_failure_keeps_baseline_witness :
  baseline wallet_a (snd (HyperliquidTracker._poll_all_wallets (watching rejecting)))
  = Some (snapshot_of wallet_a (eth_reply 1)).
Proof.
  apply (callback_failure_keeps_baseline (watching rejecting) 0 wallet_a
           (eth_reply 3) (snapshot_of wallet_a (eth_reply 1))).
  - exact two_wallets_distinct.
  - reflexivity.
  - reflexivity.
  - reflexivity.
  - left. eexists. eexists. split; reflexivity.
Defined.

Lemma poll_round_deliveries_witness :
  HyperliquidTracker.delivered
    (snd (HyperliquidTracker._poll_all_wallets (watching accepting)))
  = [increase_eth].
Proof.
  apply (poll_round_deliveries (watching accepting)).
  - exact two_wallets_distinct.
  - intros event callback Hcallback. injection Hcallback as <-. reflexivity.
Defined.

(** ** The initial states *)

Lemma initial_state_cases (address : string) (self : HyperliquidTracker.Tracker) :
  let run := HyperliquidTracker.initial_state address self in
  fst run = Returns tt
  /\ same_setting self (snd run)
  /\ HyperliquidTracker.queries (snd run) = S (HyperliquidTracker.queries self)
  /\ HyperliquidTracker._running (snd run) = HyperliquidTracker._running self
  /\ HyperliquidTracker.delivered (snd run) = HyperliquidTracker.delivered self
  /\ HyperliquidTracker._last_states (snd run)
     = match HyperliquidTracker.info_user_state self address
               (HyperliquidTracker.queries self) with
       | Returns user_state =>
           dict_set address (snapshot_of address user_state)
             (HyperliquidTracker._last_states self)
       | Raises _ => HyperliquidTracker._last_states self
       end.
Proof.
  unfold HyperliquidTracker.initial_state, try_except, bind, same_setting,
    HyperliquidTracker.get_wallet_state.
  destruct (HyperliquidTracker.info_user_state self address _) as [us | e];
    cbn; repeat split.
Qed.

Lemma initial_states_each (addresses : list string) :
  forall self,
    NoDup addresses ->
    let run := HyperliquidTracker.for_each HyperliquidTracker.initial_state
                 addresses self in
    fst run = Returns tt
    /\ same_setting self (snd run)
    /\ HyperliquidTracker.queries (snd run)
       = (HyperliquidTracker.queries self + length addresses)%nat
    /\ HyperliquidTracker._running (snd run) = HyperliquidTracker._running self
    /\ HyperliquidTracker.delivered (snd run) = HyperliquidTracker.delivered self
    /\ (forall b, ~ In b addresses -> baseline b (snd run) = baseline b self)
    /\ (forall k a,
          nth_error addresses k = Some a ->
          baseline a (snd run)
          = match HyperliquidTracker.info_user_state self a
                    (HyperliquidTracker.queries self + k) with
            | Returns user_state => Some (snapshot_of a user_state)
            | Raises _ => baseline a self
            end).
Proof.
  induction addresses as [|a rest IH]; intros self Hnd; cbv zeta.
  - cbn. unfold same_setting. repeat split; try lia.
    intros [|k] b H; discriminate H.
  - inversion Hnd as [|x l Hout Hnd']; subst.
    cbn [HyperliquidTracker.for_each]. unfold bind.
    pose proof (initial_state_cases a self) as P. cbv zeta in P.
    destruct (HyperliquidTracker.initial_state a self) as [o s1].
    cbn [fst snd] in P.
    destruct P as (-> & (Hw & Hi & Hcb) & Hq & Hrun & Hdel & Hls).
    specialize (IH s1 Hnd'). cbv zeta in IH.
    destruct (HyperliquidTracker.for_each HyperliquidTracker.initial_state rest s1)
      as [o2 s2].
    cbn [fst snd] in *.
    destruct IH as (-> & (Hw2 & Hi2 & Hcb2) & Hq2 & Hrun2 & Hdel2 & Hfar & Hnear).
    assert (Hother : forall b, b <> a -> baseline b s1 = baseline b self).
    { intros b Hne. unfold baseline. rewrite Hls.
      destruct (HyperliquidTracker.info_user_state self a _);
        [now apply dict_get_set_other | reflexivity]. }
    split; [reflexivity|].
    split; [unfold same_setting; intuition congruence|].
    split; [cbn [length]; lia|].
    split; [congruence|]. split; [congruence|]. split.
    + intros b Hb. rewrite Hfar by (intros H; apply Hb; now right).
      apply Hother. intros ->. apply Hb. now left.
    + intros [|k] b Hk.
      * injection Hk as <-. rewrite Nat.add_0_r, (Hfar a Hout).
        unfold baseline. rewrite Hls.
        destruct (HyperliquidTracker.info_user_state self a _);
          [apply dict_get_set_same | reflexivity].
      * cbn [nth_error] in Hk. rewrite (Hnear k b Hk), Hi, Hq.
        replace (S (HyperliquidTracker.queries self) + k)%nat
          with (HyperliquidTracker.queries self + S k)%nat by lia.
        destruct (HyperliquidTracker.info_user_state self b _);
          [reflexivity|].
        apply Hother. intros ->. apply Hout.
        eapply nth_error_In; eassumption.
Qed.

(** X10. The first loop of [start], over distinct addresses, never raises
    and calls the callback with nothing: it marks the tracker as running
    and gives each wallet whose query is answered the answer as baseline,
    while a wallet whose query raises is left without a new baseline, so
    that its first answered poll reports no change. *)
Theorem start_initial_states_baselines (self : HyperliquidTracker.Tracker) :
  NoDup (HyperliquidTracker.wallet_addresses self) ->
  let run := HyperliquidTracker.start_initial_states self in
  fst run = Returns tt
  /\ HyperliquidTracker._running (snd run) = true
  /\ HyperliquidTracker.delivered (snd run) = HyperliquidTracker.delivered self
  /\ (forall k a,
        nth_error (HyperliquidTracker.wallet_addresses self) k = Some a ->
        baseline a (snd run)
        = match HyperliquidTracker.info_user_state self a
                  (HyperliquidTracker.queries self + k) with
          | Returns user_state => Some (snapshot_of a user_state)
          | Raises _ => baseline a self
          end).
Proof.
  intros Hnd. cbv zeta. unfold HyperliquidTracker.start_initial_states.
  match goal with |- context [HyperliquidTracker.for_each _ _ ?s] =>
    destruct (initial_states_each (HyperliquidTracker.wallet_addresses self) s Hnd)
      as (Hr & _ & _ & Hrun & Hdel & _ & Hnear)
  end.
  repeat split; try assumption.
Qed.

Lemma start_initial_states_baselines_witness :
  baseline wallet_a
    (snd (HyperliquidTracker.start_initial_states
            (HyperliquidTracker.init [wallet_a; wallet_b] venue_a_only accepting)))
  = Some (snapshot_of wallet_a (eth_reply 3))
  /\ baseline wallet_b
       (snd (HyperliquidTracker.start_initial_states
               (HyperliquidTracker.init [wallet_a; wallet_b] venue_a_only
                  accepting)))
     = None.
Proof.
  destruct (start_initial_states_baselines
              (HyperliquidTracker.init [wallet_a; wallet_b] venue_a_only accepting)
              two_wallets_distinct)
    as (_ & _ & _ & Hbaselines).
  split.
  - exact (Hbaselines 0%nat wallet_a eq_refl).
  - exact (Hbaselines 1%nat wallet_b eq_refl).
Defined.

(** * The store *)

Lemma upper_ascii_idempotent (c : ascii) :
  upper_ascii (upper_ascii c) = upper_ascii c.
Proof. destruct c as [[] [] [] [] [] [] [] []]; reflexivity. Qed.

Lemma lower_ascii_idempotent (c : ascii) :
  lower_ascii (lower_ascii c) = lower_ascii c.
Proof. destruct c as [[] [] [] [] [] [] [] []]; reflexivity. Qed.

Lemma upper_idempotent (s : string) : upper (upper s) = upper s.
Proof.
  induction s as [|c s IH]; cbn; [reflexivity|].
  now rewrite upper_ascii_idempotent, IH.
Qed.

Lemma lower_idempotent (s : string) : lower (lower s) = lower s.
Proof.
  induction s as [|c s IH]; cbn; [reflexivity|].
  now rewrite lower_ascii_idempotent, IH.
Qed.

Lemma same_key_true (symbol source_wallet : string) (row : Db.PositionRow) :
  Db.same_key symbol source_wallet row = true
  <-> position_key row = (symbol, source_wallet).
Proof.
  unfold Db.same_key, position_key. rewrite andb_true_iff, !String.eqb_eq.
  split; [intros [-> ->]; reflexivity | intros H; now inversion H].
Qed.

Lemma same_key_false (symbol source_wallet : string) (row : Db.PositionRow) :
  Db.same_key symbol source_wallet row = false
  <-> position_key row <> (symbol, source_wallet).
Proof.
  rewrite <- same_key_true. destruct (Db.same_key _ _ _); split; congruence.
Qed.

Lemma upsert_keys (new : Db.PositionRow) (rows : list Db.PositionRow) :
  map position_key (Db.upsert new rows)
  = if existsb (Db.same_key (Db.symbol new) (Db.source_wallet new)) rows
    then map position_key rows
    else (map position_key rows ++ [position_key new])%list.
Proof.
  induction rows as [|row rest IH]; cbn; [reflexivity|].
  destruct (Db.same_key _ _ row) eqn:E; cbn.
  - apply same_key_true in E. now rewrite E.
  - now rewrite IH; destruct (existsb _ rest).
Qed.

Lemma upsert_In (new row : Db.PositionRow) (rows : list Db.PositionRow) :
  In row (Db.upsert new rows) -> row = new \/ In row rows.
Proof.
  induction rows as [|r rest IH]; cbn.
  - intros [<- | []]. now left.
  - destruct (Db.same_key _ _ r); cbn; intros [<- | H]; auto.
    destruct (IH H); auto.
Qed.

Lemma upsert_well_kept (new : Db.PositionRow) (rows : list Db.PositionRow) :
  normalised new -> well_kept rows -> well_kept (Db.upsert new rows).
Proof.
  intros Hnew [Hnd Hall]. split.
  - rewrite upsert_keys.
    destruct (existsb _ rows) eqn:E; [exact Hnd|].
    apply NoDup_app; [exact Hnd | repeat constructor; intros [] |].
    intros k Hk [<- | []].
    apply in_map_iff in Hk. destruct Hk as (row & Hkey & Hin).
    assert (Db.same_key (Db.symbol new) (Db.source_wallet new) row = true)
      by (apply same_key_true; exact Hkey).
    assert (existsb (Db.same_key (Db.symbol new) (Db.source_wallet new)) rows
            = true) by (apply existsb_exists; eauto).
    congruence.
  - apply Forall_forall. intros row Hin.
    destruct (upsert_In _ _ _ Hin) as [-> | Hold]; [exact Hnew|].
    rewrite Forall_forall in Hall. now apply Hall.
Qed.

Lemma filter_well_kept (keep : Db.PositionRow -> bool)
    (rows : list Db.PositionRow) :
  well_kept rows -> well_kept (filter keep rows).
Proof.
  intros [Hnd Hall]. split.
  - induction rows as [|row rest IH]; cbn; [constructor|].
    inversion Hnd as [|k l Hout Hnd']; subst. inversion Hall; subst.
    destruct (keep row); cbn; [| now apply IH].
    constructor; [| now apply IH].
    intros Hin. apply Hout. apply in_map_iff in Hin.
    destruct Hin as (r & Hkey & Hr). apply filter_In in Hr.
    apply in_map_iff. exists r. tauto.
  - apply Forall_forall. intros row Hin. apply filter_In in Hin.
    rewrite Forall_forall in Hall. now apply Hall.
Qed.

(** X11. [add_position] and [remove_position] keep the table of positions
    well kept, whether the statement runs or fails: no two rows share a
    symbol and source wallet, symbols stay in upper case and source
    wallets in lower case. *)
Theorem positions_stay_well_kept (self : Db.DatabaseManager)
    (symbol side : string) (size entry_price : Q) (source_wallet : string) :
  well_kept (Db.positions self) ->
  well_kept (Db.positions
               (snd (Db.add_position symbol side size entry_price
                       source_wallet self)))
  /\ well_kept (Db.positions
                  (snd (Db.remove_position symbol source_wallet self))).
Proof.
  intros Hkept.
  unfold Db.add_position, Db.remove_position, Db.log_and_reraise, try_except,
    bind, Db.execute, raise.
  destruct (Db.faults self (Db.statements self)); cbn; split;
    try exact Hkept.
  - apply upsert_well_kept; [| exact Hkept].
    split; cbn; [apply upper_idempotent | apply lower_idempotent].
  - now apply filter_well_kept.
Qed.

Lemma positions_stay_well_kept_witness :
  well_kept (Db.positions
               (snd (Db.add_position "btc" "long" (1 # 100) 50000 wallet_a
                       two_wallets)))
  /\ well_kept (Db.positions
                  (snd (Db.remove_position "btc" wallet_a two_wallets))).
Proof.
  apply (positions_stay_well_kept two_wallets "btc" "long" (1 # 100) 50000
           wallet_a).
  split; constructor.
Defined.

Lemma find_upsert (new : Db.PositionRow) (rows : list Db.PositionRow) :
  (forall row, In row rows -> Db.symbol row = Db.symbol new ->
               Db.source_wallet row = Db.source_wallet new) ->
  find (fun row => String.eqb (Db.symbol row) (Db.symbol new))
       (Db.upsert new rows) = Some new.
Proof.
  induction rows as [|row rest IH]; intros Hheld; cbn.
  - now rewrite String.eqb_refl.
  - destruct (Db.same_key _ _ row) eqn:E; cbn.
    + now rewrite String.eqb_refl.
    + destruct (String.eqb_spec (Db.symbol row) (Db.symbol new)) as [Hs | Hs].
      * exfalso. apply same_key_false in E. apply E. unfold position_key.
        now rewrite Hs, (Hheld row (or_introl eq_refl) Hs).
      * apply IH. intros r Hr. apply Hheld. now right.
Qed.

(** X12. Round trip of a mirrored position: on a store whose next two
    statements run and where no other wallet holds the symbol,
    [get_position] after [add_position] returns the row just written, with
    the symbol and side in upper case and the source wallet in lower case,
    whatever the case of the symbol it is asked with. *)
Theorem position_round_trip (self : Db.DatabaseManager)
    (symbol side : string) (size entry_price : Q) (source_wallet : string)
    (asked : string) :
  statements_run 2 self ->
  held_only_by symbol source_wallet (Db.positions self) ->
  upper asked = upper symbol ->
  fst ((Db.add_position symbol side size entry_price source_wallet ;;;
        Db.get_position asked) self)
  = Returns (Some {| Db.symbol := upper symbol;
                     Db.side := upper side;
                     Db.size := size;
                     Db.entry_price := entry_price;
                     Db.source_wallet := lower source_wallet |}).
Proof.
  intros Hrun Hheld Hasked.
  pose proof (Hrun 0%nat ltac:(lia)) as F0.
  pose proof (Hrun 1%nat ltac:(lia)) as F1.
  rewrite Nat.add_0_r in F0. rewrite Nat.add_1_r in F1.
  unfold Db.add_position, Db.get_position, Db.log_and_reraise, try_except,
    bind, Db.execute, raise.
  rewrite F0. cbn. rewrite F1. cbn. rewrite Hasked.
  f_equal.
  apply (find_upsert {| Db.symbol := upper symbol;
                        Db.side := upper side;
                        Db.size := size;
                        Db.entry_price := entry_price;
                        Db.source_wallet := lower source_wallet |}).
  exact Hheld.
Qed.

Lemma position_round_trip_witness :
  fst ((Db.add_position "btc" "long" (1 # 100) 50000 wallet_a ;;;
        Db.get_position "Btc") two_wallets)
  = Returns (Some {| Db.symbol := "BTC";
                     Db.side := "LONG";
                     Db.size := 1 # 100;
                     Db.entry_price := 50000;
                     Db.source_wallet := wallet_a |}).
Proof.
  apply (position_round_trip two_wallets "btc" "long" (1 # 100) 50000 wallet_a
           "Btc").
  - intros i Hi. reflexivity.
  - intros row [].
  - reflexivity.
Defined.

Lemma filter_upsert (new : Db.PositionRow) (rows : list Db.PositionRow) :
  filter (fun row => negb (Db.same_key (Db.symbol new) (Db.source_wallet new) row))
         (Db.upsert new rows)
  = filter (fun row => negb (Db.same_key (Db.symbol new) (Db.source_wallet new) row))
           rows.
Proof.
  assert (Hnew : Db.same_key (Db.symbol new) (Db.source_wallet new) new = true)
    by (now apply same_key_true).
  induction rows as [|row rest IH]; cbn.
  - now rewrite Hnew.
  - destruct (Db.same_key _ _ row) eqn:E; cbn.
    + now rewrite Hnew.
    + now rewrite E, IH.
Qed.

Lemma existsb_upsert (new : Db.PositionRow) (rows : list Db.PositionRow) :
  existsb (Db.same_key (Db.symbol new) (Db.source_wallet new))
          (Db.upsert new rows) = true.
Proof.
  assert (Hnew : Db.same_key (Db.symbol new) (Db.source_wallet new) new = true)
    by (now apply same_key_true).
  induction rows as [|row rest IH]; cbn.
  - now rewrite Hnew.
  - destruct (Db.same_key _ _ row) eqn:E; cbn.
    + now rewrite Hnew.
    + now rewrite E, IH.
Qed.

(** X13. Removing undoes adding: on a store whose next two statements run,
    [remove_position] after [add_position] of the same symbol and wallet,
    in whatever case they are written, returns [True] and leaves exactly
    the rows of the other symbols and wallets, as they were before. *)
Theorem remove_undoes_add (self : Db.DatabaseManager)
    (symbol side : string) (size entry_price : Q) (source_wallet : string)
    (symbol' source_wallet' : string) :
  statements_run 2 self ->
  upper symbol' = upper symbol ->
  lower source_wallet' = lower source_wallet ->
  let run := (Db.add_position symbol side size entry_price source_wallet ;;;
              Db.remove_position symbol' source_wallet') self in
  fst run = Returns true
  /\ Db.positions (snd run)
     = filter (fun row =>
                 negb (Db.same_key (upper symbol) (lower source_wallet) row))
              (Db.positions self)
  /\ Db.wallets (snd run) = Db.wallets self.
Proof.
  intros Hrun Hsymbol Hwallet.
  pose proof (Hrun 0%nat ltac:(lia)) as F0.
  pose proof (Hrun 1%nat ltac:(lia)) as F1.
  rewrite Nat.add_0_r in F0. rewrite Nat.add_1_r in F1.
  cbv zeta.
  unfold Db.add_position, Db.remove_position, Db.log_and_reraise, try_except,
    bind, Db.execute, raise.
  rewrite F0. cbn. rewrite F1. cbn. rewrite Hsymbol, Hwallet.
  set (new := {| Db.symbol := upper symbol; Db.side := upper side;
                 Db.size := size; Db.entry_price := entry_price;
                 Db.source_wallet := lower source_wallet |}).
  split; [| split].
  - f_equal. apply (existsb_upsert new).
  - apply (filter_upsert new).
  - reflexivity.
Qed.

Lemma remove_undoes_add_witness :
  fst ((Db.add_position "btc" "long" (1 # 100) 50000 wallet_a ;;;
        Db.remove_position "BTC" wallet_a) two_wallets)
  = Returns true
  /\ Db.positions
       (snd ((Db.add_position "btc" "long" (1 # 100) 50000 wallet_a ;;;
              Db.remove_position "BTC" wallet_a) two_wallets))
     = [].
Proof.
  destruct (remove_undoes_add two_wallets "btc" "long" (1 # 100) 50000 wallet_a
              "BTC" wallet_a)
    as (Hreturn & Hrows & _).
  - intros i Hi. reflexivity.
  - reflexivity.
  - reflexivity.
  - split; [exact Hreturn | exact Hrows].
Defined.

Lemma find_existsb_false {A} (f : A -> bool) (l : list A) :
  existsb f l = false -> find f l = None.
Proof.
  induction l as [|x l IH]; cbn; [reflexivity|].
  destruct (f x); [discriminate | exact IH].
Qed.

(** X26. Round trip of a tracked wallet, in a table that holds an address
    at most once, as the handling of [UniqueViolation] supposes: on a
    store whose next two statements run, [add_wallet] of an address the
    table holds raises [ValueError] with the text of the source and leaves
    the table as it was; otherwise [get_wallet] after it returns the new
    row, with the address in lower case and the cap it was given, whatever
    the case of the address it is asked with. *)
Theorem wallet_round_trip (enabled_default : bool) (self : Db.DatabaseManager)
    (address : string) (max_position_usd : Q) (asked : string) :
  statements_run 2 self ->
  lower asked = lower address ->
  if existsb (fun w => String.eqb (Db.address w) (lower address))
             (Db.wallets self)
  then fst (Db.add_wallet enabled_default address max_position_usd self)
       = Raises Db.already_exists
       /\ Db.wallets
            (snd (Db.add_wallet enabled_default address max_position_usd self))
          = Db.wallets self
  else fst ((Db.add_wallet enabled_default address max_position_usd ;;;
             Db.get_wallet asked) self)
       = Returns (Some {| Db.address := lower address;
                          Db.enabled := enabled_default;
                          Db.max_position_usd := Some max_position_usd |}).
Proof.
  intros Hrun Hasked.
  pose proof (Hrun 0%nat ltac:(lia)) as F0.
  pose proof (Hrun 1%nat ltac:(lia)) as F1.
  rewrite Nat.add_0_r in F0. rewrite Nat.add_1_r in F1.
  unfold Db.add_wallet, Db.get_wallet, Db.log_and_reraise, try_except, bind,
    Db.execute, raise.
  rewrite F0. cbn.
  destruct (existsb _ (Db.wallets self)) eqn:E; cbn.
  - split; reflexivity.
  - rewrite F1. cbn. rewrite Hasked, find_app_first.
    rewrite (find_existsb_false _ _ E). cbn.
    now rewrite String.eqb_refl.
Qed.

Lemma wallet_round_trip_witness :
  fst (Db.add_wallet true wallet_a 250 two_wallets) = Raises Db.already_exists
  /\ Db.wallets (snd (Db.add_wallet true wallet_a 250 two_wallets))
     = Db.wallets two_wallets.
Proof.
  apply (wallet_round_trip true two_wallets wallet_a 250 wallet_a).
  - intros i Hi. reflexivity.
  - reflexivity.
Defined.

(** * The store and the engine *)

(** X14. The engine's own lock check and the store's
    [check_position_lock] agree on a store whose source wallets are in
    lower case, as [add_position] writes them: the engine finds the symbol
    locked exactly when the store says it cannot be followed, and both
    raise what the store raises. *)
Theorem lock_checks_agree {T} (self : Strategy.StrategyEngine T)
    (symbol wallet_address : string) :
  Forall normalised (Db.positions (Strategy.db_manager self)) ->
  match fst (Db.check_position_lock symbol wallet_address
               (Strategy.db_manager self)),
        fst (Strategy.check_position_lock symbol wallet_address self) with
  | Returns can_follow, Returns (is_locked, _) => is_locked = negb can_follow
  | Raises e, Raises e' => e = e'
  | _, _ => False
  end.
Proof.
  intros Hnormal.
  unfold Db.check_position_lock, Strategy.check_position_lock, Strategy.on_db,
    Db.get_position, Db.log_and_reraise, try_except, bind, Db.execute, ret,
    raise.
  destruct (Db.faults _ _); cbn; [reflexivity|].
  destruct (find _ _) as [row|] eqn:Hrow; cbn; [| reflexivity].
  apply find_some in Hrow. destruct Hrow as [Hin _].
  rewrite Forall_forall in Hnormal. destruct (Hnormal row Hin) as [_ ->].
  destruct (String.eqb _ _); reflexivity.
Qed.

Lemma lock_checks_agree_witness :
  match fst (Db.check_position_lock "BTC" wallet_b
               (Strategy.db_manager mirroring_engine)),
        fst (Strategy.check_position_lock "BTC" wallet_b mirroring_engine) with
  | Returns can_follow, Returns (is_locked, _) => is_locked = negb can_follow
  | Raises e, Raises e' => e = e'
  | _, _ => False
  end.
Proof.
  apply (lock_checks_agree mirroring_engine "BTC" wallet_b).
  repeat constructor.
Defined.

Lemma find_disabled (address : string) (wallets : list Db.WalletRow) :
  existsb (fun w => String.eqb (Db.address w) address) wallets = true ->
  exists w,
    find (fun w => String.eqb (Db.address w) address)
         (map (fun w =>
                 if String.eqb (Db.address w) address
                 then {| Db.address := Db.address w;
                         Db.enabled := false;
                         Db.max_position_usd := Db.max_position_usd w |}
                 else w) wallets) = Some w
    /\ Db.enabled w = false.
Proof.
  induction wallets as [|w rest IH]; cbn; [discriminate|].
  destruct (String.eqb (Db.address w) address) eqn:E; cbn.
  - intros _. rewrite E. eexists. split; reflexivity.
  - intros H. rewrite E. now apply IH.
Qed.

Lemma find_removed (address : string) (wallets : list Db.WalletRow) :
  find (fun w => String.eqb (Db.address w) address)
       (filter (fun w => negb (String.eqb (Db.address w) address)) wallets)
  = None.
Proof.
  induction wallets as [|w rest IH]; cbn; [reflexivity|].
  destruct (String.eqb (Db.address w) address) eqn:E; cbn;
    [exact IH | now rewrite E].
Qed.

(** X15. Once [update_wallet_status] has disabled a wallet of the store the
    engine reads, on a store whose next two statements run, an event of
    that wallet is skipped with the reason that names the wallet as
    disabled: the trader is not called and the mirrored positions stay as
    they were. *)
Theorem disabled_wallet_is_skipped {T} (trader : Strategy.Trader T)
    (event : Events.PositionEvent) (self : Strategy.StrategyEngine T)
    (address : string) :
  lower address = lower (Events.wallet_address event) ->
  statements_run 2 (Strategy.db_manager self) ->
  fst (Db.update_wallet_status address false (Strategy.db_manager self))
  = Returns true ->
  exists self',
    (Strategy.on_db (Db.update_wallet_status address false) ;;;
     Strategy.on_wallet_event trader event) self
    = (Returns (skipped ("錢包已禁用: "
                         ++ take 10 (Events.wallet_address event) ++ "...")),
       self')
    /\ Strategy.lighter_trader self' = Strategy.lighter_trader self
    /\ Db.positions (Strategy.db_manager self')
       = Db.positions (Strategy.db_manager self).
Proof.
  intros Haddress Hrun.
  pose proof (Hrun 0%nat ltac:(lia)) as F0.
  pose proof (Hrun 1%nat ltac:(lia)) as F1.
  rewrite Nat.add_0_r in F0. rewrite Nat.add_1_r in F1.
  destruct self as [db t dmax dstop bal upd cache clk reads].
  cbn [Strategy.db_manager Strategy.lighter_trader] in *.
  destruct db as [ws ps fs n]. cbn in F0, F1.
  cbv [Db.update_wallet_status Db.log_and_reraise try_except bind Db.execute
       raise fst Db.faults Db.statements Db.wallets].
  rewrite F0. intros Hfound. injection Hfound as Hfound.
  rewrite Haddress in Hfound.
  destruct (find_disabled _ _ Hfound) as (w & Hw & Hoff).
  cbv [Strategy.on_wallet_event Strategy.should_follow
       try_except bind Strategy.on_db Db.update_wallet_status
       Db.get_wallet Db.log_and_reraise Db.execute ret raise
       Strategy.set_db_manager Strategy.db_manager Strategy.lighter_trader
       Db.wallets Db.positions Db.faults Db.statements].
  rewrite F0, F1, Haddress, Hw, Hoff. cbn.
  eexists. repeat split.
Qed.

(** X16. Once [remove_wallet] has removed a wallet from the store the
    engine reads, on a store whose next two statements run, an event of
    that wallet is skipped with the reason that the wallet is not in the
    tracking list: the trader is not called and the mirrored positions
    stay as they were. *)
Theorem removed_wallet_is_skipped {T} (trader : Strategy.Trader T)
    (event : Events.PositionEvent) (self : Strategy.StrategyEngine T)
    (address : string) :
  lower address = lower (Events.wallet_address event) ->
  statements_run 2 (Strategy.db_manager self) ->
  exists self',
    (Strategy.on_db (Db.remove_wallet address) ;;;
     Strategy.on_wallet_event trader event) self
    = (Returns (skipped ("錢包未在追蹤列表中: "
                         ++ take 10 (Events.wallet_address event) ++ "...")),
       self')
    /\ Strategy.lighter_trader self' = Strategy.lighter_trader self
    /\ Db.positions (Strategy.db_manager self')
       = Db.positions (Strategy.db_manager self).
Proof.
  intros Haddress Hrun.
  pose proof (Hrun 0%nat ltac:(lia)) as F0.
  pose proof (Hrun 1%nat ltac:(lia)) as F1.
  rewrite Nat.add_0_r in F0. rewrite Nat.add_1_r in F1.
  destruct self as [db t dmax dstop bal upd cache clk reads].
  cbn [Strategy.db_manager Strategy.lighter_trader] in *.
  destruct db as [ws ps fs n]. cbn in F0, F1.
  cbv [Strategy.on_wallet_event Strategy.should_follow
       try_except bind Strategy.on_db Db.remove_wallet
       Db.get_wallet Db.log_and_reraise Db.execute ret raise
       Strategy.set_db_manager Strategy.db_manager Strategy.lighter_trader
       Db.wallets Db.positions Db.faults Db.statements].
  rewrite F0, F1, Haddress, find_removed. cbn.
  eexists. repeat split.
Qed.

Lemma disabled_wallet_is_skipped_witness :
  exists self',
    (Strategy.on_db (Db.update_wallet_status wallet_a false) ;;;
     Strategy.on_wallet_event Strategy.LighterTrader (open_btc wallet_a))
      engine0
    = (Returns (skipped "錢包已禁用: 0xaaaaaaaa..."), self')
    /\ Strategy.lighter_trader self' = Strategy.lighter_trader engine0
    /\ Db.positions (Strategy.db_manager self')
       = Db.positions (Strategy.db_manager engine0).
Proof.
  apply (disabled_wallet_is_skipped Strategy.LighterTrader (open_btc wallet_a)
           engine0 wallet_a).
  - reflexivity.
  - intros i Hi. reflexivity.
  - reflexivity.
Defined.

Lemma removed_wallet_is_skipped_witness :
  exists self',
    (Strategy.on_db (Db.remove_wallet wallet_a) ;;;
     Strategy.on_wallet_event Strategy.LighterTrader (open_btc wallet_a))
      engine0
    = (Returns (skipped "錢包未在追蹤列表中: 0xaaaaaaaa..."), self')
    /\ Strategy.lighter_trader self' = Strategy.lighter_trader engine0
    /\ Db.positions (Strategy.db_manager self')
       = Db.positions (Strategy.db_manager engine0).
Proof.
  apply (removed_wallet_is_skipped Strategy.LighterTrader (open_btc wallet_a)
           engine0 wallet_a).
  - reflexivity.
  - intros i Hi. reflexivity.
Defined.

(** ** Skipped events *)

(** X23. An event the engine skips costs nothing: whenever
    [on_wallet_event] answers SKIP, the trader has sent no order and the
    mirrored positions are as they were; and the engine never answers
    REJECT. *)
Theorem skip_submits_no_order (event : Events.PositionEvent)
    (self : Strategy.StrategyEngine Lighter.LighterTrader) :
  let run := Strategy.on_wallet_event Strategy.LighterTrader event self in
  exists r,
    fst run = Returns r
    /\ Strategy.decision r <> Strategy.REJECT
    /\ (Strategy.decision r = Strategy.SKIP ->
        trader_orders (snd run) = trader_orders self
        /\ stored_positions (snd run) = stored_positions self).
Proof.
  cbv zeta.
  pose proof (only_follow_changes_positions Strategy.LighterTrader event self)
    as Hstore. cbv zeta in Hstore.
  unfold Strategy.on_wallet_event, try_except, bind in *.
  pose proof (keeps_trader_orders_should_follow event self) as H1.
  destruct (Strategy.should_follow Strategy.LighterTrader event self)
    as [[[should reason] | e] s1]; cbn [snd] in H1.
  2:{ eexists. cbn. split; [reflexivity|]. split; discriminate. }
  destruct should; cbn [negb] in *.
  2:{ eexists. cbn [fst snd ret] in *. split; [reflexivity|].
      split; [discriminate|]. intros _. split; [exact H1|].
      apply (Hstore _ eq_refl). discriminate. }
  pose proof (keeps_trader_orders_follow_params event s1) as H2.
  destruct (Strategy.calculate_follow_params Strategy.LighterTrader event s1)
    as [[[follow_size follow_side] | e] s2]; cbn [snd] in H2.
  2:{ eexists. cbn. split; [reflexivity|]. split; discriminate. }
  destruct (Qleb follow_size 0).
  { eexists. cbn [fst snd ret] in *. split; [reflexivity|].
    split; [discriminate|]. intros _. split; [congruence|].
    apply (Hstore _ eq_refl). discriminate. }
  unfold Strategy.execute_follow, try_except, bind in *.
  match goal with
  | |- context [match ?op s2 with _ => _ end] =>
      destruct (op s2) as [[r | e] s3]
  end.
  2:{ eexists. cbn. split; [reflexivity|]. split; discriminate. }
  destruct (Lighter.success r).
  - destruct (update_position_returns event follow_size follow_side
                (Strategy.is_close_event event) s3) as (s4 & Hu).
    rewrite Hu. eexists. cbn. split; [reflexivity|]. split; discriminate.
  - eexists. cbn. split; [reflexivity|]. split; discriminate.
Qed.

(** ** Stop loss *)

Lemma Qgtb_iff (a b : Q) : Qgtb a b = true <-> b < a.
Proof.
  split; [| apply Qgtb_true_lt].
  intros H. destruct (Qlt_le_dec b a) as [Hlt | Hle]; [exact Hlt|].
  rewrite (Qgtb_false_le _ _ Hle) in H. discriminate.
Qed.

Lemma Qleb_iff (a b : Q) : Qleb a b = true <-> a <= b.
Proof.
  unfold Qleb. split.
  - intros H. destruct (Qlt_le_dec b a) as [Hlt | Hle]; [| exact Hle].
    rewrite (proj1 (Qgt_alt a b) Hlt) in H. discriminate.
  - intros H. destruct (a ?= b) eqn:E; try reflexivity.
    apply Qgt_alt in E. exfalso. apply (Qlt_not_le _ _ E H).
Qed.

Lemma loss_ratio_le (pnl value ratio : Q) :
  0 < value -> (pnl / value <= - ratio <-> pnl <= - ratio * value).
Proof.
  intros Hpos. split.
  - intros H. apply (Qmult_le_compat_r _ _ value) in H;
      [| now apply Qlt_le_weak].
    rewrite Qmult_comm, Qmult_div_r in H; [exact H|].
    intros Hz. rewrite Hz in Hpos. discriminate.
  - intros H. apply Qle_shift_div_r; assumption.
Qed.

(** X24. [check_stop_loss] never raises and answers [True] exactly when
    the trader reports a position of the symbol, compared without regard
    to case, whose value is above zero and whose unrealised loss is at
    least the stop-loss ratio times that value; when the trader's query
    raises, the answer is [False]. *)
Theorem check_stop_loss_decides {T} (trader : Strategy.Trader T)
    (symbol : string) (self : Strategy.StrategyEngine T) :
  exists b,
    fst (Strategy.check_stop_loss trader symbol self) = Returns b
    /\ (b = true <->
        exists positions pos,
          fst (Strategy.get_positions trader (Strategy.lighter_trader self))
          = Returns positions
          /\ In pos positions
          /\ past_stop_loss symbol (Strategy.default_stop_loss_ratio self) pos).
Proof.
  unfold Strategy.check_stop_loss, try_except, bind, Strategy.on_trader,
    Strategy.read.
  destruct (Strategy.get_positions trader (Strategy.lighter_trader self))
    as [[positions | e] t']; cbn.
  - eexists. split; [reflexivity|].
    rewrite existsb_exists. split.
    + intros (pos & Hin & Hpos).
      apply andb_true_iff in Hpos. destruct Hpos as [Hpos Hloss].
      apply andb_true_iff in Hpos. destruct Hpos as [Hsym Hvalue].
      apply String.eqb_eq in Hsym. apply Qgtb_iff in Hvalue.
      apply Qleb_iff in Hloss. apply loss_ratio_le in Hloss; [| exact Hvalue].
      exists positions, pos. repeat split; assumption.
    + intros (ps & pos & Hps & Hin & Hsym & Hvalue & Hloss).
      injection Hps as <-. exists pos. split; [exact Hin|].
      rewrite !andb_true_iff. repeat split.
      * now apply String.eqb_eq.
      * now apply Qgtb_iff.
      * apply Qleb_iff. now apply loss_ratio_le.
  - exists false. split; [reflexivity|]. split; [discriminate|].
    intros (ps & pos & Hps & _). discriminate.
Qed.

(** * The trader *)

Lemma Qabs_positive (q : Q) : ~ q == 0 -> 0 < Qabs q.
Proof.
  intros Hq. destruct (Qlt_le_dec 0 (Qabs q)) as [H | H]; [exact H|].
  exfalso. apply Hq. apply Qabs_Qle_condition in H. destruct H as [H1 H2].
  apply Qle_antisym; [exact H2 | exact H1].
Qed.

Lemma position_of_api_reported (pos : Lighter.ApiPosition) (p : Lighter.Position) :
  Lighter.position_of_api pos = Some p -> reported p.
Proof.
  unfold Lighter.position_of_api.
  destruct (Qeq_bool _ 0) eqn:E; [discriminate|].
  intros H. injection H as <-. unfold reported. cbn. split; [| split].
  - apply Qabs_positive. intros Hz. apply Qeq_bool_iff in Hz. congruence.
  - destruct (_ >? 0)%Z; auto.
  - reflexivity.
Qed.

Lemma collect_positions_reported (ps : list Lighter.ApiPosition) :
  Forall reported (Lighter.collect_positions ps).
Proof.
  induction ps as [|pos rest IH]; cbn; [constructor|].
  destruct (Lighter.position_of_api pos) as [p|] eqn:E; [| exact IH].
  constructor; [| exact IH]. eapply position_of_api_reported; eassumption.
Qed.

Lemma get_positions_returns (self : Lighter.LighterTrader) :
  exists positions,
    fst (Lighter.get_positions self) = Returns positions
    /\ Forall reported positions.
Proof.
  unfold Lighter.get_positions, try_except, bind.
  destruct (Lighter._retry_operation _ _ self) as [[result | e] s1]; cbn.
  - destruct result as [[|account rest]|]; cbn; eexists; split;
      try reflexivity; try constructor.
    apply collect_positions_reported.
  - eexists. split; [reflexivity | constructor].
Qed.

(** X17. [get_positions] never raises, whatever the venue answers: it
    returns positions of a size above zero, each LONG or SHORT and named
    after its market index, and the empty list when every attempt of the
    account query fails. *)
Theorem get_positions_reports (self : Lighter.LighterTrader)
    (err : nat -> PyException) :
  (exists positions,
     fst (Lighter.get_positions self) = Returns positions
     /\ Forall reported positions)
  /\ ((forall k, Lighter.account_api self k = Raises (err k)) ->
      fst (Lighter.get_positions self) = Returns []).
Proof.
  split; [apply get_positions_returns|].
  intros Hfail.
  unfold Lighter.get_positions, try_except, bind.
  unfold Lighter.account_api_account.
  rewrite (retry_operation_all_fail Lighter.AccountCall Lighter.account_api
             _ err self (fun e s => eq_refl) (fun k _ => Hfail k)).
  reflexivity.
Qed.

Lemma clean_symbol_unknown (rest : string) :
  Lighter.lookup_market (Lighter.clean_symbol ("UNKNOWN_" ++ rest)) = None.
Proof.
  unfold Lighter.clean_symbol, replace. cbn [append upper].
  change (upper_ascii "U") with "U"%char.
  cbn. reflexivity.
Qed.

(** X18. The symbol [get_positions] gives a market is accepted back by
    [_get_market_index] exactly when the table lists the market: for the
    indices 0 and 1 the round trip returns the index, and for any other
    index the name UNKNOWN_<index> is rejected with a [ValueError]. *)
Theorem market_symbol_round_trip (market_index : Z) :
  Lighter._get_market_index (Lighter._get_symbol_by_market_index market_index)
  = if (market_index =? 0)%Z || (market_index =? 1)%Z
    then Returns market_index
    else Raises {| exc_class := "ValueError";
                   exc_str := "未知的交易對: UNKNOWN_"
                              ++ str_of_int market_index |}.
Proof.
  unfold Lighter._get_symbol_by_market_index, Lighter.MARKET_INDEX.
  cbn [find snd].
  rewrite (Z.eqb_sym 0 market_index), (Z.eqb_sym 1 market_index).
  destruct (Z.eqb_spec market_index 0) as [-> | H0]; [reflexivity|].
  destruct (Z.eqb_spec market_index 1) as [-> | H1]; [reflexivity|].
  cbn [orb]. unfold Lighter._get_market_index.
  rewrite clean_symbol_unknown. reflexivity.
Qed.

(** ** Orders *)

Lemma keeps_remote {A X} (f : Lighter.LighterTrader -> X) (c : Lighter.RemoteCall)
    (api : Lighter.LighterTrader -> nat -> outcome A) :
  ignores_effects f -> keeps f (Lighter.remote c api).
Proof. intros Hf s. apply Hf. Qed.

Lemma keeps_sleep {X} (f : Lighter.LighterTrader -> X) (d : Q) :
  ignores_effects f -> keeps f (Lighter.asyncio_sleep d).
Proof. intros Hf s. apply Hf. Qed.

Lemma keeps_get_market_price {X} (f : Lighter.LighterTrader -> X)
    (symbol : string) :
  ignores_effects f -> keeps f (Lighter.get_market_price symbol).
Proof.
  intros Hf. unfold Lighter.get_market_price.
  apply keeps_try_except; [| intros ?; auto with keeps].
  apply keeps_bind; [auto with keeps|]. intros mi.
  apply keeps_bind.
  - apply keeps_retry_operation; [| intros d; now apply keeps_sleep].
    now apply keeps_remote.
  - intros [book|]; keeps_tac.
Qed.

Lemma orders_submission (req : Lighter.MarketOrderRequest)
    (self : Lighter.LighterTrader) :
  orders (Lighter.record_effect (submission req) self)
  = (orders self ++ [submission req])%list.
Proof. apply orders_record_effect. Qed.

(** The retries of a submission: the same request each time, at most once
    per attempt, and at least once when the loop returns. *)
Lemma retry_submissions (req : Lighter.MarketOrderRequest) :
  forall (attempts : list Z) (last : option PyException)
         (self : Lighter.LighterTrader),
    let run := Lighter.retry_loop (Lighter.signer_create_market_order req)
                 attempts last self in
    exists k,
      (k <= length attempts)%nat
      /\ orders (snd run) = (orders self ++ repeat (submission req) k)%list
      /\ (forall reply, fst run = Returns reply -> (0 < k)%nat).
Proof.
  induction attempts as [|attempt rest IH]; intros last self; cbv zeta.
  - exists 0%nat. cbn [Lighter.retry_loop].
    split; [reflexivity|]. split.
    + destruct last; cbn; now rewrite app_nil_r.
    + intros reply. destruct last; discriminate.
  - cbn [Lighter.retry_loop].
    unfold Lighter.signer_create_market_order at 1, Lighter.remote at 1.
    destruct (Lighter.signer_api self req (Lighter.calls self)) as [reply | e].
    + exists 1%nat. cbn [fst snd length repeat].
      split; [lia|]. split; [apply orders_submission | intros; lia].
    + unfold bind.
      set (s1 := Lighter.record_effect _ self).
      assert (H1 : orders s1 = (orders self ++ [submission req])%list)
        by apply orders_submission.
      destruct (attempt <? Lighter.max_retries s1)%Z.
      * unfold Lighter.asyncio_sleep at 1.
        set (s2 := Lighter.record_effect _ s1).
        assert (H2 : orders s2 = orders s1).
        { subst s2. rewrite orders_record_effect. cbn. apply app_nil_r. }
        destruct (IH (Some e) s2) as (k & Hk & Horders & Hreturn).
        exists (S k). cbn [length repeat].
        split; [lia|]. split.
        -- rewrite Horders, H2, H1, <- app_assoc. reflexivity.
        -- intros; lia.
      * unfold ret at 1.
        destruct (IH (Some e) s1) as (k & Hk & Horders & Hreturn).
        exists (S k). cbn [length repeat].
        split; [lia|]. split.
        -- rewrite Horders, H1, <- app_assoc. reflexivity.
        -- intros; lia.
Qed.

(** The orders of [place_market_order], the counter it leaves and the
    result it gives. *)
Lemma place_market_order_run (symbol : string) (side : Lighter.OrderSide)
    (size : Q) (reduce_only : bool) (max_slippage : Q)
    (self : Lighter.LighterTrader) :
  let run := Lighter.place_market_order symbol side size reduce_only
               max_slippage self in
  exists result k req,
    fst run = Returns result
    /\ (k <= Z.to_nat (Lighter.max_retries self))%nat
    /\ orders (snd run) = (orders self ++ repeat (submission req) k)%list
    /\ Lighter.req_reduce_only req = reduce_only
    /\ ((0 < k)%nat ->
        Lighter._get_market_index symbol
        = Returns (Lighter.req_market_index req)
        /\ Lighter.req_client_order_index req
           = (Lighter._order_counter self + 1)%Z
        /\ Lighter.req_base_amount req
           = int_of_decimal (size * Lighter.PRICE_SCALE)
        /\ Lighter.req_is_ask req = Lighter.OrderSide_eqb side Lighter.SELL)
    /\ (Lighter.success result = true ->
        (0 < k)%nat
        /\ Lighter.order_id result
           = Some (str_of_int (Lighter._order_counter self + 1)))
    /\ Lighter._order_counter (snd run)
       = match Lighter._get_market_index symbol with
         | Returns _ => (Lighter._order_counter self + 1)%Z
         | Raises _ => Lighter._order_counter self
         end.
Proof.
  cbv zeta.
  set (blank := {| Lighter.req_market_index := 0;
                   Lighter.req_client_order_index := 0;
                   Lighter.req_base_amount := 0;
                   Lighter.req_avg_execution_price := 0;
                   Lighter.req_is_ask := false;
                   Lighter.req_reduce_only := reduce_only |}).
  unfold Lighter.place_market_order, try_except, bind, of_outcome.
  destruct (Lighter._get_market_index symbol) as [market_index | e].
  2:{ exists (Lighter.failed (exc_str e)), 0%nat, blank. cbn.
      rewrite app_nil_r. repeat split; try lia; try discriminate. }
  unfold Lighter._generate_client_order_index.
  set (s0 := Lighter.set_order_counter _ self).
  pose proof (keeps_orders_get_market_price symbol s0) as Ho.
  pose proof (keeps_get_market_price Lighter._order_counter symbol
                (fun e s => eq_refl) s0) as Hc.
  pose proof (keeps_get_market_price Lighter.max_retries symbol
                (fun e s => eq_refl) s0) as Hm.
  destruct (Lighter.get_market_price symbol s0) as [[[price |] | e] s1];
    cbn [snd] in Ho, Hc, Hm.
  2:{ exists (Lighter.failed "無法獲取當前價格"), 0%nat, blank. cbn.
      rewrite app_nil_r, Ho, Hc.
      repeat split; try lia; try discriminate. }
  2:{ exists (Lighter.failed (exc_str e)), 0%nat, blank. cbn.
      rewrite app_nil_r, Ho, Hc.
      repeat split; try lia; try discriminate. }
  set (req := {| Lighter.req_market_index := market_index;
                 Lighter.req_client_order_index := _;
                 Lighter.req_base_amount := _;
                 Lighter.req_avg_execution_price := _;
                 Lighter.req_is_ask := _;
                 Lighter.req_reduce_only := reduce_only |}).
  set (s2 := snd (Lighter._get_signer_client s1)).
  assert (Hs2 : Lighter._get_signer_client s1 = (Returns tt, s2)).
  { subst s2. unfold Lighter._get_signer_client.
    destruct (Lighter._signer_client s1); reflexivity. }
  assert (Ho2 : orders s2 = orders self).
  { subst s2. unfold Lighter._get_signer_client.
    destruct (Lighter._signer_client s1); exact Ho. }
  assert (Hc2 : Lighter._order_counter s2 = (Lighter._order_counter self + 1)%Z).
  { subst s2. unfold Lighter._get_signer_client.
    destruct (Lighter._signer_client s1); exact Hc. }
  assert (Hm2 : Lighter.max_retries s2 = Lighter.max_retries self).
  { subst s2. unfold Lighter._get_signer_client.
    destruct (Lighter._signer_client s1); exact Hm. }
  rewrite Hs2. unfold Lighter._retry_operation.
  destruct (retry_submissions req
              (py_range 1 (Lighter.max_retries s2 + 1)) None s2)
    as (k & Hk & Horders & Hreturn).
  pose proof (keeps_retry_loop Lighter._order_counter
                (Lighter.signer_create_market_order req)
                (keeps_remote Lighter._order_counter _ _ (fun e s => eq_refl))
                (fun d => keeps_sleep Lighter._order_counter d
                            (fun e s => eq_refl))
                (py_range 1 (Lighter.max_retries s2 + 1)) None s2) as Hc3.
  assert (Hbound : (k <= Z.to_nat (Lighter.max_retries self))%nat).
  { unfold py_range in Hk.
    assert (Hlen : forall lo n, length (range_from lo n) = n)
      by (intros lo n; revert lo; induction n; intros; cbn; auto).
    rewrite Hlen, Hm2 in Hk. replace (Lighter.max_retries self + 1 - 1)%Z
      with (Lighter.max_retries self) in Hk by lia. exact Hk. }
  destruct (Lighter.retry_loop _ _ None s2) as [[reply | e] s3];
    cbn [fst snd] in Horders, Hreturn, Hc3.
  - specialize (Hreturn reply eq_refl).
    destruct reply as [[created response] error].
    assert (Hfields :
              Returns market_index = Returns (Lighter.req_market_index req)
              /\ Lighter.req_client_order_index req
                 = (Lighter._order_counter self + 1)%Z
              /\ Lighter.req_base_amount req
                 = int_of_decimal (size * Lighter.PRICE_SCALE)
              /\ Lighter.req_is_ask req = Lighter.OrderSide_eqb side Lighter.SELL)
      by (repeat split).
    destruct (Lighter.error_set error).
    + eexists _, k, req. cbn [fst snd ret].
      rewrite Horders, Ho2, Hc3, Hc2.
      repeat split; try assumption; try discriminate; apply Hfields.
    + destruct response as [resp |].
      * destruct (Lighter.code resp =? 200)%Z.
        -- eexists _, k, req. cbn [fst snd ret].
           rewrite Horders, Ho2, Hc3, Hc2.
           repeat split; try assumption; apply Hfields.
        -- eexists _, k, req. cbn [fst snd ret].
           rewrite Horders, Ho2, Hc3, Hc2.
           repeat split; try assumption; try discriminate; apply Hfields.
      * eexists _, k, req. cbn [fst snd ret].
        rewrite Horders, Ho2, Hc3, Hc2.
        repeat split; try assumption; try discriminate; apply Hfields.
  - eexists _, k, req. cbn [fst snd ret].
    rewrite Horders, Ho2, Hc3, Hc2.
    repeat split; try assumption; try discriminate.
Qed.

(** X19. [place_market_order] never raises and submits one request or
    none: whatever the venue answers, the orders it sends are between zero
    and [max_retries] submissions of the same request, which carries the
    market index of the symbol, the next client order index, the size in
    units of 1e-8, the side and the reduce-only flag it was asked with. *)
Theorem place_market_order_submissions (symbol : string)
    (side : Lighter.OrderSide) (size : Q) (reduce_only : bool)
    (max_slippage : Q) (self : Lighter.LighterTrader) :
  let run := Lighter.place_market_order symbol side size reduce_only
               max_slippage self in
  exists result k req,
    fst run = Returns result
    /\ (k <= Z.to_nat (Lighter.max_retries self))%nat
    /\ orders (snd run) = (orders self ++ repeat (submission req) k)%list
    /\ ((0 < k)%nat ->
        Lighter._get_market_index symbol
        = Returns (Lighter.req_market_index req)
        /\ Lighter.req_client_order_index req
           = (Lighter._order_counter self + 1)%Z
        /\ Lighter.req_base_amount req
           = int_of_decimal (size * Lighter.PRICE_SCALE)
        /\ Lighter.req_is_ask req = Lighter.OrderSide_eqb side Lighter.SELL
        /\ Lighter.req_reduce_only req = reduce_only).
Proof.
  cbv zeta.
  destruct (place_market_order_run symbol side size reduce_only max_slippage
              self)
    as (result & k & req & Hr & Hk & Horders & Hreduce & Hfields & _ & _).
  exists result, k, req. repeat split; try assumption; now apply Hfields.
Qed.

(** X20. A successful [place_market_order] has sent an order, and its order
    id is the counter of the trader plus one; the call leaves the counter
    one higher whenever the symbol is listed, whether the order went
    through or not, so that no two orders share a client order index. *)
Theorem order_ids_are_fresh (symbol : string) (side : Lighter.OrderSide)
    (size : Q) (reduce_only : bool) (max_slippage : Q)
    (self : Lighter.LighterTrader) :
  let run := Lighter.place_market_order symbol side size reduce_only
               max_slippage self in
  (forall result,
     fst run = Returns result ->
     Lighter.success result = true ->
     orders (snd run) <> orders self
     /\ Lighter.order_id result
        = Some (str_of_int (Lighter._order_counter self + 1)))
  /\ Lighter._order_counter (snd run)
     = match Lighter._get_market_index symbol with
       | Returns _ => (Lighter._order_counter self + 1)%Z
       | Raises _ => Lighter._order_counter self
       end.
Proof.
  cbv zeta.
  destruct (place_market_order_run symbol side size reduce_only max_slippage
              self)
    as (result & k & req & Hr & _ & Horders & _ & _ & Hsuccess & Hcounter).
  split; [| exact Hcounter].
  intros result' Hr' Hok. rewrite Hr in Hr'. injection Hr' as <-.
  destruct (Hsuccess Hok) as [Hk Hid]. split; [| exact Hid].
  rewrite Horders. destruct k as [|k]; [lia|]. cbn [repeat].
  intros Heq. apply (f_equal (@length _)) in Heq.
  rewrite length_app in Heq. cbn [length] in Heq. lia.
Qed.

Lemma keeps_get_positions {X} (f : Lighter.LighterTrader -> X) :
  ignores_effects f -> keeps f Lighter.get_positions.
Proof.
  intros Hf. unfold Lighter.get_positions.
  apply keeps_try_except; [| intros ?; auto with keeps].
  apply keeps_bind.
  - apply keeps_retry_operation; [| intros d; now apply keeps_sleep].
    now apply keeps_remote.
  - intros result. destruct result as [[|account rest]|]; auto with keeps.
Qed.

Lemma repeat_reduces_only (req : Lighter.MarketOrderRequest) (k : nat) :
  Lighter.req_reduce_only req = true ->
  Forall reduces_only (repeat (submission req) k).
Proof.
  intros H. induction k; cbn; constructor; assumption.
Qed.

Lemma keeps_max_retries_place (symbol : string) (side : Lighter.OrderSide)
    (size : Q) (reduce_only : bool) (max_slippage : Q) :
  keeps Lighter.max_retries
    (Lighter.place_market_order symbol side size reduce_only max_slippage).
Proof.
  unfold Lighter.place_market_order.
  apply keeps_try_except; [| intros ?; auto with keeps].
  apply keeps_bind; [auto with keeps|]. intros mi.
  apply keeps_bind; [intros s; reflexivity|]. intros index.
  apply keeps_bind;
    [apply keeps_get_market_price; intros ? ?; reflexivity|].
  intros [price |]; [| auto with keeps].
  apply keeps_bind;
    [intros s; unfold Lighter._get_signer_client;
     destruct (Lighter._signer_client s); reflexivity|].
  intros _. apply keeps_bind.
  - apply keeps_retry_operation;
      [apply keeps_remote | intros d; apply keeps_sleep];
      intros ? ?; reflexivity.
  - intros [[created response] error]. keeps_tac.
Qed.

(** The orders of [close_position]. *)
Lemma close_position_run (symbol : string) (self : Lighter.LighterTrader) :
  let run := Lighter.close_position symbol self in
  exists result new,
    fst run = Returns result
    /\ orders (snd run) = (orders self ++ new)%list
    /\ Forall reduces_only new
    /\ (length new <= Z.to_nat (Lighter.max_retries self))%nat
    /\ Lighter.max_retries (snd run) = Lighter.max_retries self.
Proof.
  cbv zeta. unfold Lighter.close_position, try_except, bind.
  pose proof (keeps_orders_get_positions self) as Ho.
  pose proof (keeps_get_positions Lighter.max_retries (fun e s => eq_refl) self)
    as Hm.
  destruct (Lighter.get_positions self) as [[positions | e] s1];
    cbn [snd] in Ho, Hm.
  - destruct (find _ positions) as [target |].
    + set (close_side := if String.eqb _ _ then _ else _).
      destruct (place_market_order_run symbol close_side (Lighter.size target)
                  true Lighter.default_max_slippage s1)
        as (result & k & req & Hr & Hk & Horders & Hreduce & _ & _ & _).
      pose proof (keeps_max_retries_place symbol close_side
                    (Lighter.size target) true Lighter.default_max_slippage s1)
        as Hmax.
      destruct (Lighter.place_market_order _ _ _ _ _ s1) as [[r | e] s2];
        cbn [fst snd] in *; [| discriminate].
      exists r, (repeat (submission req) k).
      rewrite Horders, Ho, repeat_length, <- Hm, Hmax.
      repeat split; try assumption; try reflexivity.
      now apply repeat_reduces_only.
    + exists nothing_to_close, []. cbn. rewrite app_nil_r.
      repeat split; try assumption; try constructor; lia.
  - exists (Lighter.failed (exc_str e)), []. cbn. rewrite app_nil_r.
    repeat split; try assumption; try constructor; lia.
Qed.

Lemma close_each_run (positions : list Lighter.Position) :
  forall results self,
    let run := Lighter.close_each positions results self in
    exists closed new,
      fst run = Returns closed
      /\ orders (snd run) = (orders self ++ new)%list
      /\ Forall reduces_only new
      /\ (length new
          <= length positions * Z.to_nat (Lighter.max_retries self))%nat.
Proof.
  induction positions as [|position rest IH]; intros results self; cbv zeta.
  - exists results, []. cbn. rewrite app_nil_r.
    repeat split; try constructor.
  - cbn [Lighter.close_each]. unfold bind.
    destruct (close_position_run (Lighter.symbol position) self)
      as (result & new1 & Hr & Ho & Hred & Hlen & Hmax).
    destruct (Lighter.close_position (Lighter.symbol position) self)
      as [o s1]. cbn [fst snd] in *. subst o.
    destruct (IH (dict_set (Lighter.symbol position) result results) s1)
      as (closed & new2 & Hr2 & Ho2 & Hred2 & Hlen2).
    exists closed, (new1 ++ new2)%list.
    split; [exact Hr2|]. split; [| split].
    + rewrite Ho2, Ho, app_assoc. reflexivity.
    + apply Forall_app. split; assumption.
    + rewrite length_app, Hmax in *. cbn [length]. lia.
Qed.

(** X21. Closing never opens: [close_position] and [close_all_positions]
    never raise, and every order they send is a reduce-only order;
    [close_position] sends at most [max_retries] of them. *)
Theorem closing_only_reduces (symbol : string) (self : Lighter.LighterTrader) :
  (exists result new,
     fst (Lighter.close_position symbol self) = Returns result
     /\ orders (snd (Lighter.close_position symbol self))
        = (orders self ++ new)%list
     /\ Forall reduces_only new
     /\ (length new <= Z.to_nat (Lighter.max_retries self))%nat)
  /\ (exists results new,
        fst (Lighter.close_all_positions self) = Returns results
        /\ orders (snd (Lighter.close_all_positions self))
           = (orders self ++ new)%list
        /\ Forall reduces_only new).
Proof.
  split.
  - destruct (close_position_run symbol self)
      as (result & new & Hr & Ho & Hred & Hlen & _).
    exists result, new. repeat split; assumption.
  - unfold Lighter.close_all_positions, bind.
    pose proof (keeps_orders_get_positions self) as Ho.
    destruct (get_positions_returns self) as (positions & Hp & _).
    destruct (Lighter.get_positions self) as [o s1]. cbn [fst snd] in *.
    subst o.
    destruct (close_each_run positions [] s1)
      as (closed & new & Hr & Ho2 & Hred & _).
    exists closed, new. rewrite Ho2, Ho. repeat split; assumption.
Qed.

(** X22. When [get_positions] reports no position for the symbol, which
    is also what it does when the account query fails at every attempt,
    [close_position] returns a successful result without sending any
    order. *)
Theorem close_position_nothing_to_close (symbol : string)
    (self : Lighter.LighterTrader) (positions : list Lighter.Position) :
  fst (Lighter.get_positions self) = Returns positions ->
  find (fun pos => String.eqb (upper (Lighter.symbol pos)) (upper symbol))
       positions = None ->
  fst (Lighter.close_position symbol self) = Returns nothing_to_close
  /\ orders (snd (Lighter.close_position symbol self)) = orders self.
Proof.
  intros Hp Hnone. unfold Lighter.close_position, try_except, bind.
  pose proof (keeps_orders_get_positions self) as Ho.
  destruct (Lighter.get_positions self) as [o s1]. cbn [fst snd] in *.
  subst o. rewrite Hnone. cbn. split; [reflexivity | exact Ho].
Qed.

Lemma close_position_nothing_to_close_witness :
  fst (Lighter.close_position "BTC" unreachable_trader)
  = Returns nothing_to_close
  /\ orders (snd (Lighter.close_position "BTC" unreachable_trader))
     = orders unreachable_trader.
Proof.
  apply (close_position_nothing_to_close "BTC" unreachable_trader []).
  - reflexivity.
  - reflexivity.
Defined.

(** ** Close and flip events *)

(** X25. On a CLOSE or a FLIP event the engine only reduces: whatever the
    store and the venue answer, every order [on_wallet_event] sends is a
    reduce-only order, so that a FLIP closes the mirrored position and
    never opens the opposite one. *)
Theorem close_events_only_reduce (event : Events.PositionEvent)
    (self : Strategy.StrategyEngine Lighter.LighterTrader) :
  Strategy.is_close_event event = true ->
  exists new,
    trader_orders
      (snd (Strategy.on_wallet_event Strategy.LighterTrader event self))
    = (trader_orders self ++ new)%list
    /\ Forall reduces_only new.
Proof.
  intros Hclose.
  unfold Strategy.on_wallet_event, try_except, bind.
  pose proof (keeps_trader_orders_should_follow event self) as H1.
  destruct (Strategy.should_follow Strategy.LighterTrader event self)
    as [[[should reason] | e] s1]; cbn [snd] in H1.
  2:{ exists []. cbn. rewrite app_nil_r. split; [exact H1 | constructor]. }
  destruct should; cbn [negb].
  2:{ exists []. cbn. rewrite app_nil_r. split; [exact H1 | constructor]. }
  pose proof (keeps_trader_orders_follow_params event s1) as H2.
  destruct (Strategy.calculate_follow_params Strategy.LighterTrader event s1)
    as [[[follow_size follow_side] | e] s2]; cbn [snd] in H2.
  2:{ exists []. cbn. rewrite app_nil_r. split; [congruence | constructor]. }
  destruct (Qleb follow_size 0).
  { exists []. cbn. rewrite app_nil_r. split; [congruence | constructor]. }
  unfold Strategy.execute_follow, try_except, bind. rewrite Hclose.
  unfold Strategy.on_trader at 1. cbn [Strategy.close_position Strategy.LighterTrader].
  destruct (close_position_run (Events.symbol event) (Strategy.lighter_trader s2))
    as (result & new & Hr & Ho & Hred & _ & _).
  destruct (Lighter.close_position (Events.symbol event)
              (Strategy.lighter_trader s2)) as [o t3].
  cbn [fst snd] in Hr, Ho. subst o.
  assert (H3 : trader_orders (Strategy.set_lighter_trader t3 s2)
               = (trader_orders self ++ new)%list).
  { unfold trader_orders in *. cbn. rewrite Ho. congruence. }
  exists new. split; [| exact Hred].
  destruct (Lighter.success result).
  - pose proof (keeps_trader_orders_update event follow_size follow_side true
                  (Strategy.set_lighter_trader t3 s2)) as H4.
    destruct (Strategy._update_position_in_db event follow_size follow_side
                true (Strategy.set_lighter_trader t3 s2)) as [[[] | e] s4];
      cbn [snd] in H4; unfold ret; cbn [snd]; congruence.
  - cbn. exact H3.
Qed.

Lemma close_events_only_reduce_witness :
  exists new,
    trader_orders
      (snd (Strategy.on_wallet_event Strategy.LighterTrader close_btc
              holding_engine))
    = (trader_orders holding_engine ++ new)%list
    /\ Forall reduces_only new.
Proof.
  apply (close_events_only_reduce close_btc holding_engine).
  reflexivity.
Defined.

(** ** Failures inside a run of the engine *)

Lemma same_venue_refl (t : Lighter.LighterTrader) : same_venue t t.
Proof. repeat split; reflexivity. Qed.

Lemma same_venue_trans (t1 t2 t3 : Lighter.LighterTrader) :
  same_venue t1 t2 -> same_venue t2 t3 -> same_venue t1 t3.
Proof.
  intros (A1 & B1 & C1 & D1 & E1) (A2 & B2 & C2 & D2 & E2).
  repeat split; try congruence. lia.
Qed.

Section Moves.

Context {S : Type} (R : S -> S -> Prop).
Hypothesis R_refl : forall s, R s s.
Hypothesis R_trans : forall s1 s2 s3, R s1 s2 -> R s2 s3 -> R s1 s3.

Lemma moves_ret {A} (a : A) : moves R (ret a).
Proof. intros s. apply R_refl. Qed.

Lemma moves_of_outcome {A} (o : outcome A) : moves R (of_outcome o).
Proof. intros s. destruct o; apply R_refl. Qed.

Lemma moves_bind {A B} (m : M S A) (k : A -> M S B) :
  moves R m -> (forall a, moves R (k a)) -> moves R (bind m k).
Proof.
  intros Hm Hk s. unfold bind. specialize (Hm s).
  destruct (m s) as [[a | e] s']; cbn [snd] in *; [| exact Hm].
  apply (R_trans _ _ _ Hm), Hk.
Qed.

Lemma moves_try_except {A} (m : M S A) (h : PyException -> M S A) :
  moves R m -> (forall e, moves R (h e)) -> moves R (try_except m h).
Proof.
  intros Hm Hh s. unfold try_except. specialize (Hm s).
  destruct (m s) as [[a | e] s']; cbn [snd] in *; [exact Hm|].
  apply (R_trans _ _ _ Hm), Hh.
Qed.

End Moves.

(** What a query does to the trader, given what each of its effects does:
    [quiet] holds of the effects that [R] lets pass. *)
Section QueryMoves.

Variable R : Lighter.LighterTrader -> Lighter.LighterTrader -> Prop.
Variable quiet : Lighter.Effect -> Prop.
Hypothesis R_refl : forall s, R s s.
Hypothesis R_trans : forall s1 s2 s3, R s1 s2 -> R s2 s3 -> R s1 s3.
Hypothesis R_effect : forall e s, quiet e -> R s (Lighter.record_effect e s).
Hypothesis quiet_sleep : forall d, quiet (Lighter.Sleep d).

Lemma moves_remote {A} (c : Lighter.RemoteCall)
    (api : Lighter.LighterTrader -> nat -> outcome A) :
  quiet (Lighter.Remote c) -> moves R (Lighter.remote c api).
Proof. intros Hc s. apply R_effect, Hc. Qed.

Lemma moves_sleep (d : Q) : moves R (Lighter.asyncio_sleep d).
Proof. intros s. apply R_effect, quiet_sleep. Qed.

Lemma moves_retry_loop {A} (op : M Lighter.LighterTrader A) :
  moves R op ->
  forall attempts last, moves R (Lighter.retry_loop op attempts last).
Proof.
  intros Hop attempts.
  induction attempts as [|attempt rest IH]; intros last s.
  - cbn. destruct last; apply R_refl.
  - cbn [Lighter.retry_loop]. specialize (Hop s).
    destruct (op s) as [[a | e] s']; cbn [snd] in *; [exact Hop|].
    apply (R_trans _ _ _ Hop).
    apply (moves_bind R R_trans); [| intros _; apply IH].
    destruct (attempt <? Lighter.max_retries s')%Z;
      [apply moves_sleep | apply (moves_ret R R_refl)].
Qed.

Lemma moves_query {A} (c : Lighter.RemoteCall)
    (api : Lighter.LighterTrader -> nat -> outcome A) (name : string) :
  quiet (Lighter.Remote c) ->
  moves R (Lighter._retry_operation (Lighter.remote c api) name).
Proof.
  intros Hc s. unfold Lighter._retry_operation.
  apply moves_retry_loop. now apply moves_remote.
Qed.

End QueryMoves.

(** What the operations of the client do to the trader, given what each
    of their queries does: [quiet] holds of the calls that [R] lets
    pass. *)
Section ClientMoves.

Variable R : Lighter.LighterTrader -> Lighter.LighterTrader -> Prop.
Variable quiet : Lighter.RemoteCall -> Prop.
Hypothesis R_refl : forall s, R s s.
Hypothesis R_trans : forall s1 s2 s3, R s1 s2 -> R s2 s3 -> R s1 s3.
Hypothesis R_counter : forall n s, R s (Lighter.set_order_counter n s).
Hypothesis R_signer : forall b s, R s (Lighter.set_signer_client b s).
Hypothesis R_query :
  forall A (c : Lighter.RemoteCall)
         (api : Lighter.LighterTrader -> nat -> outcome A) (name : string),
    quiet c -> moves R (Lighter._retry_operation (Lighter.remote c api) name).

Lemma moves_get_account_info :
  quiet Lighter.AccountCall -> moves R Lighter.get_account_info.
Proof.
  intros Hq. unfold Lighter.get_account_info.
  apply (moves_try_except R R_trans);
    [| intros e; apply (moves_ret R R_refl)].
  apply (moves_bind R R_trans).
  - apply R_query, Hq.
  - intros [[|account rest]|] s; apply R_refl.
Qed.

Lemma moves_get_balance :
  quiet Lighter.AccountCall -> moves R Lighter.get_balance.
Proof.
  intros Hq. unfold Lighter.get_balance.
  apply (moves_bind R R_trans); [now apply moves_get_account_info|].
  intros [info|]; apply (moves_ret R R_refl).
Qed.

Lemma moves_get_positions :
  quiet Lighter.AccountCall -> moves R Lighter.get_positions.
Proof.
  intros Hq. unfold Lighter.get_positions.
  apply (moves_try_except R R_trans);
    [| intros e; apply (moves_ret R R_refl)].
  apply (moves_bind R R_trans).
  - apply R_query, Hq.
  - intros [[|account rest]|]; apply (moves_ret R R_refl).
Qed.

Lemma moves_get_market_price (symbol : string) :
  (forall market, quiet (Lighter.OrderBookCall market)) ->
  moves R (Lighter.get_market_price symbol).
Proof.
  intros Hq. unfold Lighter.get_market_price.
  apply (moves_try_except R R_trans);
    [| intros e; apply (moves_ret R R_refl)].
  apply (moves_bind R R_trans); [apply (moves_of_outcome R R_refl)|].
  intros market. apply (moves_bind R R_trans).
  - apply R_query, Hq.
  - intros [book|]; [| apply (moves_ret R R_refl)].
    apply (moves_bind R R_trans); [apply (moves_of_outcome R R_refl)|].
    intros best_bid.
    apply (moves_bind R R_trans); [apply (moves_of_outcome R R_refl)|].
    intros best_ask.
    destruct (Lighter.truthy best_bid && Lighter.truthy best_ask);
      [apply (moves_ret R R_refl)|].
    destruct (Lighter.truthy best_bid); [apply (moves_ret R R_refl)|].
    destruct (Lighter.truthy best_ask); apply (moves_ret R R_refl).
Qed.

Lemma moves_place_market_order (symbol : string) (side : Lighter.OrderSide)
    (size : Q) (reduce_only : bool) (max_slippage : Q) :
  (forall market, quiet (Lighter.OrderBookCall market)) ->
  (forall req, quiet (Lighter.CreateMarketOrderCall req)) ->
  moves R (Lighter.place_market_order symbol side size reduce_only max_slippage).
Proof.
  intros Hbook Horder. unfold Lighter.place_market_order.
  apply (moves_try_except R R_trans);
    [| intros e; apply (moves_ret R R_refl)].
  apply (moves_bind R R_trans); [apply (moves_of_outcome R R_refl)|].
  intros market. apply (moves_bind R R_trans).
  { intros s. apply R_counter. }
  intros index. apply (moves_bind R R_trans).
  { now apply moves_get_market_price. }
  intros [price|]; [| apply (moves_ret R R_refl)].
  apply (moves_bind R R_trans).
  { intros s. unfold Lighter._get_signer_client.
    destruct (Lighter._signer_client s); [apply R_refl | apply R_signer]. }
  intros _. apply (moves_bind R R_trans).
  { apply R_query, Horder. }
  intros [[created response] error].
  destruct (Lighter.error_set error); [apply (moves_ret R R_refl)|].
  destruct response as [resp|]; [| apply (moves_ret R R_refl)].
  destruct (Lighter.code resp =? 200)%Z; apply (moves_ret R R_refl).
Qed.

Lemma moves_close_position (symbol : string) :
  (forall c, quiet c) -> moves R (Lighter.close_position symbol).
Proof.
  intros Hq. unfold Lighter.close_position.
  apply (moves_try_except R R_trans);
    [| intros e; apply (moves_ret R R_refl)].
  apply (moves_bind R R_trans); [apply moves_get_positions, Hq|].
  intros positions. destruct (find _ positions) as [target|].
  - apply moves_place_market_order; intros; apply Hq.
  - apply (moves_ret R R_refl).
Qed.

End ClientMoves.

Lemma same_venue_effect (e : Lighter.Effect) (s : Lighter.LighterTrader) :
  same_venue s (Lighter.record_effect e s).
Proof.
  repeat split. cbn. destruct e; lia.
Qed.

Lemma same_venue_query {A} (c : Lighter.RemoteCall)
    (api : Lighter.LighterTrader -> nat -> outcome A) (name : string) :
  moves same_venue (Lighter._retry_operation (Lighter.remote c api) name).
Proof.
  apply moves_query with (quiet := fun _ => True); auto.
  - apply same_venue_refl.
  - exact same_venue_trans.
  - intros; apply same_venue_effect.
Qed.

Ltac venue_side :=
  first [ apply same_venue_refl
        | exact same_venue_trans
        | intros; apply same_venue_query
        | intros; repeat split; reflexivity
        | intros; exact I ].

Lemma venue_get_positions : moves same_venue Lighter.get_positions.
Proof.
  apply moves_get_positions with (quiet := fun _ => True); venue_side.
Qed.

(** *** The calls of a kind *)

Section Kinds.

Variable p : Lighter.Effect -> bool.
Hypothesis p_sleep : forall d, p (Lighter.Sleep d) = false.

Lemma kept_query {A} (c : Lighter.RemoteCall)
    (api : Lighter.LighterTrader -> nat -> outcome A) (name : string) :
  p (Lighter.Remote c) = false ->
  moves (fun s s' => filter p (Lighter.effects s') = filter p (Lighter.effects s))
    (Lighter._retry_operation (Lighter.remote c api) name).
Proof.
  intros Hc.
  apply moves_query with (quiet := fun e => p e = false); auto.
  - intros s1 s2 s3 H1 H2. congruence.
  - intros e s He. cbn. rewrite filter_app. cbn. rewrite He.
    apply app_nil_r.
Qed.

Lemma kept_get_positions :
  p (Lighter.Remote Lighter.AccountCall) = false ->
  moves (fun s s' => filter p (Lighter.effects s') = filter p (Lighter.effects s))
    Lighter.get_positions.
Proof.
  intros Ha.
  apply moves_get_positions
    with (quiet := fun c => p (Lighter.Remote c) = false); auto.
  - intros s1 s2 s3 H1 H2. congruence.
  - intros A c api name Hc. now apply kept_query.
Qed.

End Kinds.

(** A query whose endpoint raises at each of the attempts gives up. *)
Lemma retry_gives_up {A} (c : Lighter.RemoteCall)
    (api : Lighter.LighterTrader -> nat -> outcome A) (name : string)
    (t : Lighter.LighterTrader) :
  (forall e s, api (Lighter.record_effect e s) = api s) ->
  (forall k, (k < Z.to_nat (Lighter.max_retries t))%nat ->
             raising (api t (Lighter.calls t + k)%nat)) ->
  exists e, fst (Lighter._retry_operation (Lighter.remote c api) name t) = Raises e.
Proof.
  intros Hstable Hfail.
  pose (err := fun k => match api t k with
                        | Raises e => e
                        | Returns _ => Lighter.raise_None
                        end).
  rewrite (retry_operation_all_fail c api name err t Hstable).
  - eexists. reflexivity.
  - intros k Hk. unfold err.
    destruct (Hfail (k - Lighter.calls t)%nat ltac:(lia)) as [e He].
    replace (Lighter.calls t + (k - Lighter.calls t))%nat with k in He by lia.
    now rewrite He.
Qed.

Lemma get_balance_gives_up (t : Lighter.LighterTrader) :
  (forall k, (k < Z.to_nat (Lighter.max_retries t))%nat ->
             raising (Lighter.account_api t (Lighter.calls t + k))) ->
  fst (Lighter.get_balance t) = Returns 0.
Proof.
  intros Hfail.
  destruct (retry_gives_up Lighter.AccountCall Lighter.account_api
              "獲取帳戶資訊" t (fun e s => eq_refl) Hfail) as [e He].
  unfold Lighter.get_balance, Lighter.get_account_info, bind, try_except.
  unfold Lighter.account_api_account.
  destruct (Lighter._retry_operation _ _ t) as [[r | e'] t'];
    cbn [fst] in He; [discriminate|]. reflexivity.
Qed.

(** *** The queries of a run *)

Lemma grows_refl (t : Lighter.LighterTrader) : grows t t.
Proof. exists []. cbn. split; [now rewrite app_nil_r | lia]. Qed.

Lemma grows_trans (t1 t2 t3 : Lighter.LighterTrader) :
  grows t1 t2 -> grows t2 t3 -> grows t1 t3.
Proof.
  intros (n1 & E1 & C1) (n2 & E2 & C2). exists (n1 ++ n2)%list. split.
  - rewrite E2, E1. now rewrite app_assoc.
  - rewrite C2, C1, filter_app, length_app. lia.
Qed.

Lemma grows_effect (e : Lighter.Effect) (s : Lighter.LighterTrader) :
  grows s (Lighter.record_effect e s).
Proof.
  exists [e]. split; [reflexivity|]. cbn. destruct e; cbn; lia.
Qed.

Lemma grows_retry_loop {A} (c : Lighter.RemoteCall)
    (api : Lighter.LighterTrader -> nat -> outcome A)
    (attempts : list Z) (last : option PyException) :
  moves grows (Lighter.retry_loop (Lighter.remote c api) attempts last).
Proof.
  apply moves_retry_loop with (quiet := fun _ => True); auto.
  - exact grows_refl.
  - exact grows_trans.
  - intros; apply grows_effect.
  - apply moves_remote with (quiet := fun _ => True); auto.
    intros; apply grows_effect.
Qed.

Lemma steps_refl (t : Lighter.LighterTrader) : steps t t.
Proof.
  exists []. cbn. split; [now rewrite app_nil_r|]. split; [lia | exact I].
Qed.

Lemma steps_trans (t1 t2 t3 : Lighter.LighterTrader) :
  steps t1 t2 -> steps t2 t3 -> steps t1 t3.
Proof.
  intros (n1 & E1 & C1 & H1) (n2 & E2 & C2 & H2).
  exists (n1 ++ n2)%list. split; [| split].
  - rewrite E2, E1. now rewrite app_assoc.
  - rewrite C2, C1, filter_app, length_app. lia.
  - destruct n1 as [|e n1]; [exact H2 | exact H1].
Qed.

(** A state that differs from [s] in neither the effects nor the calls
    nor the venue. *)
Lemma steps_still (s s' : Lighter.LighterTrader) :
  Lighter.effects s' = Lighter.effects s ->
  Lighter.calls s' = Lighter.calls s ->
  steps s s'.
Proof.
  intros E C. exists []. rewrite E, C, app_nil_r. cbn.
  split; [reflexivity|]. split; [lia | exact I].
Qed.

Lemma steps_query {A} (c : Lighter.RemoteCall)
    (api : Lighter.LighterTrader -> nat -> outcome A) (name : string) :
  moves steps (Lighter._retry_operation (Lighter.remote c api) name).
Proof.
  intros s. unfold Lighter._retry_operation.
  destruct (py_range 1 (Lighter.max_retries s + 1)) as [|attempt rest].
  - cbn. apply steps_refl.
  - cbn [Lighter.retry_loop]. unfold Lighter.remote at 1.
    destruct (api s (Lighter.calls s)) as [a | e].
    + cbn [snd]. exists [Lighter.Remote c]. cbn.
      split; [reflexivity|]. split; [lia | exact I].
    + set (s1 := Lighter.record_effect (Lighter.Remote c) s).
      assert (G : forall k : M Lighter.LighterTrader A,
                 moves grows k -> steps s (snd (k s1))).
      { intros k Hk. destruct (Hk s1) as (new & E & C).
        exists (Lighter.Remote c :: new). split; [| split].
        - rewrite E. subst s1. cbn. now rewrite <- app_assoc.
        - rewrite C. subst s1. cbn. lia.
        - exact I. }
      apply G.
      apply (moves_bind grows grows_trans);
        [| intros _; apply grows_retry_loop].
      destruct (attempt <? Lighter.max_retries s1)%Z.
      * intros s2. apply grows_effect.
      * intros s2. apply grows_refl.
Qed.

Ltac steps_side :=
  first [ apply steps_refl
        | exact steps_trans
        | intros; apply steps_query
        | intros; apply steps_still; reflexivity
        | intros; exact I ].

Lemma steps_get_positions : moves steps Lighter.get_positions.
Proof.
  apply moves_get_positions with (quiet := fun _ => True); steps_side.
Qed.

Lemma run_effects_new (t t' : Lighter.LighterTrader) (new : list Lighter.Effect) :
  Lighter.effects t' = (Lighter.effects t ++ new)%list ->
  run_effects t t' = new.
Proof.
  intros E. unfold run_effects.
  rewrite E, skipn_app, skipn_all, Nat.sub_diag. reflexivity.
Qed.

Lemma last_attempts_In (es : list Lighter.Effect) : forall n k c,
  In (k, c) (last_attempts n es) -> In (Lighter.Remote c) es.
Proof.
  induction es as [|e es IH]; intros n k c H; [contradiction|].
  destruct e as [c' | d].
  - cbn [last_attempts] in H.
    destruct es as [|[c2 | d2] es'].
    + destruct H as [H | H]; [inversion H; now left | contradiction].
    + destruct H as [H | H]; [inversion H; now left | right; eapply IH; eauto].
    + right. eapply IH; eauto.
  - right. eapply IH; eauto.
Qed.

Lemma last_attempts_app (l1 l2 : list Lighter.Effect) :
  starts_with_call l2 ->
  forall n,
    last_attempts n (l1 ++ l2)
    = (last_attempts n l1
       ++ last_attempts (n + length (filter is_remote l1)) l2)%list.
Proof.
  intros H2. induction l1 as [|e l1 IH]; intros n.
  - cbn. now rewrite Nat.add_0_r.
  - destruct e as [c | d].
    + specialize (IH (S n)).
      assert (Hn : (n + length (filter is_remote (Lighter.Remote c :: l1)))%nat
                   = (S n + length (filter is_remote l1))%nat)
        by (cbn; lia).
      rewrite Hn.
      destruct l1 as [|[c1 | d1] l1'].
      * cbn [app filter is_remote length] in *.
        rewrite Nat.add_0_r in *.
        destruct l2 as [|[c2 | d2] l2']; [reflexivity | reflexivity | contradiction].
      * change ((Lighter.Remote c :: Lighter.Remote c1 :: l1') ++ l2)%list
          with (Lighter.Remote c :: (Lighter.Remote c1 :: l1') ++ l2)%list.
        change (last_attempts n
                  (Lighter.Remote c :: (Lighter.Remote c1 :: l1') ++ l2)%list)
          with ((n, c) :: last_attempts (S n)
                            ((Lighter.Remote c1 :: l1') ++ l2)%list).
        change (last_attempts n (Lighter.Remote c :: Lighter.Remote c1 :: l1'))
          with ((n, c) :: last_attempts (S n) (Lighter.Remote c1 :: l1')).
        rewrite IH. reflexivity.
      * change ((Lighter.Remote c :: Lighter.Sleep d1 :: l1') ++ l2)%list
          with (Lighter.Remote c :: (Lighter.Sleep d1 :: l1') ++ l2)%list.
        change (last_attempts n
                  (Lighter.Remote c :: (Lighter.Sleep d1 :: l1') ++ l2)%list)
          with (last_attempts (S n) ((Lighter.Sleep d1 :: l1') ++ l2)%list).
        change (last_attempts n (Lighter.Remote c :: Lighter.Sleep d1 :: l1'))
          with (last_attempts (S n) (Lighter.Sleep d1 :: l1')).
        exact IH.
    + change (last_attempts n ((Lighter.Sleep d :: l1) ++ l2)%list)
        with (last_attempts n (l1 ++ l2)%list).
      change (last_attempts n (Lighter.Sleep d :: l1))
        with (last_attempts n l1).
      change (filter is_remote (Lighter.Sleep d :: l1))
        with (filter is_remote l1).
      apply IH.
Qed.

Lemma answered_run_refl (p : Lighter.Effect -> bool) (t : Lighter.LighterTrader) :
  answered_run p t t.
Proof.
  split; [apply steps_refl|]. split; [apply same_venue_refl|].
  intros n c Hin. rewrite (run_effects_new t t []) in Hin
    by (now rewrite app_nil_r).
  contradiction.
Qed.

Lemma answered_run_trans (p : Lighter.Effect -> bool)
    (t t1 t2 : Lighter.LighterTrader) :
  answered_run p t t1 -> answered_run p t1 t2 -> answered_run p t t2.
Proof.
  intros (S1 & V1 & A1) (S2 & V2 & A2).
  split; [exact (steps_trans _ _ _ S1 S2)|].
  split; [exact (same_venue_trans _ _ _ V1 V2)|].
  destruct S1 as (n1 & E1 & C1 & H1), S2 as (n2 & E2 & C2 & H2).
  intros n c Hin Hp Hraises.
  rewrite (run_effects_new t t2 (n1 ++ n2)%list) in Hin
    by (rewrite E2, E1; now rewrite app_assoc).
  rewrite (last_attempts_app n1 n2 H2), <- C1 in Hin.
  apply in_app_or in Hin. destruct Hin as [Hin | Hin].
  - apply (A1 n c); [| exact Hp | exact Hraises].
    now rewrite (run_effects_new t t1 n1 E1).
  - apply (A2 n c); [| exact Hp |].
    + now rewrite (run_effects_new t1 t2 n2 E2).
    + destruct V1 as (Va & Vb & Vc & _).
      destruct c; cbn in *; congruence.
Qed.

(** A run that leaves the calls selected by [p] as they were has made
    none of them. *)
Lemma answered_run_quiet (p : Lighter.Effect -> bool)
    (t t' : Lighter.LighterTrader) :
  steps t t' -> same_venue t t' ->
  filter p (Lighter.effects t') = filter p (Lighter.effects t) ->
  answered_run p t t'.
Proof.
  intros S V Hkept. split; [exact S|]. split; [exact V|].
  destruct S as (new & E & _). intros n c Hin Hp.
  rewrite (run_effects_new t t' new E) in Hin.
  apply last_attempts_In in Hin.
  rewrite E, filter_app in Hkept.
  assert (Hnil : filter p new = []).
  { apply (app_inv_head (filter p (Lighter.effects t))).
    now rewrite app_nil_r. }
  assert (Hf : In (Lighter.Remote c) (filter p new))
    by (apply filter_In; split; assumption).
  rewrite Hnil in Hf. contradiction.
Qed.

Lemma answered_run_still (p : Lighter.Effect -> bool)
    (s s' : Lighter.LighterTrader) :
  Lighter.effects s' = Lighter.effects s ->
  Lighter.calls s' = Lighter.calls s ->
  same_venue s s' ->
  answered_run p s s'.
Proof.
  intros E C V. apply answered_run_quiet.
  - now apply steps_still.
  - exact V.
  - now rewrite E.
Qed.

(** The trace of a query that returns: the attempts that raised were each
    followed by a sleep, and the venue answered the last one. *)
Lemma retry_loop_returns {A} (c : Lighter.RemoteCall)
    (api : Lighter.LighterTrader -> nat -> outcome A)
    (Hstable : forall e s, api (Lighter.record_effect e s) = api s) :
  forall (n : nat) (lo : Z) (last : option PyException)
         (s s' : Lighter.LighterTrader) (a : A),
    (lo + Z.of_nat n = Lighter.max_retries s + 1)%Z ->
    Lighter.retry_loop (Lighter.remote c api) (range_from lo n) last s
    = (Returns a, s') ->
    exists new k,
      Lighter.effects s' = (Lighter.effects s ++ new)%list
      /\ Lighter.calls s' = (Lighter.calls s + length (filter is_remote new))%nat
      /\ starts_with_call new
      /\ last_attempts (Lighter.calls s) new = [(k, c)]
      /\ api s k = Returns a.
Proof.
  induction n as [|n IH]; intros lo last s s' a Hlo Hrun.
  - cbn in Hrun. destruct last; discriminate.
  - cbn [range_from Lighter.retry_loop] in Hrun.
    unfold Lighter.remote at 1 in Hrun.
    destruct (api s (Lighter.calls s)) as [a0 | e] eqn:Eapi.
    + inversion Hrun. subst a0 s'.
      exists [Lighter.Remote c], (Lighter.calls s). cbn.
      repeat split; try reflexivity; try lia. exact Eapi.
    + set (s1 := Lighter.record_effect (Lighter.Remote c) s) in *.
      unfold bind in Hrun.
      change (Lighter.max_retries s1) with (Lighter.max_retries s) in Hrun.
      destruct (lo <? Lighter.max_retries s)%Z eqn:Hlt.
      * unfold Lighter.asyncio_sleep at 1 in Hrun.
        set (s2 := Lighter.record_effect _ s1) in *.
        destruct (IH (lo + 1)%Z (Some e) s2 s' a) as (new & k & E & C & _ & L & Hk).
        { change (Lighter.max_retries s2) with (Lighter.max_retries s). lia. }
        { exact Hrun. }
        exists (Lighter.Remote c
                  :: Lighter.Sleep (Lighter.retry_delay s1) :: new), k.
        repeat split.
        -- rewrite E. subst s2 s1. cbn. now rewrite <- !app_assoc.
        -- rewrite C. subst s2 s1. cbn. lia.
        -- exact L.
        -- subst s2 s1. now rewrite !Hstable in Hk.
      * apply Z.ltb_ge in Hlt.
        assert (n = 0%nat) by lia. subst n.
        cbn in Hrun. discriminate Hrun.
Qed.

Lemma query_answered {A} (p : Lighter.Effect -> bool) (c : Lighter.RemoteCall)
    (api : Lighter.LighterTrader -> nat -> outcome A) (name : string)
    (s s' : Lighter.LighterTrader) (a : A) :
  (forall e t, api (Lighter.record_effect e t) = api t) ->
  (forall n, call_raises s n c -> raising (api s n)) ->
  Lighter._retry_operation (Lighter.remote c api) name s = (Returns a, s') ->
  answered_run p s s'.
Proof.
  intros Hstable Hcall Hrun.
  pose proof (same_venue_query c api name s) as V.
  rewrite Hrun in V. cbn [snd] in V.
  unfold Lighter._retry_operation, py_range in Hrun.
  destruct (Z_le_gt_dec (Lighter.max_retries s) 0) as [Hle | Hgt].
  { replace (Z.to_nat (Lighter.max_retries s + 1 - 1)) with O in Hrun by lia.
    discriminate Hrun. }
  destruct (retry_loop_returns c api Hstable
              (Z.to_nat (Lighter.max_retries s + 1 - 1)) 1%Z None s s' a)
    as (new & k & E & C & H & L & Hk); [lia | exact Hrun |].
  split; [exists new; repeat split; assumption|]. split; [exact V|].
  intros n c' Hin _ Hraises.
  rewrite (run_effects_new s s' new E), L in Hin.
  destruct Hin as [Hin | []]. inversion Hin. subst n c'.
  destruct (Hcall k Hraises) as [e He]. congruence.
Qed.

Ltac answered_by Er :=
  match type of Er with
  | Lighter._retry_operation (Lighter.remote ?c ?api) ?name ?s
    = (Returns ?a, ?s') =>
      exact (query_answered _ c api name s s' a (fun e t => eq_refl)
               (fun n H => H) Er)
  end.

Lemma get_balance_answered (p : Lighter.Effect -> bool)
    (t t' : Lighter.LighterTrader) (b : Q) :
  Lighter.get_balance t = (Returns b, t') -> Qleb b 0 = false ->
  answered_run p t t'.
Proof.
  intros Hrun Hb.
  unfold Lighter.get_balance, Lighter.get_account_info, bind, try_except,
    Lighter.account_api_account in Hrun.
  destruct (Lighter._retry_operation _ _ t) as [[result | e] s1] eqn:Er.
  - assert (Hs : t' = s1).
    { destruct result as [[|account rest]|]; cbn in Hrun; inversion Hrun;
        reflexivity. }
    subst t'.
    answered_by Er.
  - cbn in Hrun. inversion Hrun. subst b. discriminate Hb.
Qed.

Lemma get_positions_answered (p : Lighter.Effect -> bool)
    (t t' : Lighter.LighterTrader) (ps : list Lighter.Position) :
  Lighter.get_positions t = (Returns ps, t') -> ps <> [] ->
  answered_run p t t'.
Proof.
  intros Hrun Hps.
  unfold Lighter.get_positions, bind, try_except,
    Lighter.account_api_account in Hrun.
  destruct (Lighter._retry_operation _ _ t) as [[result | e] s1] eqn:Er.
  - assert (Hs : t' = s1).
    { destruct result as [[|account rest]|]; cbn in Hrun; inversion Hrun;
        reflexivity. }
    subst t'.
    answered_by Er.
  - cbn in Hrun. inversion Hrun. subst ps. contradiction.
Qed.

Lemma get_market_price_answered (p : Lighter.Effect -> bool) (symbol : string)
    (t t' : Lighter.LighterTrader) (price : Q) :
  Lighter.get_market_price symbol t = (Returns (Some price), t') ->
  answered_run p t t'.
Proof.
  intros Hrun.
  unfold Lighter.get_market_price, bind, try_except, of_outcome,
    Lighter.order_api_order_book_orders in Hrun.
  destruct (Lighter._get_market_index symbol) as [market | e];
    [| discriminate].
  destruct (Lighter._retry_operation _ _ t) as [[book | e] s1] eqn:Er;
    [| discriminate].
  assert (Hs : t' = s1).
  { destruct book as [book|]; [| discriminate].
    destruct (Lighter.best_of (Lighter.bids book)) as [bid | e];
      [| discriminate].
    destruct (Lighter.best_of (Lighter.asks book)) as [ask | e];
      [| discriminate].
    destruct (Lighter.truthy bid && Lighter.truthy ask);
      [inversion Hrun; reflexivity|].
    destruct (Lighter.truthy bid); [inversion Hrun; reflexivity|].
    destruct (Lighter.truthy ask); inversion Hrun; reflexivity. }
  subst t'.
  answered_by Er.
Qed.

(** An order that is reported as a success: the venue answered its price
    query and its submission. *)
Lemma place_market_order_answered (p : Lighter.Effect -> bool)
    (symbol : string) (side : Lighter.OrderSide) (size : Q)
    (reduce_only : bool) (max_slippage : Q)
    (t t' : Lighter.LighterTrader) (result : Lighter.OrderResult) :
  Lighter.place_market_order symbol side size reduce_only max_slippage t
  = (Returns result, t') ->
  Lighter.success result = true ->
  answered_run p t t'.
Proof.
  intros Hrun Hsuccess.
  assert (Hfailed : forall msg s,
             (Returns (Lighter.failed msg), s) <> (Returns result, t')).
  { intros msg s E. inversion E. subst result. discriminate Hsuccess. }
  unfold Lighter.place_market_order, try_except, bind, of_outcome in Hrun.
  destruct (Lighter._get_market_index symbol) as [market | e];
    [| now apply Hfailed in Hrun].
  unfold Lighter._generate_client_order_index in Hrun.
  set (s0 := Lighter.set_order_counter _ t) in Hrun.
  assert (R0 : answered_run p t s0)
    by (apply answered_run_still; repeat split; reflexivity).
  destruct (Lighter.get_market_price symbol s0) as [[[price |] | e] s1] eqn:Ep;
    [| now apply Hfailed in Hrun | now apply Hfailed in Hrun].
  pose proof (get_market_price_answered p _ _ _ _ Ep) as R1.
  set (s2 := snd (Lighter._get_signer_client s1)) in *.
  assert (Hs2 : Lighter._get_signer_client s1 = (Returns tt, s2)).
  { subst s2. unfold Lighter._get_signer_client.
    destruct (Lighter._signer_client s1); reflexivity. }
  assert (R2 : answered_run p s1 s2).
  { subst s2. unfold Lighter._get_signer_client.
    destruct (Lighter._signer_client s1);
      apply answered_run_still; repeat split; reflexivity. }
  rewrite Hs2 in Hrun. unfold Lighter.signer_create_market_order in Hrun.
  destruct (Lighter._retry_operation _ _ s2) as [[reply | e] s3] eqn:Er;
    [| now apply Hfailed in Hrun].
  assert (R3 : answered_run p s2 s3) by answered_by Er.
  assert (Hs : t' = s3).
  { destruct reply as [[created response] error].
    destruct (Lighter.error_set error); [now apply Hfailed in Hrun|].
    destruct response as [resp |]; [| now apply Hfailed in Hrun].
    destruct (Lighter.code resp =? 200)%Z; [| now apply Hfailed in Hrun].
    inversion Hrun. reflexivity. }
  subst t'.
  exact (answered_run_trans _ _ _ _ R0
           (answered_run_trans _ _ _ _ R1
              (answered_run_trans _ _ _ _ R2 R3))).
Qed.

(** A close that is reported as a success: the venue answered its price
    query and its submission, when it made them. *)
Lemma close_position_answered (p : Lighter.Effect -> bool) (symbol : string)
    (t t' : Lighter.LighterTrader) (result : Lighter.OrderResult) :
  p (Lighter.Remote Lighter.AccountCall) = false ->
  (forall d, p (Lighter.Sleep d) = false) ->
  Lighter.close_position symbol t = (Returns result, t') ->
  Lighter.success result = true ->
  answered_run p t t'.
Proof.
  intros Haccount Hsleep Hrun Hsuccess.
  unfold Lighter.close_position, try_except, bind in Hrun.
  pose proof (steps_get_positions t) as S1.
  pose proof (venue_get_positions t) as V1.
  pose proof (kept_get_positions p Hsleep Haccount t) as K1.
  destruct (Lighter.get_positions t) as [[positions | e] t1];
    cbn [snd] in S1, V1, K1.
  2:{ inversion Hrun. subst result. discriminate Hsuccess. }
  pose proof (answered_run_quiet p t t1 S1 V1 K1) as R1.
  destruct (find _ positions) as [target |].
  - destruct (Lighter.place_market_order _ _ _ _ _ t1) as [[r | e] t2] eqn:Ep.
    2:{ inversion Hrun. subst result. discriminate Hsuccess. }
    inversion Hrun. subst r t2.
    exact (answered_run_trans _ _ _ _ R1
             (place_market_order_answered p _ _ _ _ _ _ _ _ Ep Hsuccess)).
  - inversion Hrun. subst t'. exact R1.
Qed.

(** *** The path to FOLLOW *)

Lemma get_wallet_returned (address : string) (db db' : Db.DatabaseManager)
    (w : option Db.WalletRow) :
  Db.get_wallet address db = (Returns w, db') ->
  Db.faults db (Db.statements db) = None
  /\ Db.faults db' = Db.faults db
  /\ Db.statements db' = S (Db.statements db).
Proof.
  unfold Db.get_wallet, Db.log_and_reraise, try_except, bind, Db.execute, raise.
  destruct (Db.faults db (Db.statements db)); cbn; intros E; inversion E.
  repeat split.
Qed.

Lemma get_position_returned (symbol : string) (db db' : Db.DatabaseManager)
    (p : option Db.PositionRow) :
  Db.get_position symbol db = (Returns p, db') ->
  Db.faults db (Db.statements db) = None
  /\ Db.faults db' = Db.faults db
  /\ Db.statements db' = S (Db.statements db).
Proof.
  unfold Db.get_position, Db.log_and_reraise, try_except, bind, Db.execute, raise.
  destruct (Db.faults db (Db.statements db)); cbn; intros E; inversion E.
  repeat split.
Qed.

Lemma keeps_trader_on_db {T A} (m : M Db.DatabaseManager A) :
  keeps (@Strategy.lighter_trader T) (Strategy.on_db m).
Proof.
  intros s. unfold Strategy.on_db. destruct (m (Strategy.db_manager s)).
  reflexivity.
Qed.

Lemma keeps_trader_update {T} (event : Events.PositionEvent) (size : Q)
    (side : Lighter.OrderSide) (is_close : bool) :
  keeps (@Strategy.lighter_trader T)
    (Strategy._update_position_in_db event size side is_close).
Proof.
  unfold Strategy._update_position_in_db.
  apply keeps_try_except; [| intros e s; reflexivity].
  destruct is_close; (apply keeps_bind; [apply keeps_trader_on_db|]);
    intros a s; reflexivity.
Qed.

Lemma keeps_db_on_trader {T A} (m : M T A) :
  keeps (@Strategy.db_manager T) (Strategy.on_trader m).
Proof.
  intros s. unfold Strategy.on_trader. destruct (m (Strategy.lighter_trader s)).
  reflexivity.
Qed.

Lemma keeps_db_get_my_balance {T} (trader : Strategy.Trader T) :
  keeps (@Strategy.db_manager T) (Strategy._get_my_balance trader).
Proof.
  unfold Strategy._get_my_balance.
  apply keeps_bind; [intros s; reflexivity|]. intros current_time.
  apply keeps_bind; [intros s; reflexivity|]. intros updated_at.
  apply keeps_bind; [intros s; reflexivity|]. intros cache_seconds.
  apply keeps_bind; [| intros _ s; reflexivity].
  destruct (Qgtb _ _); [| intros s; reflexivity].
  apply keeps_try_except; [| intros e s; reflexivity].
  apply keeps_bind; [apply keeps_db_on_trader|]. intros b s. reflexivity.
Qed.

(** An event the eligibility check lets through: the two reads of the
    store ran, and the balance read after them is above zero. *)
Lemma should_follow_true {T} (trader : Strategy.Trader T)
    (event : Events.PositionEvent) (self s1 : Strategy.StrategyEngine T)
    (reason : string) :
  Strategy.should_follow trader event self = (Returns (true, reason), s1) ->
  let db := Strategy.db_manager self in
  Db.faults db (Db.statements db) = None
  /\ Db.faults db (S (Db.statements db)) = None
  /\ exists d' b,
       Db.faults d' = Db.faults db
       /\ Db.statements d' = S (S (Db.statements db))
       /\ Strategy._get_my_balance trader (Strategy.set_db_manager d' self)
          = (Returns b, s1)
       /\ Qleb b 0 = false.
Proof.
  intros Hrun db. subst db.
  unfold Strategy.should_follow, bind in Hrun.
  unfold Strategy.on_db at 1 in Hrun.
  destruct (Db.get_wallet _ (Strategy.db_manager self)) as [[w | e] d1] eqn:E1;
    [| discriminate].
  destruct (get_wallet_returned _ _ _ _ E1) as (F1 & G1 & N1).
  destruct w as [w|]; [| discriminate].
  destruct (negb (Db.enabled w)); [discriminate|].
  unfold Strategy.check_position_lock, bind in Hrun.
  unfold Strategy.on_db at 1 in Hrun.
  cbn [Strategy.db_manager Strategy.set_db_manager] in Hrun.
  destruct (Db.get_position _ d1) as [[p | e] d2] eqn:E2; [| discriminate].
  destruct (get_position_returned _ _ _ _ E2) as (F2 & G2 & N2).
  rewrite G1, N1 in F2.
  split; [exact F1|]. split; [exact F2|].
  exists d2.
  assert (Hstate : Strategy.set_db_manager d2 (Strategy.set_db_manager d1 self)
                   = Strategy.set_db_manager d2 self) by reflexivity.
  rewrite Hstate in Hrun.
  assert (Hbal : forall s1',
             (my_balance <- Strategy._get_my_balance trader ;;
              if Qleb my_balance 0 then ret (false, "餘額不足")
              else match Events.event_type event with
                   | Events.UNKNOWN => ret (false, "未知事件類型")
                   | _ => ret (true, "OK")
                   end) (Strategy.set_db_manager d2 self)
             = (Returns (true, reason), s1') ->
             exists b,
               Strategy._get_my_balance trader (Strategy.set_db_manager d2 self)
               = (Returns b, s1')
               /\ Qleb b 0 = false).
  { intros s1'. unfold bind.
    destruct (Strategy._get_my_balance trader _) as [[b | e] s'];
      [| discriminate].
    destruct (Qleb b 0) eqn:Hb; [discriminate|].
    intros E. exists b. split; [| exact Hb].
    destruct (Events.event_type event); inversion E; reflexivity. }
  destruct p as [position|].
  - destruct (String.eqb _ _); [| discriminate].
    destruct (Hbal s1 Hrun) as (b & Hb & Hpos).
    exists b. repeat split; try assumption; congruence.
  - destruct (Hbal s1 Hrun) as (b & Hb & Hpos).
    exists b. repeat split; try assumption; congruence.
Qed.

(** A positive size for an OPEN or INCREASE event: the balance read was
    above zero, the cap lookup ran and the trader gave a price. *)
Lemma opening_params_positive {T} (trader : Strategy.Trader T)
    (event : Events.PositionEvent) (s1 s2 : Strategy.StrategyEngine T)
    (size : Q) (side : Lighter.OrderSide) :
  opening event ->
  Strategy.calculate_follow_params trader event s1 = (Returns (size, side), s2) ->
  Qleb size 0 = false ->
  exists b sa price,
    Strategy._get_my_balance trader s1 = (Returns b, sa)
    /\ Qleb b 0 = false
    /\ Db.faults (Strategy.db_manager sa) (Db.statements (Strategy.db_manager sa))
       = None
    /\ Strategy.get_market_price trader (Events.symbol event)
         (Strategy.lighter_trader sa)
       = (Returns (Some price), Strategy.lighter_trader s2).
Proof.
  intros Hkind Hrun Hsize.
  assert (Hopen : Strategy._calculate_open_params trader event s1
                  = (Returns (size, side), s2)).
  { unfold Strategy.calculate_follow_params,
      Strategy._calculate_increase_params in Hrun.
    destruct Hkind as [K | K]; rewrite K in Hrun; exact Hrun. }
  clear Hrun.
  assert (Hzero : forall s, (Returns (size, side), s2)
                            <> (@ret (Strategy.StrategyEngine T) _
                                  (0, Lighter.BUY)) s).
  { intros s E. inversion E. subst size. discriminate Hsize. }
  unfold Strategy._calculate_open_params, Strategy.calculate_follow_size,
    bind in Hopen.
  destruct (Strategy._get_my_balance trader s1) as [[b | e] sa] eqn:Eb;
    [| discriminate].
  exists b, sa.
  destruct (Qleb b 0) eqn:Hb.
  { unfold ret at 1 in Hopen. change (Qleb 0 0) with true in Hopen.
    cbn iota in Hopen. symmetry in Hopen. now apply Hzero in Hopen. }
  unfold Strategy.on_db at 1 in Hopen.
  destruct (Db.get_wallet _ (Strategy.db_manager sa)) as [[w | e] d1] eqn:E1;
    [| discriminate].
  destruct (get_wallet_returned _ _ _ _ E1) as (F1 & _).
  destruct w as [w|]; [| discriminate].
  unfold Strategy.read at 1 in Hopen.
  set (sb := Strategy.set_db_manager d1 sa) in *.
  set (follow_usd := if Qgtb _ _ then _ else _) in Hopen.
  assert (Hret : exists usd, follow_usd sb = (Returns usd, sb)).
  { subst follow_usd. destruct (Qgtb _ _); eexists; reflexivity. }
  destruct Hret as (usd & Husd). rewrite Husd in Hopen.
  destruct (Qleb usd 0); [symmetry in Hopen; now apply Hzero in Hopen|].
  unfold Strategy.on_trader at 1 in Hopen.
  change (Strategy.lighter_trader sb) with (Strategy.lighter_trader sa) in Hopen.
  destruct (Strategy.get_market_price trader _ (Strategy.lighter_trader sa))
    as [[price | e] t2] eqn:Ep; [| discriminate].
  destruct price as [price|]; [| symmetry in Hopen; now apply Hzero in Hopen].
  destruct (Qleb price 0); [symmetry in Hopen; now apply Hzero in Hopen|].
  exists price. inversion Hopen. repeat split; try assumption.
Qed.

(** A positive size for any other event: the trader reported a position. *)
Lemma position_params_positive {T} (trader : Strategy.Trader T)
    (event : Events.PositionEvent) (s1 s2 : Strategy.StrategyEngine T)
    (size : Q) (side : Lighter.OrderSide) :
  ~ opening event ->
  Strategy.calculate_follow_params trader event s1 = (Returns (size, side), s2) ->
  Qleb size 0 = false ->
  exists ps,
    Strategy.get_positions trader (Strategy.lighter_trader s1)
    = (Returns ps, Strategy.lighter_trader s2)
    /\ ps <> [].
Proof.
  intros Hkind Hrun Hsize.
  assert (Hzero : forall s, (@ret (Strategy.StrategyEngine T) _
                               (0, Lighter.BUY)) s
                            <> (Returns (size, side), s2)).
  { intros s E. inversion E. subst size. discriminate Hsize. }
  assert (Hpos : forall k,
             (my_positions <- Strategy.on_trader (Strategy.get_positions trader) ;;
              match find (Strategy.same_symbol (Events.symbol event)) my_positions with
              | Some pos => k pos
              | None => ret (0, Lighter.BUY)
              end) s1 = (Returns (size, side), s2) ->
             (forall pos s, snd (k pos s) = s) ->
             exists ps,
               Strategy.get_positions trader (Strategy.lighter_trader s1)
               = (Returns ps, Strategy.lighter_trader s2)
               /\ ps <> []).
  { intros k E Hk. unfold bind, Strategy.on_trader in E.
    destruct (Strategy.get_positions trader (Strategy.lighter_trader s1))
      as [[ps | e] t2]; [| discriminate].
    exists ps. destruct ps as [|p ps]; [now apply Hzero in E|].
    split; [| discriminate].
    destruct (find _ (p :: ps)) as [pos|]; [| now apply Hzero in E].
    specialize (Hk pos (Strategy.set_lighter_trader t2 s1)).
    rewrite E in Hk. cbn [snd] in Hk. subst s2. reflexivity. }
  unfold Strategy.calculate_follow_params, Strategy._calculate_flip_params
    in Hrun.
  destruct (Events.event_type event) eqn:K.
  - exfalso. apply Hkind. now left.
  - apply (Hpos _ Hrun). intros pos s.
    destruct (String.eqb _ _); reflexivity.
  - exfalso. apply Hkind. now right.
  - apply (Hpos _ Hrun). intros pos s.
    destruct (String.eqb _ _); reflexivity.
  - apply (Hpos _ Hrun). intros pos s.
    destruct (String.eqb _ _); reflexivity.
  - now apply Hzero in Hrun.
Qed.

(** An event that is followed went through the eligibility check, was
    given a positive size, and the trader reported the order or the close
    as a success. *)
Lemma follow_inversion {T} (trader : Strategy.Trader T)
    (event : Events.PositionEvent) (self self' : Strategy.StrategyEngine T)
    (r : Strategy.FollowResult) :
  Strategy.on_wallet_event trader event self = (Returns r, self') ->
  Strategy.decision r = Strategy.FOLLOW ->
  exists reason s1 size side s2 o,
    Strategy.should_follow trader event self = (Returns (true, reason), s1)
    /\ Strategy.calculate_follow_params trader event s1
       = (Returns (size, side), s2)
    /\ Qleb size 0 = false
    /\ (if Strategy.is_close_event event
        then Strategy.close_position trader (Events.symbol event)
        else Strategy.place_market_order trader (Events.symbol event) side size
               false Lighter.default_max_slippage)
         (Strategy.lighter_trader s2)
       = (Returns o, Strategy.lighter_trader self')
    /\ Lighter.success o = true.
Proof.
  intros Hrun Hfollow.
  unfold Strategy.on_wallet_event, try_except, bind in Hrun.
  destruct (Strategy.should_follow trader event self)
    as [[[should reason] | e] s1] eqn:E1.
  2:{ inversion Hrun. subst r. discriminate Hfollow. }
  destruct should; cbn [negb] in Hrun.
  2:{ inversion Hrun. subst r. discriminate Hfollow. }
  destruct (Strategy.calculate_follow_params trader event s1)
    as [[[size side] | e] s2] eqn:E2.
  2:{ inversion Hrun. subst r. discriminate Hfollow. }
  destruct (Qleb size 0) eqn:Hsize.
  { inversion Hrun. subst r. discriminate Hfollow. }
  exists reason, s1, size, side, s2.
  unfold Strategy.execute_follow, try_except, bind in Hrun.
  set (op := if Strategy.is_close_event event then _ else _) in *.
  assert (Hop : forall o s3, op s2 = (o, s3) ->
             exists t3,
               (if Strategy.is_close_event event
                then Strategy.close_position trader (Events.symbol event)
                else Strategy.place_market_order trader (Events.symbol event)
                       side size false Lighter.default_max_slippage)
                 (Strategy.lighter_trader s2) = (o, t3)
               /\ Strategy.lighter_trader s3 = t3).
  { intros o s3. subst op. unfold Strategy.on_trader.
    destruct (Strategy.is_close_event event).
    - destruct (Strategy.close_position trader _ _) as [o' t3].
      intros E. inversion E. exists t3. split; reflexivity.
    - destruct (Strategy.place_market_order trader _ _ _ _ _ _) as [o' t3].
      intros E. inversion E. exists t3. split; reflexivity. }
  destruct (op s2) as [[o | e] s3] eqn:E3.
  2:{ inversion Hrun. subst r. discriminate Hfollow. }
  destruct (Hop _ _ eq_refl) as (t3 & Ht3 & Hs3).
  exists o.
  destruct (Lighter.success o) eqn:Hsuccess.
  2:{ inversion Hrun. subst r. discriminate Hfollow. }
  pose proof (keeps_trader_update event size side
                (Strategy.is_close_event event) s3) as Hkeep.
  destruct (Strategy._update_position_in_db event size side _ s3)
    as [[[] | e] s4]; cbn [snd] in Hkeep.
  - inversion Hrun. subst self'. rewrite Hkeep, Hs3.
    repeat split; try assumption; reflexivity.
  - inversion Hrun. subst r. discriminate Hfollow.
Qed.

Lemma opening_dec (event : Events.PositionEvent) :
  opening event \/ ~ opening event.
Proof.
  unfold opening. destruct (Events.event_type event);
    try (left; auto; fail); right; intros [E | E]; discriminate.
Qed.

(** The balance read of an engine on the Lighter client: the trader is
    left as it was or has answered a balance query with what is read; the
    latter when the cached balance is older than the cache interval. *)
Lemma get_my_balance_lighter
    (s s' : Strategy.StrategyEngine Lighter.LighterTrader) (b : Q) :
  Strategy._get_my_balance Strategy.LighterTrader s = (Returns b, s') ->
  (Strategy.lighter_trader s' = Strategy.lighter_trader s
   \/ Lighter.get_balance (Strategy.lighter_trader s)
      = (Returns b, Strategy.lighter_trader s'))
  /\ (Strategy._balance_cache_seconds s
      < Strategy.clock s (Strategy.time_reads s) - Strategy._balance_updated_at s ->
      Lighter.get_balance (Strategy.lighter_trader s)
      = (Returns b, Strategy.lighter_trader s')).
Proof.
  intros Hrun.
  destruct (lighter_get_balance_returns (Strategy.lighter_trader s))
    as (b0 & t' & Hb).
  unfold Strategy._get_my_balance, bind, Strategy.time_time, Strategy.read,
    try_except, Strategy.on_trader in Hrun.
  cbn in Hrun.
  destruct (Qgtb _ _) eqn:Hdue.
  - cbn in Hrun. rewrite Hb in Hrun. cbn in Hrun. inversion Hrun. subst b0.
    cbn [Strategy.lighter_trader]. split; [right; exact Hb | intros _; exact Hb].
  - cbn in Hrun. inversion Hrun. cbn [Strategy.lighter_trader].
    split; [left; reflexivity|].
    intros H. apply Qgtb_true_lt in H. congruence.
Qed.

(** The path of a followed event through the Lighter client: [t1] is the
    trader after the eligibility check and [t2] the trader after sizing. *)
Lemma follow_path (event : Events.PositionEvent)
    (self self' : Strategy.StrategyEngine Lighter.LighterTrader)
    (r : Strategy.FollowResult) :
  Strategy.on_wallet_event Strategy.LighterTrader event self = (Returns r, self') ->
  Strategy.decision r = Strategy.FOLLOW ->
  let t := Strategy.lighter_trader self in
  exists b t1 t2 size side o,
    (t1 = t \/ Lighter.get_balance t = (Returns b, t1))
    /\ Qleb b 0 = false
    /\ (opening event ->
        exists b' ta price,
          (ta = t1 \/ Lighter.get_balance t1 = (Returns b', ta))
          /\ Qleb b' 0 = false
          /\ Lighter.get_market_price (Events.symbol event) ta
             = (Returns (Some price), t2))
    /\ (~ opening event ->
        exists ps, Lighter.get_positions t1 = (Returns ps, t2) /\ ps <> [])
    /\ (if Strategy.is_close_event event
        then Lighter.close_position (Events.symbol event)
        else Lighter.place_market_order (Events.symbol event) side size false
               Lighter.default_max_slippage) t2
       = (Returns o, Strategy.lighter_trader self')
    /\ Lighter.success o = true.
Proof.
  intros Hrun Hfollow t.
  destruct (follow_inversion _ _ _ _ _ Hrun Hfollow)
    as (reason & s1 & size & side & s2 & o & Hshould & Hparams & Hsize
        & Hop & Hsuccess).
  destruct (should_follow_true _ _ _ _ _ Hshould)
    as (_ & _ & d' & b & _ & _ & Hbal & Hb).
  destruct (get_my_balance_lighter _ _ _ Hbal) as [Hstep _].
  change (Strategy.lighter_trader (Strategy.set_db_manager d' self))
    with t in Hstep.
  exists b, (Strategy.lighter_trader s1), (Strategy.lighter_trader s2),
    size, side, o.
  split; [exact Hstep|]. split; [exact Hb|]. split; [| split].
  - intros Hkind.
    destruct (opening_params_positive _ _ _ _ _ _ Hkind Hparams Hsize)
      as (b' & sa & price & Hbal' & Hb' & _ & Hprice).
    destruct (get_my_balance_lighter _ _ _ Hbal') as [Hstep' _].
    exists b', (Strategy.lighter_trader sa), price.
    repeat split; assumption.
  - intros Hkind.
    exact (position_params_positive _ _ _ _ _ _ Hkind Hparams Hsize).
  - split; [| exact Hsuccess].
    destruct (Strategy.is_close_event event); exact Hop.
Qed.

(** The run of a followed event: the venue answered the last attempt of
    every call among those [p] selects, the account queries of a CLOSE or
    a FLIP set aside. *)
Lemma follow_answered (p : Lighter.Effect -> bool)
    (event : Events.PositionEvent)
    (self self' : Strategy.StrategyEngine Lighter.LighterTrader)
    (r : Strategy.FollowResult) :
  (Strategy.is_close_event event = true ->
   p (Lighter.Remote Lighter.AccountCall) = false) ->
  (forall d, p (Lighter.Sleep d) = false) ->
  Strategy.on_wallet_event Strategy.LighterTrader event self = (Returns r, self') ->
  Strategy.decision r = Strategy.FOLLOW ->
  answered_run p (Strategy.lighter_trader self) (Strategy.lighter_trader self').
Proof.
  intros Hclose Hsleep Hrun Hfollow.
  destruct (follow_path _ _ _ _ Hrun Hfollow)
    as (b & t1 & t2 & size & side & o & Hstep & Hb & Hopen & Hother & Hop
        & Hsuccess).
  assert (Hbalance : forall t ta b,
             ta = t \/ Lighter.get_balance t = (Returns b, ta) ->
             Qleb b 0 = false -> answered_run p t ta).
  { intros t ta b0 [-> | Hq] Hpos;
      [apply answered_run_refl | exact (get_balance_answered p _ _ _ Hq Hpos)]. }
  pose proof (Hbalance _ _ _ Hstep Hb) as R1.
  assert (R2 : answered_run p t1 t2).
  { destruct (opening_dec event) as [Hkind | Hkind].
    - destruct (Hopen Hkind) as (b' & ta & price & Hstep' & Hb' & Hprice).
      exact (answered_run_trans _ _ _ _ (Hbalance _ _ _ Hstep' Hb')
               (get_market_price_answered p _ _ _ _ Hprice)).
    - destruct (Hother Hkind) as (ps & Hps & Hnonempty).
      exact (get_positions_answered p _ _ _ Hps Hnonempty). }
  assert (R3 : answered_run p t2 (Strategy.lighter_trader self')).
  { destruct (Strategy.is_close_event event).
    - exact (close_position_answered p _ _ _ _ (Hclose eq_refl) Hsleep Hop
               Hsuccess).
    - exact (place_market_order_answered p _ _ _ _ _ _ _ _ Hop Hsuccess). }
  exact (answered_run_trans _ _ _ _ R1 (answered_run_trans _ _ _ _ R2 R3)).
Qed.

(** A followed event had its price queries answered. *)
Lemma follow_needs_price (event : Events.PositionEvent)
    (self self' : Strategy.StrategyEngine Lighter.LighterTrader)
    (r : Strategy.FollowResult) :
  Strategy.on_wallet_event Strategy.LighterTrader event self = (Returns r, self') ->
  Strategy.decision r = Strategy.FOLLOW ->
  ~ price_query_fails (Strategy.lighter_trader self)
      (Strategy.lighter_trader self').
Proof.
  intros Hrun Hfollow (market & n & Hin & Hraises).
  destruct (follow_answered is_price_call _ _ _ _ (fun _ => eq_refl)
              (fun _ => eq_refl) Hrun Hfollow) as (_ & _ & Hanswered).
  exact (Hanswered n _ Hin eq_refl Hraises).
Qed.

(** A followed event had the submission of its order answered. *)
Lemma follow_needs_submission (event : Events.PositionEvent)
    (self self' : Strategy.StrategyEngine Lighter.LighterTrader)
    (r : Strategy.FollowResult) :
  Strategy.on_wallet_event Strategy.LighterTrader event self = (Returns r, self') ->
  Strategy.decision r = Strategy.FOLLOW ->
  ~ order_submission_fails (Strategy.lighter_trader self)
      (Strategy.lighter_trader self').
Proof.
  intros Hrun Hfollow (req & n & Hin & Hraises).
  destruct (follow_answered is_order _ _ _ _ (fun _ => eq_refl)
              (fun _ => eq_refl) Hrun Hfollow) as (_ & _ & Hanswered).
  exact (Hanswered n _ Hin eq_refl Hraises).
Qed.

(** A followed event other than a CLOSE or a FLIP had its account queries
    answered. *)
Lemma follow_needs_account (event : Events.PositionEvent)
    (self self' : Strategy.StrategyEngine Lighter.LighterTrader)
    (r : Strategy.FollowResult) :
  Strategy.is_close_event event = false ->
  Strategy.on_wallet_event Strategy.LighterTrader event self = (Returns r, self') ->
  Strategy.decision r = Strategy.FOLLOW ->
  ~ account_query_fails (Strategy.lighter_trader self)
      (Strategy.lighter_trader self').
Proof.
  intros Hkind Hrun Hfollow (n & Hin & Hraises).
  assert (Hclose : Strategy.is_close_event event = true ->
                   is_account_call (Lighter.Remote Lighter.AccountCall) = false)
    by (rewrite Hkind; discriminate).
  destruct (follow_answered is_account_call _ _ _ _ Hclose
              (fun _ => eq_refl) Hrun Hfollow) as (_ & _ & Hanswered).
  exact (Hanswered n _ Hin eq_refl Hraises).
Qed.

(** A followed event had its reads of the store answered. *)
Lemma follow_needs_reads {T} (trader : Strategy.Trader T)
    (event : Events.PositionEvent) (self self' : Strategy.StrategyEngine T)
    (r : Strategy.FollowResult) :
  Strategy.on_wallet_event trader event self = (Returns r, self') ->
  Strategy.decision r = Strategy.FOLLOW ->
  ~ store_read_fails event self.
Proof.
  intros Hrun Hfollow (k & e & Hfault & Hk).
  destruct (follow_inversion _ _ _ _ _ Hrun Hfollow)
    as (reason & s1 & size & side & s2 & o & Hshould & Hparams & Hsize & _).
  destruct (should_follow_true _ _ _ _ _ Hshould)
    as (F0 & F1 & d' & b & G & N & Hbal & _).
  destruct Hk as [Hk | [-> Hkind]].
  - destruct k as [|[|k]]; [| | lia].
    + rewrite Nat.add_0_r in Hfault. congruence.
    + rewrite Nat.add_1_r in Hfault. congruence.
  - destruct (opening_params_positive _ _ _ _ _ _ Hkind Hparams Hsize)
      as (b' & sa & price & Hbal' & _ & F2 & _).
    pose proof (keeps_db_get_my_balance trader s1) as K1.
    rewrite Hbal' in K1. cbn [snd] in K1.
    pose proof (keeps_db_get_my_balance trader
                  (Strategy.set_db_manager d' self)) as K0.
    rewrite Hbal in K0. cbn [snd] in K0.
    change (Strategy.db_manager (Strategy.set_db_manager d' self)) with d' in K0.
    rewrite K1, K0, G, N in F2.
    replace (Db.statements (Strategy.db_manager self) + 2)%nat
      with (S (S (Db.statements (Strategy.db_manager self)))) in Hfault by lia.
    congruence.
Qed.

(** A followed event had the balance query of its eligibility check
    answered. *)
Lemma follow_needs_balance (event : Events.PositionEvent)
    (self self' : Strategy.StrategyEngine Lighter.LighterTrader)
    (r : Strategy.FollowResult) :
  Strategy.on_wallet_event Strategy.LighterTrader event self = (Returns r, self') ->
  Strategy.decision r = Strategy.FOLLOW ->
  ~ balance_query_fails self.
Proof.
  intros Hrun Hfollow [Hdue Hfail].
  destruct (follow_inversion _ _ _ _ _ Hrun Hfollow)
    as (reason & s1 & size & side & s2 & o & Hshould & _).
  destruct (should_follow_true _ _ _ _ _ Hshould)
    as (_ & _ & d' & b & _ & _ & Hbal & Hb).
  destruct (get_my_balance_lighter _ _ _ Hbal) as [_ Hquery].
  specialize (Hquery Hdue).
  change (Strategy.lighter_trader (Strategy.set_db_manager d' self))
    with (Strategy.lighter_trader self) in Hquery.
  pose proof (get_balance_gives_up _ Hfail) as Hzero.
  rewrite Hquery in Hzero. cbn [fst] in Hzero. inversion Hzero. subst b.
  discriminate Hb.
Qed.

Lemma not_followed (r : Strategy.FollowResult) :
  Strategy.decision r <> Strategy.REJECT ->
  Strategy.decision r <> Strategy.FOLLOW ->
  skipped_or_failed r.
Proof.
  unfold skipped_or_failed. destruct (Strategy.decision r); intros; auto;
    contradiction.
Qed.

(** Whatever the trader, the entry point returns a result that is sound. *)
Lemma on_wallet_event_total {T} (trader : Strategy.Trader T)
    (event : Events.PositionEvent) (self : Strategy.StrategyEngine T) :
  exists r self',
    Strategy.on_wallet_event trader event self = (Returns r, self')
    /\ sound_result (store_raises_with_text (Strategy.db_manager self)
                     /\ trader_raises_with_text trader) r.
Proof.
  pose (H := store_raises_with_text (Strategy.db_manager self)
             /\ trader_raises_with_text trader).
  destruct (triple_on_wallet_event trader H (fun h => proj2 h) event self
              (fun h => proj1 h)) as [_ Hout].
  destruct (Strategy.on_wallet_event trader event self) as [[r | e] self'];
    cbn in Hout; [| contradiction].
  exists r, self'. split; [reflexivity | exact Hout].
Qed.



